(** * Zynthian controllers, MIDI-learn table and controller screens

    A shallow embedding of the controller value model
    ([zyngine/zynthian_controller.py]) and of the engine-side MIDI-learn
    table and screen generator ([zyngine/zynthian_engine.py]), with the
    controller's configuration, labels and nudging and the engine's
    layer list, loading counter, preset favourites and line helper.

    Conventions.
    - Python numbers (int and finite float) are exact rationals [Q];
      numeric [==] is [Qeq].  Floating-point rounding, NaN and infinities
      are outside the model.
    - [int(x)] is truncation toward zero, [py_int].
    - A controller record describes a controller after [_configure], which
      replaces every [None] bound by a number (lines 170-174); the
      attributes that may still be [None] before it are fields of
      [selector].
    - [math.log10] and [math.pow(10, .)] are section variables on their
      domain; the [ValueError] of [math.log10] outside it is modelled.
    - Exceptions are values of [result]; [try_except] is the try/except
      statement. *)

From Stdlib Require Import QArith Qabs Qround Lqa Lia ZArith String DecimalString Sorted.
From stdpp Require Import gmap strings list.

(** ** Python numbers and exceptions *)

Module Py.

Inductive exn : Type :=
| ValueError
| ZeroDivisionError
| TypeError
| IndexError.

Inductive result (A : Type) : Type :=
| Return (a : A)
| Raise (e : exn).
Arguments Return {A} a.
Arguments Raise {A} e.

Definition bind {A B} (m : result A) (k : A -> result B) : result B :=
  match m with
  | Return a => k a
  | Raise e => Raise e
  end.

Definition try_except {A} (body : result A) (handler : exn -> result A) : result A :=
  match body with
  | Return a => Return a
  | Raise e => handler e
  end.

(** [int(x)]: truncation toward zero. *)
Definition py_int (x : Q) : Z := Z.quot (Qnum x) (Zpos (Qden x)).

(** [a / b] on numbers. *)
Definition truediv (a b : Q) : result Q :=
  if Qeq_bool b 0 then Raise ZeroDivisionError else Return (a / b)%Q.

(** Truthiness of an optional int ([None] and [0] are falsy). *)
Definition truthy_int (o : option Z) : bool :=
  match o with
  | Some n => negb (Z.eqb n 0)
  | None => false
  end.

(** Truthiness of an optional string ([None] and the empty string are falsy). *)
Definition truthy_str (o : option string) : bool :=
  match o with
  | Some s => negb (String.eqb s EmptyString)
  | None => false
  end.

(** Truthiness of a list. *)
Definition truthy_list {A} (l : list A) : bool :=
  match l with
  | [] => false
  | _ :: _ => true
  end.

(** Truthiness of a returned object: [None] and [False] are falsy. *)
Definition truthy_ret (o : option bool) : bool :=
  match o with
  | Some b => b
  | None => false
  end.

(** [str(n)] for a non-negative int, and for any int. *)
Definition str_nat (n : nat) : string := NilZero.string_of_uint (Nat.to_uint n).
Definition str_int (z : Z) : string := NilZero.string_of_int (Z.to_int z).

(** List subscript [l[i]]: negative indices count from the end, anything
    outside [-len, len) raises [IndexError] (here [None]). *)
Definition index {A} (l : list A) (i : Z) : option nat :=
  let n := Z.of_nat (length l) in
  if (0 <=? i)%Z && (i <? n)%Z then Some (Z.to_nat i)
  else if (- n <=? i)%Z && (i <? 0)%Z then Some (Z.to_nat (n + i))
  else None.

End Py.

Notation "'try!' x := m 'in' k" := (Py.bind m (fun x => k))
  (at level 10, x name, m at level 200, k at level 200).

(** ** The controller object *)

(** The fields of [zynthian_controller] read by the modelled methods.
    [engine] records whether [self.engine] is set.  [ticks] is [[]] when
    the attribute is [None] or empty (the code only tests its truthiness
    before use).  [graph_path] is kept by its [str()] form. *)
Record zynthian_controller : Type := {
  engine : bool;
  symbol : string;
  group_symbol : option string;
  group_name : option string;
  value : Q;
  value_min : Q;
  value_mid : Q;
  value_max : Q;
  value_range : Q;
  ticks : list Q;
  is_toggle : bool;
  is_integer : bool;
  is_logarithmic : bool;
  is_dirty : bool;
  not_on_gui : bool;
  midi_chan : option Z;
  midi_cc : option Z;
  osc_path : option string;
  graph_path : option string;
  midi_learn_chan : option Z;
  midi_learn_cc : option Z
}.

Definition with_value (c : zynthian_controller) (v : Q) : zynthian_controller :=
  {| engine := engine c; symbol := symbol c; group_symbol := group_symbol c;
     group_name := group_name c; value := v; value_min := value_min c;
     value_mid := value_mid c; value_max := value_max c;
     value_range := value_range c; ticks := ticks c; is_toggle := is_toggle c;
     is_integer := is_integer c; is_logarithmic := is_logarithmic c;
     is_dirty := is_dirty c; not_on_gui := not_on_gui c;
     midi_chan := midi_chan c; midi_cc := midi_cc c; osc_path := osc_path c;
     graph_path := graph_path c; midi_learn_chan := midi_learn_chan c;
     midi_learn_cc := midi_learn_cc c |}.

Definition with_is_dirty (c : zynthian_controller) (d : bool) : zynthian_controller :=
  {| engine := engine c; symbol := symbol c; group_symbol := group_symbol c;
     group_name := group_name c; value := value c; value_min := value_min c;
     value_mid := value_mid c; value_max := value_max c;
     value_range := value_range c; ticks := ticks c; is_toggle := is_toggle c;
     is_integer := is_integer c; is_logarithmic := is_logarithmic c;
     is_dirty := d; not_on_gui := not_on_gui c;
     midi_chan := midi_chan c; midi_cc := midi_cc c; osc_path := osc_path c;
     graph_path := graph_path c; midi_learn_chan := midi_learn_chan c;
     midi_learn_cc := midi_learn_cc c |}.

Definition with_midi_learn (c : zynthian_controller) (chan cc : option Z)
  : zynthian_controller :=
  {| engine := engine c; symbol := symbol c; group_symbol := group_symbol c;
     group_name := group_name c; value := value c; value_min := value_min c;
     value_mid := value_mid c; value_max := value_max c;
     value_range := value_range c; ticks := ticks c; is_toggle := is_toggle c;
     is_integer := is_integer c; is_logarithmic := is_logarithmic c;
     is_dirty := is_dirty c; not_on_gui := not_on_gui c;
     midi_chan := midi_chan c; midi_cc := midi_cc c; osc_path := osc_path c;
     graph_path := graph_path c; midi_learn_chan := chan;
     midi_learn_cc := cc |}.

(** ** Calls that leave the controller *)

Inductive osc_val : Type :=
| OscBool (b : bool)
| OscNum (q : Q).

Inductive fb_target : Type :=
| FbLearn
| FbDirect.

(** One constructor per external call attempted by [set_value]. *)
Inductive event : Type :=
| Engine_send_controller_value (sym : string)
| Liblo_send (path : string) (v : osc_val)
| Ui_send_ccontrol_change (chan : option Z) (cc : option Z) (mval : option Z)
| Ctrlfb_send_ccontrol_change (t : fb_target) (chan : option Z) (cc : option Z)
    (mval : option Z).

Definition is_learn_feedback (e : event) : bool :=
  match e with
  | Ctrlfb_send_ccontrol_change FbLearn _ _ _ => true
  | _ => false
  end.

Definition is_direct_feedback (e : event) : bool :=
  match e with
  | Ctrlfb_send_ccontrol_change FbDirect _ _ _ => true
  | _ => false
  end.

(** ** Methods of [zynthian_controller] *)

Section Controller.

(** [math.log10] on positive arguments and [math.pow(10, .)]. *)
Variable log10 : Q -> Q.
Variable pow10 : Q -> Q.

Definition math_log10 (x : Q) : Py.result Q :=
  if Qle_bool x 0 then Py.Raise Py.ValueError else Py.Return (log10 x).

(** [get_path] (lines 236-244). *)
Definition get_path (c : zynthian_controller) : option string :=
  if Py.truthy_str (osc_path c) then osc_path c
  else if Py.truthy_str (graph_path c) then graph_path c
  else match midi_chan c, midi_cc c with
       | Some ch, Some cc => Some (Py.str_int ch ++ "#" ++ Py.str_int cc)%string
       | _, _ => None
       end.

(** [_set_value] on a numeric argument (lines 310-340). *)
Definition _set_value (c : zynthian_controller) (val : Q) : zynthian_controller :=
  if is_toggle c then
    if Qeq_bool val (value_min c) || Qeq_bool val (value_max c) then
      if is_integer c then with_value c (inject_Z (Py.py_int val))
      else with_value c val
    else
      if Qlt_le_dec val (value_mid c) then with_value c (value_min c)
      else with_value c (value_max c)
  else
    let val :=
      if Py.truthy_list (ticks c) then val
      else if is_integer c then inject_Z (Py.py_int val)
      else val in
    if Qlt_le_dec (value_max c) val then with_value c (value_max c)
    else if Qlt_le_dec val (value_min c) then with_value c (value_min c)
    else with_value c val.

(** The body of the [try] block of [get_ctrl_midi_val] (lines 431-436). *)
Definition get_ctrl_midi_val_try (c : zynthian_controller) : Py.result Z :=
  if Qeq_bool (value_range c) 0 then Py.Return 0%Z
  else if is_logarithmic c then
    try! x := Py.truediv (9 * value c - (10 * value_min c - value_max c)) (value_range c) in
    try! l := math_log10 x in
    Py.Return (Py.py_int (127 * l))
  else
    try! x := Py.truediv (127 * (value c - value_min c)) (value_range c) in
    Py.Return (Z.min 127 (Py.py_int x)).

(** [get_ctrl_midi_val] (lines 429-441). *)
Definition get_ctrl_midi_val (c : zynthian_controller) : Py.result Z :=
  Py.try_except (get_ctrl_midi_val_try c) (fun _ => Py.Return 0%Z).

(** [get_ctrl_osc_val] (lines 444-447). *)
Definition get_ctrl_osc_val (c : zynthian_controller) : osc_val :=
  if is_toggle c then OscBool (if Qlt_le_dec 0 (value c) then true else false)
  else OscNum (value c).

(** The delivery block of [set_value] (lines 353-369).
    [send_raises] tells whether [engine.send_controller_value] raises;
    the OSC and MIDI sends sit in a [try] whose handler only logs. *)
Definition deliver (send_raises : bool) (c : zynthian_controller)
    (mval : option Z) : list event :=
  Engine_send_controller_value (symbol c) ::
  (if send_raises then
     if Py.truthy_str (osc_path c) then
       [Liblo_send (default EmptyString (osc_path c)) (get_ctrl_osc_val c)]
     else if Py.truthy_int (midi_cc c) then
       [Ui_send_ccontrol_change (midi_chan c) (midi_cc c) mval]
     else []
   else []).

(** The feedback block of [set_value] (lines 371-381). *)
Definition feedback (c : zynthian_controller) (mval : option Z) : list event :=
  if Py.truthy_int (midi_learn_cc c) then
    [Ctrlfb_send_ccontrol_change FbLearn (midi_learn_chan c) (midi_learn_cc c) mval]
  else if Py.truthy_int (midi_cc c) then
    [Ctrlfb_send_ccontrol_change FbDirect (midi_chan c) (midi_cc c) mval]
  else [].

(** [set_value] (lines 343-383): the controller afterwards, the external
    calls attempted, and the returned object ([None] on every path). *)
Definition set_value (send_raises : bool) (c : zynthian_controller) (val : Q)
    (send : bool) : Py.result (zynthian_controller * list event * option bool) :=
  let old_val := value c in
  let c := _set_value c val in
  if Qeq_bool old_val (value c) then Py.Return (c, [], None)
  else if engine c then
    try! mval := (if Py.truthy_int (midi_learn_cc c) || Py.truthy_int (midi_cc c)
                  then try! v := get_ctrl_midi_val c in Py.Return (Some v)
                  else Py.Return None) in
    Py.Return (with_is_dirty c true,
               (if send then deliver send_raises c mval else []) ++ feedback c mval,
               None)
  else Py.Return (with_is_dirty c true, [], None).

(** The scan of [get_value2index] from index [i] on (lines 394-400). *)
Fixpoint value2index_scan (val : Q) (rest : list Q) (i : nat) (dval : Q)
    (index : nat) : nat :=
  match rest with
  | [] => index
  | t :: rest' =>
      let ndval := Qabs (t - val) in
      if Qlt_le_dec ndval dval then value2index_scan val rest' (S i) ndval i
      else index
  end.

(** [get_value2index] (lines 387-405) on a tick list. *)
Definition get_value2index (tks : list Q) (val : Q) : option nat :=
  match tks with
  | [] => None
  | t0 :: rest => Some (value2index_scan val rest 1 (Qabs (t0 - val)) 0)
  end.

(** The value computed by [midi_control_change] (lines 579-582). *)
Definition midi_control_change_value (c : zynthian_controller) (val : Q) : Q :=
  if is_logarithmic c then
    value_min c + value_range c * (pow10 (val / 127) - 1) / 9
  else
    value_min c + val * value_range c / 127.

(** [midi_control_change] (lines 576-583). *)
Definition midi_control_change (send_raises : bool) (c : zynthian_controller)
    (val : Q) : Py.result (zynthian_controller * list event * option bool) :=
  set_value send_raises c (midi_control_change_value c val) true.

(** [_set_midi_learn] and [_unset_midi_learn] (lines 532-543). *)
Definition _set_midi_learn (c : zynthian_controller) (chan cc : Z)
    : zynthian_controller :=
  with_midi_learn c (Some chan) (Some cc).

Definition _unset_midi_learn (c : zynthian_controller) : zynthian_controller :=
  with_midi_learn c None None.

End Controller.

(** ** The engine: MIDI-learn table *)

(** Controllers are objects shared between the grid, the path dictionary
    and their callers: [zctrls] is the store of those objects and a
    reference is an index into it.  [learned_cc] is the 16 x 128 list of
    lists, [learned_zctrls] the dictionary keyed by [get_path()] (a string
    or [None]). *)
Record zynthian_engine : Type := {
  zctrls : list zynthian_controller;
  learned_cc : list (list (option nat));
  learned_zctrls : gmap (option string) nat;
  ignore_not_on_gui : bool;
  _ctrl_screens : list (string * list string)
}.

Definition with_learn (e : zynthian_engine) (zs : list zynthian_controller)
    (g : list (list (option nat))) (d : gmap (option string) nat) : zynthian_engine :=
  {| zctrls := zs; learned_cc := g; learned_zctrls := d;
     ignore_not_on_gui := ignore_not_on_gui e; _ctrl_screens := _ctrl_screens e |}.

Definition with_ctrl_screens (e : zynthian_engine) (s : list (string * list string))
    : zynthian_engine :=
  {| zctrls := zctrls e; learned_cc := learned_cc e;
     learned_zctrls := learned_zctrls e;
     ignore_not_on_gui := ignore_not_on_gui e; _ctrl_screens := s |}.

(** [learned_cc[chan][cc]]; [None] when a subscript raises [IndexError]. *)
Definition grid_get (g : list (list (option nat))) (chan cc : Z)
    : option (option nat) :=
  match Py.index g chan with
  | Some i =>
      match g !! i with
      | Some row =>
          match Py.index row cc with
          | Some j => row !! j
          | None => None
          end
      | None => None
      end
  | None => None
  end.

(** [learned_cc[chan][cc] = v]; [None] when a subscript raises. *)
Definition grid_set (g : list (list (option nat))) (chan cc : Z) (v : option nat)
    : option (list (list (option nat))) :=
  match Py.index g chan with
  | Some i =>
      match g !! i with
      | Some row =>
          match Py.index row cc with
          | Some j => Some (<[i := <[j := v]> row]> g)
          | None => None
          end
      | None => None
      end
  | None => None
  end.

(** [[[None for c in range(128)] for chan in range(16)]] (lines 202, 739). *)
Definition empty_learned_cc : list (list (option nat)) :=
  replicate 16 (replicate 128 None).

(** [reset_midi_learn] (lines 736-739). *)
Definition reset_midi_learn (e : zynthian_engine) : zynthian_engine :=
  with_learn e (zctrls e) empty_learned_cc ∅.

(** [zynthian_engine.midi_unlearn] (lines 685-693).  A [None] learn field
    makes the subscript raise [TypeError], an out-of-range one
    [IndexError]; both are caught and logged, nothing is changed and
    [None] is returned. *)
Definition midi_unlearn (e : zynthian_engine) (z : nat)
    : zynthian_engine * option bool :=
  match zctrls e !! z with
  | None => (e, None)
  | Some c =>
      match learned_zctrls e !! get_path c with
      | Some _ =>
          match midi_learn_chan c, midi_learn_cc c with
          | Some chan, Some cc =>
              match grid_set (learned_cc e) chan cc None with
              | Some g =>
                  (with_learn e (<[z := _unset_midi_learn c]> (zctrls e)) g
                     (delete (get_path c) (learned_zctrls e)),
                   Some true)
              | None => (e, None)
              end
          | _, _ => (e, None)
          end
      | None => (e, None)
      end
  end.

(** [zynthian_controller.midi_unlearn] (lines 501-520).  The GUI refresh
    after a successful unlearn does not touch the learn state. *)
Definition zctrl_midi_unlearn (e : zynthian_engine) (z : nat)
    : zynthian_engine * option bool :=
  match zctrls e !! z with
  | None => (e, None)
  | Some c =>
      if engine c && bool_decide (is_Some (midi_learn_chan c))
                  && bool_decide (is_Some (midi_learn_cc c)) then
        let '(e', unlearned) := midi_unlearn e z in
        if Py.truthy_ret unlearned then (e', Some true) else (e', Some false)
      else (e, Some true)
  end.

(** [zynthian_engine.set_midi_learn] (lines 696-713). *)
Definition set_midi_learn (e : zynthian_engine) (z : nat) (chan cc : Z)
    : zynthian_engine * option bool :=
  (* try: self.learned_cc[chan][cc].midi_unlearn()  except: pass *)
  let e1 :=
    match grid_get (learned_cc e) chan cc with
    | Some (Some z') => fst (zctrl_midi_unlearn e z')
    | _ => e
    end in
  (* try: self.midi_unlearn(zctrl)  except: pass *)
  let e2 := fst (midi_unlearn e1 z) in
  match zctrls e2 !! z with
  | None => (e2, None)
  | Some c =>
      let d := <[get_path c := z]> (learned_zctrls e2) in
      match grid_set (learned_cc e2) chan cc (Some z) with
      | Some g =>
          (with_learn e2 (<[z := _set_midi_learn c chan cc]> (zctrls e2)) g d,
           Some true)
      | None => (with_learn e2 (zctrls e2) (learned_cc e2) d, None)
      end
  end.

(** [zynthian_controller.set_midi_learn] (lines 523-529). *)
Definition zctrl_set_midi_learn (e : zynthian_engine) (z : nat) (chan cc : Z)
    : zynthian_engine * option bool :=
  match zctrls e !! z with
  | None => (e, None)
  | Some c => if engine c then set_midi_learn e z chan cc else (e, None)
  end.

(** [midi_control_change] lookup of the engine (line 751): the cell read. *)
Definition lookup (e : zynthian_engine) (chan cc : Z) : option nat :=
  match grid_get (learned_cc e) chan cc with
  | Some o => o
  | None => None
  end.

(** A call on the learn table. *)
Inductive learn_op : Type :=
| Learn (z : nat) (chan cc : Z)      (* zctrl.set_midi_learn(chan, cc) *)
| Unlearn (z : nat)                  (* zctrl.midi_unlearn() *)
| EngineUnlearn (z : nat).           (* engine.midi_unlearn(zctrl) *)

Definition learn_step (e : zynthian_engine) (o : learn_op) : zynthian_engine :=
  match o with
  | Learn z chan cc => fst (zctrl_set_midi_learn e z chan cc)
  | Unlearn z => fst (zctrl_midi_unlearn e z)
  | EngineUnlearn z => fst (midi_unlearn e z)
  end.

Definition learn_run (e : zynthian_engine) (ops : list learn_op) : zynthian_engine :=
  fold_left learn_step ops e.

(** The learn fields of controller [z] as a pair, when both are set. *)
Definition learn_binding (e : zynthian_engine) (z : nat) : option (Z * Z) :=
  match zctrls e !! z with
  | Some c =>
      match midi_learn_chan c, midi_learn_cc c with
      | Some chan, Some cc => Some (chan, cc)
      | _, _ => None
      end
  | None => None
  end.

(** ** The engine: controller screens *)

(** An [OrderedDict] as an association list in insertion order:
    assignment to a present key keeps its position. *)
Fixpoint odict_get {K V} `{EqDecision K} (k : K) (d : list (K * V)) : option V :=
  match d with
  | [] => None
  | (k', v) :: d' => if decide (k = k') then Some v else odict_get k d'
  end.

Fixpoint odict_set {K V} `{EqDecision K} (k : K) (v : V) (d : list (K * V))
    : list (K * V) :=
  match d with
  | [] => [(k, v)]
  | (k', v') :: d' =>
      if decide (k = k') then (k', v) :: d' else (k', v') :: odict_set k v d'
  end.

(** A group: its display name and its controllers by symbol. *)
Definition gdata : Type := string * list (string * zynthian_controller).

(** [get_ctrl_screen_name] (lines 624-627). *)
Definition get_ctrl_screen_name (gname : string) (i : nat) : string :=
  if (0 <? i)%nat then (gname ++ "#" ++ Py.str_nat i)%string else gname.

(** The name given to a new group (lines 639-642).  For the key [None]
    with no usable [group_name] the source stores [None], which line 645
    always replaces; the model stores the replacement at once. *)
Definition new_group_name (zctrl : zynthian_controller) : string :=
  if Py.truthy_str (group_name zctrl) then default EmptyString (group_name zctrl)
  else default "Ctrls"%string (group_symbol zctrl).

(** One turn of the grouping loop (lines 636-643). *)
Definition group_add (zctrl_group : list (option string * gdata))
    (item : string * zynthian_controller) : list (option string * gdata) :=
  let '(sym, zctrl) := item in
  let gsymbol := group_symbol zctrl in
  let zctrl_group :=
    match odict_get gsymbol zctrl_group with
    | None => odict_set gsymbol (new_group_name zctrl, []) zctrl_group
    | Some _ => zctrl_group
    end in
  match odict_get gsymbol zctrl_group with
  | Some (gname, members) =>
      odict_set gsymbol (gname, odict_set sym zctrl members) zctrl_group
  | None => zctrl_group
  end.

(** The groups built by lines 635-645. *)
Definition zctrl_groups (zctrl_dict : list (string * zynthian_controller))
    : list (option string * gdata) :=
  let zctrl_group := fold_left group_add zctrl_dict [] in
  match odict_get None zctrl_group with
  | Some (_, members) => odict_set None ("Ctrls"%string, members) zctrl_group
  | None => zctrl_group
  end.

(** One turn of the page loop (lines 654-664): the state is
    [(ctrl_set, c, _ctrl_screens)].  The [try] around the body only
    guards attribute reads, which do not raise on controller objects. *)
Definition screen_step (ignore : bool) (gname : string)
    (st : list string * nat * list (string * list string))
    (item : string * zynthian_controller)
    : list string * nat * list (string * list string) :=
  let '(ctrl_set, c, screens) := st in
  let '(sym, zctrl) := item in
  if negb ignore && not_on_gui zctrl then st
  else
    let ctrl_set := ctrl_set ++ [sym] in
    if (4 <=? length ctrl_set)%nat then
      ([], S c, screens ++ [(get_ctrl_screen_name gname c, ctrl_set)])
    else (ctrl_set, c, screens).

(** The body of the loop over groups (lines 648-670). *)
Definition group_screens (ignore : bool) (screens : list (string * list string))
    (g : gdata) : list (string * list string) :=
  let '(gname, members) := g in
  let c := if (length members <=? 4)%nat then 0%nat else 1%nat in
  let '(ctrl_set, c, screens) :=
    fold_left (screen_step ignore gname) members ([], c, screens) in
  if (1 <=? length ctrl_set)%nat then
    screens ++ [(get_ctrl_screen_name gname c, ctrl_set)]
  else screens.

(** [generate_ctrl_screens] (lines 630-670). *)
Definition generate_ctrl_screens (e : zynthian_engine)
    (zctrl_dict : list (string * zynthian_controller)) : zynthian_engine :=
  with_ctrl_screens e
    (fold_left (fun screens kg => group_screens (ignore_not_on_gui e) screens (snd kg))
       (zctrl_groups zctrl_dict) (_ctrl_screens e)).

(** The pages one group adds to the screen list. *)
Definition group_pages (ignore : bool) (g : gdata) : list (string * list string) :=
  group_screens ignore [] g.

(** ** Predicates and sample objects used in the statements *)

(** A number with no fractional part. *)
Definition is_whole (q : Q) : Prop := exists k : Z, (q == inject_Z k)%Q.

(** [lo <= v <= hi]. *)
Definition in_range (lo hi v : Q) : Prop := (lo <= v)%Q /\ (v <= hi)%Q.

(** The clamp of lines 335-340. *)
Definition clamp (lo hi v : Q) : Q :=
  if Qlt_le_dec hi v then hi else if Qlt_le_dec v lo then lo else v.

(** Rounding to the nearest whole number, halves upward: the rounding the
    specification words describe for integer scales. *)
Definition round_nearest (x : Q) : Z := Qfloor (x + (1 # 2)).

(** A controller with no routing and the given scale. *)
Definition plain_controller (sym : string) (v lo mid hi : Q) (toggle integer : bool)
    : zynthian_controller :=
  {| engine := true; symbol := sym; group_symbol := None; group_name := None;
     value := v; value_min := lo; value_mid := mid; value_max := hi;
     value_range := hi - lo; ticks := []; is_toggle := toggle;
     is_integer := integer; is_logarithmic := false; is_dirty := false;
     not_on_gui := false; midi_chan := None; midi_cc := None; osc_path := None;
     graph_path := None; midi_learn_chan := None; midi_learn_cc := None |}.

(** min=0, max=127, integer, not a toggle. *)
Definition cc_controller : zynthian_controller :=
  plain_controller "cc" 0 0 63 127 false true.

(** An integer toggle whose bounds are not whole numbers. *)
Definition half_toggle : zynthian_controller :=
  plain_controller "half" (3 # 2) (1 # 2) 1 (3 # 2) true true.

(** The value stored by a [set_value] call. *)
Definition stored_value
    (r : Py.result (zynthian_controller * list event * option bool)) : option Q :=
  match r with
  | Py.Return (c, _, _) => Some (value c)
  | Py.Raise _ => None
  end.

(** A logarithmic 0..127 controller whose [value] attribute was written
    below [value_min]. *)
Definition log_controller : zynthian_controller :=
  {| engine := true; symbol := "log"; group_symbol := None; group_name := None;
     value := -20; value_min := 0; value_mid := 63; value_max := 127;
     value_range := 127; ticks := []; is_toggle := false;
     is_integer := false; is_logarithmic := true; is_dirty := false;
     not_on_gui := false; midi_chan := None; midi_cc := None; osc_path := None;
     graph_path := None; midi_learn_chan := None; midi_learn_cc := None |}.

(** A controller learned on channel 2, CC 0, with a direct target on
    channel 0, CC 74. *)
Definition learned_cc0_controller : zynthian_controller :=
  {| engine := true; symbol := "cutoff"; group_symbol := None; group_name := None;
     value := 10; value_min := 0; value_mid := 63; value_max := 127;
     value_range := 127; ticks := []; is_toggle := false;
     is_integer := true; is_logarithmic := false; is_dirty := false;
     not_on_gui := false; midi_chan := Some 0%Z; midi_cc := Some 74%Z;
     osc_path := None; graph_path := None;
     midi_learn_chan := Some 2%Z; midi_learn_cc := Some 0%Z |}.

(** The external calls attempted by a [set_value] call. *)
Definition attempted_calls
    (r : Py.result (zynthian_controller * list event * option bool)) : list event :=
  match r with
  | Py.Return (_, evs, _) => evs
  | Py.Raise _ => []
  end.

(** The distance [get_value2index] minimises. *)
Definition tick_distance (val t : Q) : Q := Qabs (t - val).

(** Tick lists in (weakly) monotonic and in strictly monotonic order. *)
Definition monotonic (tks : list Q) : Prop :=
  StronglySorted Qle tks \/ StronglySorted (fun a b => (b <= a)%Q) tks.

Definition strictly_monotonic (tks : list Q) : Prop :=
  StronglySorted Qlt tks \/ StronglySorted (fun a b => (b < a)%Q) tks.

(** The filter of line 656: a controller is put on a page unless it is
    flagged [not_on_gui] and the engine does not ignore the flag. *)
Definition shown (ignore : bool) (zctrl : zynthian_controller) : bool :=
  negb (negb ignore && not_on_gui zctrl).

(** The symbols of the controllers of a group that go on its pages. *)
Definition shown_symbols (ignore : bool)
    (members : list (string * zynthian_controller)) : list string :=
  (filter (fun it => shown ignore it.2 = true) members).*1.

(** The controllers of a dictionary whose [group_symbol] is [key]. *)
Definition in_group (key : option string)
    (zctrl_dict : list (string * zynthian_controller))
    : list (string * zynthian_controller) :=
  filter (fun it => group_symbol it.2 = key) zctrl_dict.

(** A controller of a given group; [hidden] is its [not_on_gui] flag. *)
Definition grouped_controller (sym : string) (gsym : option string) (hidden : bool)
    : zynthian_controller :=
  {| engine := true; symbol := sym; group_symbol := gsym; group_name := None;
     value := 0; value_min := 0; value_mid := 63; value_max := 127;
     value_range := 127; ticks := []; is_toggle := false;
     is_integer := true; is_logarithmic := false; is_dirty := false;
     not_on_gui := hidden; midi_chan := None; midi_cc := None; osc_path := None;
     graph_path := None; midi_learn_chan := None; midi_learn_cc := None |}.

Definition dict_of_group (gsym : string) (syms : list string)
    : list (string * zynthian_controller) :=
  (fun s => (s, grouped_controller s (Some gsym) false)) <$> syms.

(** Three controllers in group A followed by seven in group B. *)
Definition three_and_seven : list (string * zynthian_controller) :=
  dict_of_group "A" ["a1"; "a2"; "a3"]%string ++
  dict_of_group "B" ["b1"; "b2"; "b3"; "b4"; "b5"; "b6"; "b7"]%string.

(** Five controllers in one group G. *)
Definition five_in_G : list (string * zynthian_controller) :=
  dict_of_group "G" ["g1"; "g2"; "g3"; "g4"; "g5"]%string.

(** An engine holding the given controller objects, with an empty learn
    table and no screens. *)
Definition fresh_engine (zs : list zynthian_controller) (ignore : bool)
    : zynthian_engine :=
  {| zctrls := zs; learned_cc := empty_learned_cc; learned_zctrls := ∅;
     ignore_not_on_gui := ignore; _ctrl_screens := [] |}.

(** ** The learn table seen cell by cell *)

(** The cell in row [i], column [j] of the grid; [None] outside it. *)
Definition cell (g : list (list (option nat))) (i j : nat) : option (option nat) :=
  match g !! i with
  | Some row => row !! j
  | None => None
  end.

Definition cell_set (g : list (list (option nat))) (i j : nat) (v : option nat)
    : list (list (option nat)) :=
  match g !! i with
  | Some row => <[i := <[j := v]> row]> g
  | None => g
  end.

(** The grid has 16 rows of 128 cells. *)
Definition grid_shape (g : list (list (option nat))) : Prop :=
  length g = 16%nat /\ Forall (fun row => length row = 128%nat) g.

(** The row and column a pair of subscripts selects in a 16 x 128 grid. *)
Definition coords (chan cc : Z) : option (nat * nat) :=
  match Py.index (replicate 16 ()) chan, Py.index (replicate 128 ()) cc with
  | Some i, Some j => Some (i, j)
  | _, _ => None
  end.

Definition unlearned (c : zynthian_controller) : Prop :=
  midi_learn_chan c = None /\ midi_learn_cc c = None.

(** Learn calls are made with MIDI numbers, which are not negative. *)
Definition learn_op_nonneg (o : learn_op) : Prop :=
  match o with
  | Learn _ chan cc => (0 <= chan)%Z /\ (0 <= cc)%Z
  | _ => True
  end.

(** The cells only lose references from [g] to [g']. *)
Definition grid_cleared (g g' : list (list (option nat))) : Prop :=
  forall i j : nat, cell g' i j = cell g i j \/ cell g' i j = Some None.

(** The controllers keep their path and their engine from [e] to [e']. *)
Definition same_static (e e' : zynthian_engine) : Prop :=
  get_path <$> zctrls e' = get_path <$> zctrls e /\
  engine <$> zctrls e' = engine <$> zctrls e.

(** The grid and the learn fields of the controllers agree. *)
Record learn_inv (e : zynthian_engine) : Prop := {
  inv_shape : grid_shape (learned_cc e);
  inv_paths : NoDup (get_path <$> zctrls e);
  inv_cell : forall (i j z : nat),
    cell (learned_cc e) i j = Some (Some z) ->
    exists (c : zynthian_controller) (chan cc : Z),
      zctrls e !! z = Some c /\ engine c = true /\
      learned_zctrls e !! get_path c = Some z /\
      midi_learn_chan c = Some chan /\ midi_learn_cc c = Some cc /\
      (0 <= chan)%Z /\ (0 <= cc)%Z /\ coords chan cc = Some (i, j);
  inv_ctrl : forall (z : nat) (c : zynthian_controller),
    zctrls e !! z = Some c ->
    unlearned c \/
    exists (chan cc : Z) (i j : nat),
      midi_learn_chan c = Some chan /\ midi_learn_cc c = Some cc /\
      coords chan cc = Some (i, j) /\ cell (learned_cc e) i j = Some (Some z)
}.

(** Two controllers without routing ([get_path()] is [None] for both),
    and two controllers with distinct OSC paths. *)
Definition osc_controller (sym path : string) : zynthian_controller :=
  {| engine := true; symbol := sym; group_symbol := None; group_name := None;
     value := 0; value_min := 0; value_mid := 63; value_max := 127;
     value_range := 127; ticks := []; is_toggle := false;
     is_integer := true; is_logarithmic := false; is_dirty := false;
     not_on_gui := false; midi_chan := None; midi_cc := None;
     osc_path := Some path; graph_path := None;
     midi_learn_chan := None; midi_learn_cc := None |}.

Definition same_path_engine : zynthian_engine :=
  fresh_engine [plain_controller "A" 0 0 63 127 false true;
                plain_controller "B" 0 0 63 127 false true] false.

Definition two_path_engine : zynthian_engine :=
  fresh_engine [osc_controller "A" "/a"; osc_controller "B" "/b"] false.

(** The groups hold, key by key, the controllers of the dictionary. *)
Definition groups_of (G : list (option string * gdata))
    (P : list (string * zynthian_controller)) : Prop :=
  NoDup G.*1 /\
  forall key : option string,
    match odict_get key G with
    | Some g => g.2 = in_group key P
    | None => in_group key P = []
    end.

(** ** The engine: more of the MIDI-learn table *)

(** [keep_midi_learn] (lines 716-726): the controller registered under
    the path of [zctrl] hands its binding over.  Every exception is
    swallowed; what was assigned before it stays assigned. *)
Definition keep_midi_learn (e : zynthian_engine) (z : nat)
    : zynthian_engine * option bool :=
  match zctrls e !! z with
  | None => (e, None)
  | Some c =>
      match learned_zctrls e !! get_path c with
      | None => (e, None)
      | Some old =>
          match zctrls e !! old with
          | None => (e, None)
          | Some oc =>
              let d := <[get_path c := z]> (learned_zctrls e) in
              match midi_learn_chan oc, midi_learn_cc oc with
              | Some chan, Some cc =>
                  match grid_set (learned_cc e) chan cc (Some z) with
                  | Some g =>
                      (with_learn e (<[z := _set_midi_learn c chan cc]> (zctrls e)) g d,
                       Some true)
                  | None => (with_learn e (zctrls e) (learned_cc e) d, None)
                  end
              | _, _ => (with_learn e (zctrls e) (learned_cc e) d, None)
              end
          end
      end
  end.

(** [zynthian_engine.cb_midi_learn] (lines 742-743). *)
Definition cb_midi_learn (e : zynthian_engine) (z : nat) (chan cc : Z)
    : zynthian_engine * option bool :=
  set_midi_learn e z chan cc.

(** [zynthian_engine.midi_control_change] (lines 750-752): the subscript
    is not guarded, so an index outside the grid raises [IndexError]. *)
Definition engine_midi_control_change (log10 pow10 : Q -> Q) (send_raises : bool)
    (e : zynthian_engine) (chan ccnum : Z) (val : Q)
    : Py.result (zynthian_engine * list event) :=
  match grid_get (learned_cc e) chan ccnum with
  | None => Py.Raise Py.IndexError
  | Some None => Py.Return (e, [])
  | Some (Some z) =>
      match zctrls e !! z with
      | None => Py.Return (e, [])
      | Some c =>
          try! r := midi_control_change log10 pow10 send_raises c val in
          Py.Return (with_learn e (<[z := r.1.1]> (zctrls e)) (learned_cc e)
                       (learned_zctrls e),
                     r.1.2)
      end
  end.

(** [midi_zctrl_change] (lines 755-760) on one controller: the change is
    dropped when [val] is already the controller's 7-bit value; what
    [midi_control_change] raises is logged. *)
Definition midi_zctrl_change (log10 pow10 : Q -> Q) (send_raises : bool)
    (c : zynthian_controller) (val : Z)
    : Py.result (zynthian_controller * list event) :=
  try! m := get_ctrl_midi_val log10 c in
  if Z.eqb val m then Py.Return (c, [])
  else
    Py.try_except
      (try! r := midi_control_change log10 pow10 send_raises c (inject_Z val) in
       Py.Return (r.1.1, r.1.2))
      (fun _ => Py.Return (c, [])).

(** ** The engine: list helpers *)

Section DoubleSpacing.

(** [line.strip() == ""] as a test on a line. *)
Variable blank : string -> bool.

(** The [enumerate] loop of [remove_double_spacing] (lines 792-794):
    the indices of the blank lines that follow a blank line, in
    increasing order.  [lines] is the whole list, [rest] what is left to
    visit from [index] on. *)
Fixpoint double_line_scan (lines : list string) (index : nat) (rest : list string)
    : list nat :=
  match rest with
  | [] => []
  | line :: rest' =>
      let found := double_line_scan lines (S index) rest' in
      if blank line && (0 <? index)%nat &&
         match lines !! (index - 1)%nat with
         | Some prev => blank prev
         | None => false
         end
      then index :: found
      else found
  end.

(** [double_line.sort(reverse=True)] (line 795). *)
Fixpoint insert_reverse (n : nat) (l : list nat) : list nat :=
  match l with
  | [] => [n]
  | m :: l' => if (m <=? n)%nat then n :: l else m :: insert_reverse n l'
  end.

Fixpoint sort_reverse (l : list nat) : list nat :=
  match l with
  | [] => []
  | n :: l' => insert_reverse n (sort_reverse l')
  end.

(** [remove_double_spacing] (lines 790-797): the list [lines] after the
    call (the method works in place).  [del lines[i]] is [delete i]. *)
Definition remove_double_spacing (lines : list string) : list string :=
  fold_left (fun ls i => delete i ls)
    (sort_reverse (double_line_scan lines 0 lines)) lines.

(** A line is dropped exactly when it is blank and the line before it in
    the input was blank: [prev_blank] tells whether that line was. *)
Fixpoint drop_double_blank (prev_blank : bool) (lines : list string) : list string :=
  match lines with
  | [] => []
  | line :: rest =>
      if blank line && prev_blank then drop_double_blank true rest
      else line :: drop_double_blank (blank line) rest
  end.

End DoubleSpacing.

(** A test of blank lines for the examples: the empty line only. *)
Definition empty_line (s : string) : bool := String.eqb s EmptyString.

(** ** The engine: preset favourites *)

Section Favourites.

(** The value kept for a favourite, [[layer.bank_info, preset]]. *)
Context {V : Type}.

(** [my_data_dir], and what [json.load] gives for the file at a path
    ([None] when the file cannot be opened or parsed). *)
Variable my_data_dir : string.
Variable favs_on_disk : string -> option (gmap string V).

(** The attributes the favourites methods use.  [preset_favs] is the
    dictionary keyed by [str(preset[0])], or [None] before loading. *)
Record favs_state : Type := {
  nickname : string;
  preset_favs : option (gmap string V);
  preset_favs_fpath : option string
}.

(** [nickname.replace("/", "_")]; 47 and 95 are the codes of the two
    characters. *)
Fixpoint replace_slash (s : string) : string :=
  match s with
  | EmptyString => EmptyString
  | String a s' =>
      String (if Ascii.eqb a (Ascii.ascii_of_nat 47) then Ascii.ascii_of_nat 95 else a)
        (replace_slash s')
  end.

(** [load_preset_favs] (lines 548-562). *)
Definition load_preset_favs (st : favs_state) : favs_state :=
  if negb (String.eqb (nickname st) EmptyString) then
    let fpath := (my_data_dir ++ "/preset-favorites/" ++ replace_slash (nickname st)
                  ++ ".json")%string in
    {| nickname := nickname st;
       preset_favs := Some (default ∅ (favs_on_disk fpath));
       preset_favs_fpath := Some fpath |}
  else st.

Definition ensure_loaded (st : favs_state) : favs_state :=
  match preset_favs st with
  | None => load_preset_favs st
  | Some _ => st
  end.

Definition with_preset_favs (st : favs_state) (d : gmap string V) : favs_state :=
  {| nickname := nickname st; preset_favs := Some d;
     preset_favs_fpath := preset_favs_fpath st |}.

(** [toggle_preset_fav] (lines 499-516): the state, the returned status
    and the dictionary the method tries to write to [preset_favs_fpath]
    (a failing write is logged and passed over).  With no dictionary
    loaded, the [del] raises inside the [try], and the assignment of the
    handler raises [TypeError] to the caller. *)
Definition toggle_preset_fav (st : favs_state) (key : string) (v : V)
    : Py.result (favs_state * bool * list (gmap string V)) :=
  let st := ensure_loaded st in
  match preset_favs st with
  | None => Py.Raise Py.TypeError
  | Some d =>
      match d !! key with
      | Some _ =>
          Py.Return (with_preset_favs st (delete key d), false, [delete key d])
      | None =>
          Py.Return (with_preset_favs st (<[key := v]> d), true, [<[key := v]> d])
      end
  end.

(** [remove_preset_fav] (lines 519-527): every exception is passed over. *)
Definition remove_preset_fav (st : favs_state) (key : string)
    : favs_state * list (gmap string V) :=
  let st := ensure_loaded st in
  match preset_favs st with
  | None => (st, [])
  | Some d =>
      match d !! key with
      | Some _ => (with_preset_favs st (delete key d), [delete key d])
      | None => (st, [])
      end
  end.

(** [is_preset_fav] (lines 537-545). *)
Definition is_preset_fav (st : favs_state) (key : string)
    : Py.result (favs_state * bool) :=
  let st := ensure_loaded st in
  match preset_favs st with
  | None => Py.Raise Py.TypeError
  | Some d => Py.Return (st, bool_decide (is_Some (d !! key)))
  end.

(** [get_preset_favs] (lines 530-534). *)
Definition get_preset_favs (st : favs_state) : favs_state * option (gmap string V) :=
  let st := ensure_loaded st in (st, preset_favs st).

(** The answer of [is_preset_fav], when it returns. *)
Definition fav_status (r : Py.result (favs_state * bool)) : option bool :=
  match r with
  | Py.Return (_, b) => Some b
  | Py.Raise _ => None
  end.

End Favourites.

(** ** The engine: layers and the loading counter *)

(** A layer object, as far as the engine reads and writes it. *)
Record zynthian_layer : Type := {
  layer_midi_chan : option Z;
  layer_jackname : option string;
  refresh_flag : bool
}.

(** The attributes of the engine that the layer and loading methods use;
    [layer_objs] is the store of layer objects, [layers] holds
    references into it, [zyngui] tells whether a GUI is attached. *)
Record engine_layers : Type := {
  jackname : string;
  layers : list nat;
  layer_objs : list zynthian_layer;
  loading : Z;
  zyngui : bool
}.

Definition with_jackname (l : zynthian_layer) (j : option string) : zynthian_layer :=
  {| layer_midi_chan := layer_midi_chan l; layer_jackname := j;
     refresh_flag := refresh_flag l |}.

Definition with_layers (e : engine_layers) (ls : list nat)
    (objs : list zynthian_layer) : engine_layers :=
  {| jackname := jackname e; layers := ls; layer_objs := objs;
     loading := loading e; zyngui := zyngui e |}.

Definition with_loading (e : engine_layers) (n : Z) : engine_layers :=
  {| jackname := jackname e; layers := layers e; layer_objs := layer_objs e;
     loading := n; zyngui := zyngui e |}.

(** [list.remove(x)]: the first occurrence goes; [None] stands for the
    [ValueError] raised when there is none. *)
Fixpoint list_remove (x : nat) (l : list nat) : option (list nat) :=
  match l with
  | [] => None
  | y :: l' =>
      if decide (x = y) then Some l'
      else match list_remove x l' with
           | Some r => Some (y :: r)
           | None => None
           end
  end.

(** [add_layer] (lines 383-385). *)
Definition add_layer (e : engine_layers) (l : nat) : engine_layers :=
  with_layers e (layers e ++ [l])
    (alter (fun o => with_jackname o (Some (jackname e))) l (layer_objs e)).

(** [del_layer] (lines 388-390). *)
Definition del_layer (e : engine_layers) (l : nat) : Py.result engine_layers :=
  match list_remove l (layers e) with
  | None => Py.Raise Py.ValueError
  | Some ls =>
      Py.Return (with_layers e ls
                   (alter (fun o => with_jackname o None) l (layer_objs e)))
  end.

(** [del_all_layers] (lines 393-395).  The [for] statement reads the
    list through an index that grows by one per turn while the body
    shortens the list; [fuel] bounds the number of turns. *)
Fixpoint del_all_layers_loop (fuel : nat) (i : nat) (e : engine_layers)
    : Py.result engine_layers :=
  match fuel with
  | O => Py.Return e
  | S fuel' =>
      match layers e !! i with
      | None => Py.Return e
      | Some l =>
          try! e' := del_layer e l in
          del_all_layers_loop fuel' (S i) e'
      end
  end.

Definition del_all_layers (e : engine_layers) : Py.result engine_layers :=
  del_all_layers_loop (length (layers e)) 0 e.

(** [get_active_midi_channels] (lines 413-420) on the layer objects of
    [self.layers]; [chans] is the list built so far. *)
Fixpoint active_midi_channels_loop (chans : list Z) (ls : list zynthian_layer)
    : option (list Z) :=
  match ls with
  | [] => Some chans
  | l :: ls' =>
      match layer_midi_chan l with
      | None => None
      | Some ch =>
          if (0 <=? ch)%Z && (ch <=? 15)%Z
          then active_midi_channels_loop (chans ++ [ch]) ls'
          else active_midi_channels_loop chans ls'
      end
  end.

Definition get_active_midi_channels (ls : list zynthian_layer) : option (list Z) :=
  active_midi_channels_loop [] ls.

(** The calls to the GUI made by the loading methods. *)
Inductive gui_call : Type :=
| Gui_start_loading
| Gui_stop_loading.

(** [start_loading], [stop_loading], [reset_loading] (lines 240-255). *)
Definition start_loading (e : engine_layers) : engine_layers * list gui_call :=
  let n := (loading e + 1)%Z in
  let n := if (n <? 1)%Z then 1%Z else n in
  (with_loading e n, if zyngui e then [Gui_start_loading] else []).

Definition stop_loading (e : engine_layers) : engine_layers * list gui_call :=
  let n := (loading e - 1)%Z in
  let n := if (n <? 0)%Z then 0%Z else n in
  (with_loading e n, if zyngui e then [Gui_stop_loading] else []).

Definition reset_loading (e : engine_layers) : engine_layers * list gui_call :=
  (with_loading e 0, if zyngui e then [Gui_stop_loading] else []).

Inductive loading_op : Type :=
| Start_loading
| Stop_loading
| Reset_loading.

Definition loading_step (e : engine_layers) (o : loading_op) : engine_layers :=
  match o with
  | Start_loading => (start_loading e).1
  | Stop_loading => (stop_loading e).1
  | Reset_loading => (reset_loading e).1
  end.

(** The number of [start_loading] calls in a sequence of calls. *)
Fixpoint count_starts (ops : list loading_op) : nat :=
  match ops with
  | [] => 0
  | Start_loading :: ops' => S (count_starts ops')
  | _ :: ops' => count_starts ops'
  end.

(** The items at positions 1, 3, 5, ... and at positions 0, 2, 4, ... *)
Fixpoint odd_items {A} (l : list A) : list A :=
  match l with
  | _ :: y :: l' => y :: odd_items l'
  | _ => []
  end.

Fixpoint even_items {A} (l : list A) : list A :=
  match l with
  | x :: _ :: l' => x :: even_items l'
  | [x] => [x]
  | [] => []
  end.

(** Sample layer store: four layers on channels 0, 1, 5 and 16. *)
Definition four_layers : engine_layers :=
  {| jackname := "synth";
     layers := [0; 1; 2; 3]%nat;
     layer_objs :=
       [ {| layer_midi_chan := Some 0%Z; layer_jackname := Some "synth"%string;
            refresh_flag := false |};
         {| layer_midi_chan := Some 1%Z; layer_jackname := Some "synth"%string;
            refresh_flag := false |};
         {| layer_midi_chan := Some 5%Z; layer_jackname := Some "synth"%string;
            refresh_flag := false |};
         {| layer_midi_chan := Some 16%Z; layer_jackname := Some "synth"%string;
            refresh_flag := false |} ];
     loading := 0; zyngui := true |}.

(** ** The controller: configuration, labels and nudging *)

(** A controller together with the attributes that [_configure] reads
    while they may still be [None].  [zctrl] holds the value, the flags,
    the ticks and the routing; its numeric bounds are written by
    [_configure].  Labels are kept by their [str()] form.  The
    dictionary [value2label] is written by [_configure] and read
    nowhere; it is left out. *)
Record selector : Type := {
  zctrl : zynthian_controller;
  labels : option (list string);
  value_min_attr : option Q;
  value_mid_attr : option Q;
  value_max_attr : option Q;
  value_default : option Q;
  nudge_factor : option Q;
  label2value : option (gmap string Q);
  range_reversed : bool
}.

Definition with_zctrl (s : selector) (c : zynthian_controller) : selector :=
  {| zctrl := c; labels := labels s; value_min_attr := value_min_attr s;
     value_mid_attr := value_mid_attr s; value_max_attr := value_max_attr s;
     value_default := value_default s; nudge_factor := nudge_factor s;
     label2value := label2value s; range_reversed := range_reversed s |}.

Definition with_scale (c : zynthian_controller) (vmin vmid vmax vrange : Q)
    (tks : list Q) : zynthian_controller :=
  {| engine := engine c; symbol := symbol c; group_symbol := group_symbol c;
     group_name := group_name c; value := value c; value_min := vmin;
     value_mid := vmid; value_max := vmax;
     value_range := vrange; ticks := tks; is_toggle := is_toggle c;
     is_integer := is_integer c; is_logarithmic := is_logarithmic c;
     is_dirty := is_dirty c; not_on_gui := not_on_gui c;
     midi_chan := midi_chan c; midi_cc := midi_cc c; osc_path := osc_path c;
     graph_path := graph_path c; midi_learn_chan := midi_learn_chan c;
     midi_learn_cc := midi_learn_cc c |}.

(** The ticks generated for [n] labels (lines 138-145). *)
Definition generated_ticks (n : nat) (vmin vrange : Q) (integer : bool) : list Q :=
  if decide (n = 1%nat) then [vmin]
  else if integer then
    (fun i : nat =>
       (vmin + inject_Z (Py.py_int (inject_Z (Z.of_nat i) * vrange
                                    / inject_Z (Z.of_nat n - 1))))%Q)
      <$> seq 0 n
  else
    (fun i : nat =>
       (vmin + inject_Z (Z.of_nat i) * vrange / inject_Z (Z.of_nat n - 1))%Q)
      <$> seq 0 n.

(** One turn of the loop of lines 160-162, and the loop. *)
Definition label2value_step (ls : list string) (tks : list Q)
    (acc : Py.result (gmap string Q)) (i : nat) : Py.result (gmap string Q) :=
  try! m := acc in
  match ls !! i, tks !! i with
  | Some l, Some t => Py.Return (<[l := t]> m)
  | _, _ => Py.Raise Py.IndexError
  end.

Definition build_label2value (ls : list string) (tks : list Q)
    : Py.result (gmap string Q) :=
  fold_left (label2value_step ls tks) (seq 0 (length ls)) (Py.Return ∅).

(** The selector part of [_configure] (lines 131-162): the ticks, the
    bounds as far as they are set, the reversal flag and the dictionary. *)
Definition configure_selector (s : selector)
    : Py.result (list Q * option Q * option Q * bool * option (gmap string Q)) :=
  let c := zctrl s in
  let ls := default [] (labels s) in
  if Py.truthy_list ls then
    let n := length ls in
    let '(tks, vmin, vmax) :=
      if Py.truthy_list (ticks c) then (ticks c, value_min_attr s, value_max_attr s)
      else
        let vmin := default 0%Q (value_min_attr s) in
        let vmax := default (inject_Z (Z.of_nat n - 1)) (value_max_attr s) in
        (generated_ticks n vmin (vmax - vmin)%Q (is_integer c), Some vmin, Some vmax) in
    match head tks, last tks with
    | Some t0, Some tl =>
        let '(vmin, vmax, rev) :=
          if Qlt_le_dec tl t0 then (Some tl, Some t0, true)
          else (Some (default t0 vmin), Some (default tl vmax), false) in
        try! l2v := build_label2value ls tks in
        Py.Return (tks, vmin, vmax, rev, Some l2v)
    | _, _ => Py.Raise Py.IndexError
    end
  else
    Py.Return (ticks c, value_min_attr s, value_max_attr s, range_reversed s,
               label2value s).

(** [get_label2value] (lines 418-426): [None] also when the look-up
    raises, the handler only logs. *)
Definition get_label2value (s : selector) (label : string) : option Q :=
  if Py.truthy_list (ticks (zctrl s)) then
    match label2value s with
    | Some m => m !! label
    | None => None
    end
  else None.

(** [get_value2label] (lines 408-415): a label, or the value itself when
    there are no ticks. *)
Definition get_value2label (s : selector) (val : option Q) : Py.result (Q + string) :=
  let val := default (value (zctrl s)) val in
  match get_value2index (ticks (zctrl s)) val with
  | Some i =>
      match labels s with
      | None => Py.Raise Py.TypeError
      | Some ls =>
          match ls !! i with
          | Some l => Py.Return (inr l)
          | None => Py.Raise Py.IndexError
          end
      end
  | None => Py.Return (inl val)
  end.

(** What the [value] attribute can hold: a number, a label, or [None]. *)
Inductive py_value : Type :=
| Num (q : Q)
| Str (l : string)
| NoneVal.

(** [_set_value] on any argument (lines 310-340).  A label goes through
    [get_label2value] and what that returns is stored as it is, [None]
    for an unknown label, with no clamp (lines 311-313).  A number takes
    the numeric branches.  [None] fails in the first ordering comparison
    or in [int()], whatever the flags. *)
Definition _set_value_any (s : selector) (v : py_value)
    : Py.result (selector * py_value) :=
  match v with
  | Str l =>
      match get_label2value s l with
      | Some t => Py.Return (with_zctrl s (with_value (zctrl s) t), Num t)
      | None => Py.Return (s, NoneVal)
      end
  | Num q =>
      let c := _set_value (zctrl s) q in
      Py.Return (with_zctrl s c, Num (value c))
  | NoneVal => Py.Raise Py.TypeError
  end.

(** [_configure] (lines 128-192), with the [value] attribute as the
    argument [v]: the controller afterwards and its [value] attribute.
    The [value] field of [zctrl] holds the attribute when it is a number. *)
Definition _configure_with_value (s : selector) (v : py_value)
    : Py.result (selector * py_value) :=
  let c := zctrl s in
  try! r := configure_selector s in
  let '(tks, vmin, vmax, rev, l2v) := r in
  let vmin := default 0%Q vmin in
  let vmax := default 127%Q vmax in
  let vrange := (vmax - vmin)%Q in
  let vmid :=
    match value_mid_attr s with
    | Some m => m
    | None =>
        if is_integer c then (vmin + inject_Z (Py.py_int (vrange / 2)))%Q
        else (vmin + vrange / 2)%Q
    end in
  try! r := _set_value_any
              {| zctrl := with_scale c vmin vmid vmax vrange tks; labels := labels s;
                 value_min_attr := Some vmin; value_mid_attr := Some vmid;
                 value_max_attr := Some vmax; value_default := value_default s;
                 nudge_factor := nudge_factor s; label2value := l2v;
                 range_reversed := rev |} v in
  let '(s1, v') := r in
  let vdef :=
    match value_default s, v' with
    | Some d, _ => Some d
    | None, Num q => Some q
    | None, _ => None
    end in
  let nf :=
    match nudge_factor s with
    | Some f => f
    | None =>
        if is_logarithmic c then (1 / 200)%Q
        else if negb (is_integer c) && negb (is_toggle c) then (vrange / 200)%Q
        else 1%Q
    end in
  Py.Return ({| zctrl := zctrl s1; labels := labels s; value_min_attr := Some vmin;
                value_mid_attr := Some vmid; value_max_attr := Some vmax;
                value_default := vdef; nudge_factor := Some nf;
                label2value := l2v; range_reversed := rev |}, v').

(** [_configure] on a controller whose [value] attribute is the number
    held in [zctrl]. *)
Definition _configure (s : selector) : Py.result selector :=
  try! r := _configure_with_value s (Num (value (zctrl s))) in
  Py.Return r.1.

Section Nudge.

Variable log10 : Q -> Q.
Variable pow10 : Q -> Q.
Variable send_raises : bool.

(** The index clamp of lines 298-299. *)
Definition nudge_index (i : nat) (val : Z) (len : nat) : Z :=
  let index := (Z.of_nat i + val)%Z in
  let index := if (index <? 0)%Z then 0%Z else index in
  if (Z.of_nat len <=? index)%Z then (Z.of_nat len - 1)%Z else index.

(** [nudge] (lines 293-307) by a whole number of steps: the controller
    afterwards, the external calls attempted and the returned flag. *)
Definition nudge (s : selector) (val : Z) (send : bool)
    : Py.result (selector * list event * bool) :=
  let c := zctrl s in
  match nudge_factor s with
  | None => Py.Return (s, [], false)
  | Some nf =>
      if Py.truthy_list (ticks c) then
        match get_value2index (ticks c) (value c) with
        | None => Py.Raise Py.TypeError
        | Some i =>
            match Py.index (ticks c) (nudge_index i val (length (ticks c))) with
            | None => Py.Raise Py.IndexError
            | Some k =>
                match ticks c !! k with
                | None => Py.Raise Py.IndexError
                | Some t =>
                    try! r := set_value log10 send_raises c t send in
                    Py.Return (with_zctrl s r.1.1, r.1.2, true)
                end
            end
        end
      else if is_logarithmic c && negb (Qeq_bool (value_range c) 0) then
        try! x := Py.truediv (9 * value c - (10 * value_min c - value_max c))
                    (value_range c) in
        try! l := math_log10 log10 x in
        let log_val := (l + inject_Z val * nf)%Q in
        let log_val := if Qlt_le_dec 0 log_val then log_val else 0%Q in
        let log_val := if Qlt_le_dec log_val 1 then log_val else 1%Q in
        try! r := set_value log10 send_raises c
                    ((pow10 log_val * value_range c
                      + (10 * value_min c - value_max c)) / 9) true in
        Py.Return (with_zctrl s r.1.1, r.1.2, true)
      else
        try! r := set_value log10 send_raises c (value c + inject_Z val * nf) send in
        Py.Return (with_zctrl s r.1.1, r.1.2, true)
  end.

End Nudge.

(** A selector before [_configure]: the given labels, no ticks, no
    bounds. *)
Definition fresh_selector (ls : list string) (integer : bool) : selector :=
  {| zctrl := plain_controller "sel" 0 0 0 0 false integer;
     labels := Some ls; value_min_attr := None; value_mid_attr := None;
     value_max_attr := None; value_default := Some 0%Q; nudge_factor := None;
     label2value := None; range_reversed := false |}.

(** A selector with explicit ticks. *)
Definition ticks_selector (ls : list string) (tks : list Q) : selector :=
  {| zctrl := with_scale (plain_controller "sel" 0 0 0 0 false true) 0 0 0 0 tks;
     labels := Some ls; value_min_attr := None; value_mid_attr := None;
     value_max_attr := None; value_default := Some 0%Q; nudge_factor := None;
     label2value := None; range_reversed := false |}.

(** What a call returned, if it returned. *)
Definition returned {A} (r : Py.result A) : option A :=
  match r with
  | Py.Return a => Some a
  | Py.Raise _ => None
  end.

(** A configured selector on the ticks 0, 1, 2, standing on the middle
    one. *)
Definition three_ticks : selector :=
  {| zctrl := with_scale (plain_controller "wave" 1 0 1 2 false true) 0 1 2 2 [0; 1; 2]%Q;
     labels := Some ["sine"; "saw"; "square"]%string;
     value_min_attr := Some 0%Q; value_mid_attr := Some 1%Q;
     value_max_attr := Some 2%Q; value_default := Some 0%Q;
     nudge_factor := Some 1%Q;
     label2value := Some {[ "sine"%string := 0%Q; "saw"%string := 1%Q;
                            "square"%string := 2%Q ]};
     range_reversed := false |}.

(** The attributes of a controller made by [__init__] without options
    (lines 35-75); [_configure] has not run, so the numeric bounds of
    [zctrl] are not yet meaningful. *)
Definition new_selector (has_engine : bool) (sym : string) : selector :=
  {| zctrl :=
       {| engine := has_engine; symbol := sym; group_symbol := None;
          group_name := None; value := 0; value_min := 0; value_mid := 0;
          value_max := 0; value_range := 0; ticks := []; is_toggle := false;
          is_integer := true; is_logarithmic := false; is_dirty := true;
          not_on_gui := false; midi_chan := None; midi_cc := None;
          osc_path := None; graph_path := None; midi_learn_chan := None;
          midi_learn_cc := None |};
     labels := None; value_min_attr := None; value_mid_attr := None;
     value_max_attr := None; value_default := Some 0%Q; nudge_factor := None;
     label2value := None; range_reversed := false |}.

(** The [maxval] argument of [setup_controller], by the type tests of
    lines 213-225: an int, a float, a string, a list of labels, a list
    of a label list and a tick list, or anything else. *)
Inductive maxval_arg : Type :=
| Max_int (n : Z)
| Max_float (q : Q)
| Max_str (labels : string)
| Max_labels (ls : list string)
| Max_labels_ticks (ls : list string) (tks : list Q)
| Max_other.

(** [s.split('|')]; 124 is the code of the bar. *)
Fixpoint split_bar (s : string) : list string :=
  match s with
  | EmptyString => [EmptyString]
  | String a s' =>
      if Ascii.eqb a (Ascii.ascii_of_nat 124) then EmptyString :: split_bar s'
      else match split_bar s' with
           | x :: r => String a x :: r
           | [] => [String a EmptyString]
           end
  end.

Definition with_setup (c : zynthian_controller) (val : py_value)
    (toggle integer : bool) (tks : list Q) : zynthian_controller :=
  {| engine := engine c; symbol := symbol c; group_symbol := group_symbol c;
     group_name := group_name c;
     value := match val with Num q => q | _ => value c end;
     value_min := value_min c;
     value_mid := value_mid c; value_max := value_max c;
     value_range := value_range c; ticks := tks; is_toggle := toggle;
     is_integer := integer; is_logarithmic := false;
     is_dirty := is_dirty c; not_on_gui := not_on_gui c;
     midi_chan := midi_chan c; midi_cc := midi_cc c; osc_path := osc_path c;
     graph_path := graph_path c; midi_learn_chan := midi_learn_chan c;
     midi_learn_cc := midi_learn_cc c |}.

(** The scale part of [setup_controller] (lines 207-233), after the
    routing has been stored: [val], a number or a label, becomes the
    value, the flags are reset, [maxval] gives the upper bound or the
    labels, two labels make a toggle, and [_configure] runs.  The result
    is the controller and its [value] attribute afterwards. *)
Definition setup_scale (s : selector) (val : py_value) (maxval : maxval_arg)
    : Py.result (selector * py_value) :=
  let c := zctrl s in
  try! r :=
    match maxval with
    | Max_int n => Py.Return (Some (inject_Z n), true, labels s, ticks c)
    | Max_float q => Py.Return (Some q, false, labels s, ticks c)
    | Max_str str => Py.Return (value_max_attr s, true, Some (split_bar str), ticks c)
    | Max_labels [] => Py.Raise Py.IndexError
    | Max_labels ls => Py.Return (value_max_attr s, true, Some ls, ticks c)
    | Max_labels_ticks ls tks => Py.Return (value_max_attr s, true, Some ls, tks)
    | Max_other => Py.Return (value_max_attr s, true, labels s, ticks c)
    end in
  let '(vmax, integer, lbls, tks) := r in
  let two := Py.truthy_list (default [] lbls)
             && bool_decide (length (default [] lbls) = 2%nat) in
  let vmax := if two && negb (Py.truthy_list tks) then Some 127%Q else vmax in
  _configure_with_value
    {| zctrl := with_setup c val two integer tks; labels := lbls;
       value_min_attr := value_min_attr s; value_mid_attr := value_mid_attr s;
       value_max_attr := vmax; value_default := value_default s;
       nudge_factor := nudge_factor s; label2value := label2value s;
       range_reversed := range_reversed s |} val.

(** Whether a string contains a bar. *)
Fixpoint has_bar (s : string) : bool :=
  match s with
  | EmptyString => false
  | String a s' => Ascii.eqb a (Ascii.ascii_of_nat 124) || has_bar s'
  end.

(** The two forms in which an engine names two labels: a list, or one
    string with a bar between them. *)
Definition names_two_labels (maxval : maxval_arg) (a b : string) : Prop :=
  maxval = Max_labels [a; b] \/
  (maxval = Max_str (a +:+ String (Ascii.ascii_of_nat 124) b)
   /\ has_bar a = false /\ has_bar b = false).

(** * Properties of the controller value model *)

Section PyInt.

Lemma py_int_whole (x : Q) (k : Z) : (x == inject_Z k)%Q -> Py.py_int x = k.
Proof.
  unfold Py.py_int, Qeq, inject_Z. simpl. intros H.
  rewrite Z.mul_1_r in H. rewrite H. apply Z.quot_mul. lia.
Qed.

Lemma py_int_nonneg (x : Q) :
  (0 <= x)%Q ->
  (inject_Z (Py.py_int x) <= x)%Q /\ (x < inject_Z (Py.py_int x) + 1)%Q.
Proof.
  intros H. assert (E : Py.py_int x = Qfloor x).
  { unfold Py.py_int, Qfloor. destruct x as [n d]. simpl.
    unfold Qle in H. simpl in H. apply Z.quot_div_nonneg; lia. }
  rewrite E. split; [apply Qfloor_le|].
  pose proof (Qlt_floor x) as L. rewrite inject_Z_plus in L. exact L.
Qed.

Lemma py_int_opp (x : Q) : Py.py_int (- x) = (- Py.py_int x)%Z.
Proof. unfold Py.py_int. destruct x as [n d]. simpl. apply Z.quot_opp_l. lia. Qed.

Lemma py_int_nonpos (x : Q) :
  (x <= 0)%Q ->
  (x <= inject_Z (Py.py_int x))%Q /\ (inject_Z (Py.py_int x) - 1 < x)%Q.
Proof.
  intros H. assert (H' : (0 <= - x)%Q) by lra.
  destruct (py_int_nonneg _ H') as [A B]. rewrite py_int_opp in A, B.
  rewrite inject_Z_opp in A, B. split; lra.
Qed.

End PyInt.

(** The three clamping branches, as one fact about [clamp]. *)
Lemma clamp_in_range (lo hi v : Q) : (lo <= hi)%Q -> in_range lo hi (clamp lo hi v).
Proof.
intros H. unfold clamp, in_range.
destruct (Qlt_le_dec hi v); [lra|]. destruct (Qlt_le_dec v lo); lra.
Qed.

(** Outside toggles, [_set_value] is [clamp] after the optional [int()]. *)
Lemma _set_value_not_toggle (c : zynthian_controller) (raw : Q) :
is_toggle c = false ->
value (_set_value c raw) =
  clamp (value_min c) (value_max c)
    (if Py.truthy_list (ticks c) then raw
     else if is_integer c then inject_Z (Py.py_int raw) else raw).
Proof.
intros H. unfold _set_value, clamp. rewrite H.
set (v := if Py.truthy_list (ticks c) then raw else _).
destruct (Qlt_le_dec (value_max c) v); [reflexivity|].
destruct (Qlt_le_dec v (value_min c)); reflexivity.
Qed.

Lemma _set_value_toggle_cases (c : zynthian_controller) (raw : Q) :
is_toggle c = true ->
((raw == value_min c \/ raw == value_max c)%Q /\
   value (_set_value c raw) =
     (if is_integer c then inject_Z (Py.py_int raw) else raw)) \/
(~ (raw == value_min c \/ raw == value_max c)%Q /\ (raw < value_mid c)%Q /\
   value (_set_value c raw) = value_min c) \/
(~ (raw == value_min c \/ raw == value_max c)%Q /\ (value_mid c <= raw)%Q /\
   value (_set_value c raw) = value_max c).
Proof.
intros H. unfold _set_value. rewrite H.
destruct (Qeq_bool raw (value_min c)) eqn:E1; simpl.
{ left. split; [left; by apply Qeq_bool_eq|]. by destruct (is_integer c). }
destruct (Qeq_bool raw (value_max c)) eqn:E2; simpl.
{ left. split; [right; by apply Qeq_bool_eq|]. by destruct (is_integer c). }
apply Qeq_bool_neq in E1, E2.
destruct (Qlt_le_dec raw (value_mid c)); [right; left | right; right];
  (split; [intros [?|?]; contradiction | split; [assumption | reflexivity]]).
Qed.

Lemma int_of_whole_bound (raw b : Q) :
is_whole b -> (raw == b)%Q -> (inject_Z (Py.py_int raw) == raw)%Q.
Proof.
intros [k Hk] E. rewrite (py_int_whole raw k); [|by rewrite E]. by rewrite E, Hk.
Qed.

(** C2 (as amended): with [value_min <= value_max], and whole-number
  bounds when the controller is an integer toggle, [_set_value] stores
  a value inside [[value_min, value_max]] for every numeric input; a
  toggle stores [value_min] or [value_max]: the input itself when it
  equals one of them, otherwise [value_min] below [value_mid] and
  [value_max] from [value_mid] on.  On the 0..127 integer controller,
  [set_value(200)] stores 127 and [set_value(-5)] stores 0. *)
Theorem set_value_clamps (c : zynthian_controller) (raw : Q) :
(value_min c <= value_max c)%Q ->
(is_toggle c = true -> is_integer c = true ->
   is_whole (value_min c) /\ is_whole (value_max c)) ->
let v := value (_set_value c raw) in
in_range (value_min c) (value_max c) v /\
(is_toggle c = true ->
   (v == value_min c \/ v == value_max c)%Q /\
   ((raw == value_min c \/ raw == value_max c)%Q -> (v == raw)%Q) /\
   (~ (raw == value_min c \/ raw == value_max c)%Q ->
      (raw < value_mid c)%Q -> (v == value_min c)%Q) /\
   (~ (raw == value_min c \/ raw == value_max c)%Q ->
      (value_mid c <= raw)%Q -> (v == value_max c)%Q)) /\
(forall (log10 : Q -> Q) (send_raises send : bool),
   stored_value (set_value log10 send_raises cc_controller 200 send) = Some 127%Q /\
   stored_value (set_value log10 send_raises cc_controller (-5) send) = Some 0%Q).
Proof.
intros Hle Hwhole v.
assert (Hkeep : is_toggle c = true ->
          (raw == value_min c \/ raw == value_max c)%Q ->
          ((if is_integer c then inject_Z (Py.py_int raw) else raw) == raw)%Q).
{ intros Ht Hraw. destruct (is_integer c) eqn:Hi; [|reflexivity].
  destruct (Hwhole Ht eq_refl) as [Wmin Wmax].
  destruct Hraw as [E|E];
    [apply (int_of_whole_bound raw (value_min c))
    |apply (int_of_whole_bound raw (value_max c))]; assumption. }
split; [|split].
- destruct (is_toggle c) eqn:Ht.
  + destruct (_set_value_toggle_cases c raw Ht) as [[Hraw E]|[[_ [_ E]]|[_ [_ E]]]];
      subst v; rewrite E; unfold in_range.
    * specialize (Hkeep eq_refl Hraw). rewrite Hkeep.
      destruct Hraw as [R|R]; rewrite R; lra.
    * lra.
    * lra.
  + subst v. rewrite (_set_value_not_toggle c raw Ht). by apply clamp_in_range.
- intros Ht.
  destruct (_set_value_toggle_cases c raw Ht) as [[Hraw E]|[[Hn [Hlt E]]|[Hn [Hge E]]]];
    subst v; rewrite E.
  + specialize (Hkeep Ht Hraw).
    split; [|split; [|split]]; try (intros; contradiction).
    * rewrite Hkeep. exact Hraw.
    * intros _. exact Hkeep.
  + split; [left; reflexivity|]. split; [intros; contradiction|].
    split; [reflexivity|]. intros _ Hge. lra.
  + split; [right; reflexivity|]. split; [intros; contradiction|].
    split; [|reflexivity]. intros _ Hlt. lra.
- intros log10 sr send. split; destruct sr, send; reflexivity.
Qed.

Lemma set_value_clamps_witness :
in_range 0 127 (value (_set_value cc_controller (300 # 7))).
Proof.
refine (proj1 (set_value_clamps cc_controller (300 # 7) _ _)).
- vm_compute. discriminate.
- simpl. discriminate.
Defined.

(** C2 (as stated) fails: an integer toggle with bounds 1/2 and 3/2 asked
  to store 1/2 keeps [int(1/2) = 0], which is neither bound and lies
  below [value_min]. *)
Lemma set_value_clamps_counterexample :
let c := half_toggle in
let v := value (_set_value c (1 # 2)) in
is_toggle c = true /\
(value_min c <= value_mid c <= value_max c)%Q /\
(v == 0)%Q /\
~ in_range (value_min c) (value_max c) v /\
~ (v == value_min c \/ v == value_max c)%Q.
Proof.
simpl. split; [reflexivity|]. split; [split; vm_compute; discriminate|].
split; [reflexivity|]. split.
- intros [H _]. vm_compute in H. by apply H.
- intros [H|H]; vm_compute in H; discriminate.
Qed.

(** C7 (as amended): on an integer scale that is neither a toggle nor
  discrete, [_set_value] truncates the input toward zero with [int()]
  and then clamps it into [[value_min, value_max]]: a non-negative
  input goes down to the whole number below it, a negative input goes
  up to the whole number above it. *)
Theorem set_value_integer_truncates (c : zynthian_controller) (raw : Q) :
is_integer c = true -> is_toggle c = false -> ticks c = [] ->
value (_set_value c raw) =
  clamp (value_min c) (value_max c) (inject_Z (Py.py_int raw)) /\
((0 <= raw)%Q ->
   (inject_Z (Py.py_int raw) <= raw)%Q /\ (raw < inject_Z (Py.py_int raw) + 1)%Q) /\
((raw <= 0)%Q ->
   (raw <= inject_Z (Py.py_int raw))%Q /\ (inject_Z (Py.py_int raw) - 1 < raw)%Q).
Proof.
intros Hi Ht Hk. split; [|split].
- rewrite (_set_value_not_toggle c raw Ht), Hk, Hi. reflexivity.
- apply py_int_nonneg.
- apply py_int_nonpos.
Qed.

Lemma set_value_integer_truncates_witness :
value (_set_value cc_controller (27 # 10)) = clamp 0 127 (inject_Z 2).
Proof.
exact (proj1 (set_value_integer_truncates cc_controller (27 # 10)
                eq_refl eq_refl eq_refl)).
Defined.

(** C7 (as stated) fails: on the 0..127 integer controller the input 2.7
  is stored as 2, while the nearest whole number is 3. *)
Lemma set_value_integer_rounds_counterexample :
let c := cc_controller in
is_integer c = true /\ is_toggle c = false /\ ticks c = [] /\
round_nearest (27 # 10) = 3%Z /\
(value (_set_value c (27 # 10)) == 2)%Q /\
~ (value (_set_value c (27 # 10)) ==
     clamp (value_min c) (value_max c) (inject_Z (round_nearest (27 # 10))))%Q.
Proof.
simpl. repeat (split; [reflexivity|]). intros H. vm_compute in H. discriminate.
Qed.

(** [_set_value] writes the [value] attribute and nothing else. *)
Lemma _set_value_frame (c : zynthian_controller) (raw : Q) :
_set_value c raw = with_value c (value (_set_value c raw)).
Proof.
unfold _set_value.
repeat match goal with
       | |- context [if ?b then _ else _] => destruct b
       end; reflexivity.
Qed.

Section MidiVal.

Variable log10 : Q -> Q.

(** Every exception of the [try] block is handled by [val = 0]. *)
Lemma get_ctrl_midi_val_returns (c : zynthian_controller) :
  exists v : Z, get_ctrl_midi_val log10 c = Py.Return v.
Proof.
  unfold get_ctrl_midi_val, Py.try_except.
  destruct (get_ctrl_midi_val_try log10 c); eauto.
Qed.

(** C9: [get_ctrl_midi_val] never raises; it returns 0 when
    [value_range == 0], and when the argument of the logarithm is not
    positive the [ValueError] of [math.log10] is caught and 0 is
    returned. *)
Theorem get_ctrl_midi_val_never_raises (c : zynthian_controller) :
  (exists v : Z, get_ctrl_midi_val log10 c = Py.Return v) /\
  ((value_range c == 0)%Q -> get_ctrl_midi_val log10 c = Py.Return 0%Z) /\
  (~ (value_range c == 0)%Q -> is_logarithmic c = true ->
     ((9 * value c - (10 * value_min c - value_max c)) / value_range c <= 0)%Q ->
     get_ctrl_midi_val_try log10 c = Py.Raise Py.ValueError /\
     get_ctrl_midi_val log10 c = Py.Return 0%Z).
Proof.
  split; [apply get_ctrl_midi_val_returns|]. split.
  - intros H. unfold get_ctrl_midi_val, get_ctrl_midi_val_try.
    rewrite (Qeq_eq_bool _ _ H). reflexivity.
  - intros Hr Hl Harg.
    assert (E : get_ctrl_midi_val_try log10 c = Py.Raise Py.ValueError).
    { unfold get_ctrl_midi_val_try, Py.truediv, math_log10.
      destruct (Qeq_bool (value_range c) 0) eqn:E0.
      { apply Qeq_bool_eq in E0. contradiction. }
      rewrite Hl. simpl.
      destruct (Qle_bool _ 0) eqn:E1; [reflexivity|].
      apply Qle_bool_iff in Harg. congruence. }
    split; [exact E|]. unfold get_ctrl_midi_val. rewrite E. reflexivity.
Qed.

(** C8: when the normalized input equals the stored value, [set_value]
    returns a falsy object, attempts no external call and leaves every
    attribute as it was ([value] is re-assigned an equal number,
    [is_dirty] is untouched); otherwise it stores the normalized value
    and sets [is_dirty]. *)
Theorem set_value_unchanged_is_silent (send_raises : bool)
    (c : zynthian_controller) (raw : Q) (send : bool) :
  ((value c == value (_set_value c raw))%Q ->
     exists c' ret,
       set_value log10 send_raises c raw send = Py.Return (c', [], ret) /\
       Py.truthy_ret ret = false /\
       c' = with_value c (value c') /\ (value c' == value c)%Q /\
       is_dirty c' = is_dirty c) /\
  (~ (value c == value (_set_value c raw))%Q ->
     exists c' evs ret,
       set_value log10 send_raises c raw send = Py.Return (c', evs, ret) /\
       value c' = value (_set_value c raw) /\ is_dirty c' = true).
Proof.
  split; intros H; unfold set_value.
  - rewrite (Qeq_eq_bool _ _ H). exists (_set_value c raw), None.
    split; [reflexivity|]. split; [reflexivity|].
    split; [apply _set_value_frame|]. split; [symmetry; exact H|].
    rewrite _set_value_frame. reflexivity.
  - destruct (Qeq_bool (value c) (value (_set_value c raw))) eqn:E.
    { apply Qeq_bool_eq in E. contradiction. }
    destruct (engine (_set_value c raw)); [|eauto 10].
    destruct (Py.truthy_int _ || Py.truthy_int _); simpl; [|eauto 10].
    destruct (get_ctrl_midi_val_returns (_set_value c raw)) as [v ->].
    simpl. eauto 10.
Qed.

End MidiVal.

Lemma set_value_unchanged_is_silent_witness :
exists c' ret,
  set_value (fun x => x) true cc_controller (-3) true = Py.Return (c', [], ret) /\
  Py.truthy_ret ret = false /\
  c' = with_value cc_controller (value c') /\ (value c' == value cc_controller)%Q /\
  is_dirty c' = is_dirty cc_controller.
Proof.
apply (proj1 (set_value_unchanged_is_silent (fun x => x) true cc_controller (-3) true)).
reflexivity.
Defined.

Lemma get_ctrl_midi_val_never_raises_witness :
get_ctrl_midi_val_try (fun x => x) log_controller = Py.Raise Py.ValueError /\
get_ctrl_midi_val (fun x => x) log_controller = Py.Return 0%Z.
Proof.
apply (proj2 (proj2 (get_ctrl_midi_val_never_raises (fun x => x) log_controller))).
- vm_compute. discriminate.
- reflexivity.
- vm_compute. discriminate.
Defined.

Lemma deliver_no_feedback (send_raises : bool) (c : zynthian_controller)
  (mval : option Z) :
existsb is_learn_feedback (deliver send_raises c mval) = false /\
existsb is_direct_feedback (deliver send_raises c mval) = false.
Proof.
unfold deliver. destruct send_raises; simpl; [|done].
destruct (Py.truthy_str (osc_path c)); simpl; [done|].
destruct (Py.truthy_int (midi_cc c)); done.
Qed.

Lemma feedback_targets (c : zynthian_controller) (mval : option Z) :
existsb is_learn_feedback (feedback c mval) = Py.truthy_int (midi_learn_cc c) /\
existsb is_direct_feedback (feedback c mval) =
  negb (Py.truthy_int (midi_learn_cc c)) && Py.truthy_int (midi_cc c).
Proof.
unfold feedback. destruct (Py.truthy_int (midi_learn_cc c)); simpl; [done|].
destruct (Py.truthy_int (midi_cc c)); done.
Qed.

Lemma truthy_int_spec (o : option Z) :
Py.truthy_int o = true <-> exists n : Z, o = Some n /\ n <> 0%Z.
Proof.
destruct o as [n|]; simpl.
- rewrite negb_true_iff, Z.eqb_neq. split; [eauto|]. by intros [m [[= ->] ?]].
- split; [done|]. by intros [m [? _]].
Qed.

(** C10: when a controller with an engine changes value, feedback goes to
  the learn target exactly when [midi_learn_cc] is truthy (set and not
  0), and to the direct [midi_cc] target exactly when [midi_learn_cc]
  is falsy and [midi_cc] is truthy; a controller learned on CC number 0
  gets no learn feedback. *)
Theorem set_value_feedback_truthiness (log10 : Q -> Q) (send_raises : bool)
  (c : zynthian_controller) (raw : Q) (send : bool) :
engine c = true ->
~ (value c == value (_set_value c raw))%Q ->
exists c' evs ret,
  set_value log10 send_raises c raw send = Py.Return (c', evs, ret) /\
  existsb is_learn_feedback evs = Py.truthy_int (midi_learn_cc c) /\
  existsb is_direct_feedback evs =
    negb (Py.truthy_int (midi_learn_cc c)) && Py.truthy_int (midi_cc c) /\
  (Py.truthy_int (midi_learn_cc c) = true <->
     exists n : Z, midi_learn_cc c = Some n /\ n <> 0%Z) /\
  (midi_learn_cc c = Some 0%Z -> existsb is_learn_feedback evs = false).
Proof.
intros He Hne. unfold set_value.
destruct (Qeq_bool (value c) (value (_set_value c raw))) eqn:E.
{ apply Qeq_bool_eq in E. contradiction. }
set (c1 := _set_value c raw).
assert (F1 : engine c1 = engine c) by (subst c1; by rewrite _set_value_frame).
assert (F2 : midi_learn_cc c1 = midi_learn_cc c)
  by (subst c1; by rewrite _set_value_frame).
assert (F3 : midi_cc c1 = midi_cc c) by (subst c1; by rewrite _set_value_frame).
rewrite F1, He.
assert (M : exists mval,
          (if Py.truthy_int (midi_learn_cc c1) || Py.truthy_int (midi_cc c1)
           then try! v := get_ctrl_midi_val log10 c1 in Py.Return (Some v)
           else Py.Return None) = Py.Return mval).
{ destruct (_ || _); [|eauto].
  destruct (get_ctrl_midi_val_returns log10 c1) as [v ->]. simpl. eauto. }
destruct M as [mval ->]. simpl.
eexists _, _, _. split; [reflexivity|].
rewrite !existsb_app.
destruct (feedback_targets c1 mval) as [L D]. rewrite L, D, F2, F3.
assert (P : existsb is_learn_feedback
              (if send then deliver send_raises c1 mval else []) = false /\
            existsb is_direct_feedback
              (if send then deliver send_raises c1 mval else []) = false).
{ destruct send; [apply deliver_no_feedback | done]. }
destruct P as [-> ->]. simpl.
split; [reflexivity|]. split; [reflexivity|].
split; [apply truthy_int_spec|]. intros ->. reflexivity.
Qed.

Lemma set_value_feedback_truthiness_witness :
exists c' evs ret,
  set_value (fun x => x) true learned_cc0_controller 20 true
    = Py.Return (c', evs, ret) /\
  existsb is_learn_feedback evs = false /\
  existsb is_direct_feedback evs = true /\
  (false = true <-> exists n : Z, Some 0%Z = Some n /\ n <> 0%Z) /\
  (Some 0%Z = Some 0%Z -> existsb is_learn_feedback evs = false).
Proof.
apply (set_value_feedback_truthiness (fun x => x) true learned_cc0_controller 20 true).
- reflexivity.
- vm_compute. discriminate.
Defined.

(** * The nearest-tick scan *)

Section Scan.

Variable R : Q -> Q -> Prop.
Variable val : Q.

(** Along an [R]-sorted list the distance to [val] never comes back
    down once it has stopped decreasing. *)
Hypothesis R_turn : forall t t' u : Q,
  R t t' -> R t' u ->
  (tick_distance val t <= tick_distance val t')%Q ->
  (tick_distance val t' <= tick_distance val u)%Q.

Lemma value2index_scan_nearest (rest : list Q) :
  forall (t : Q) (i index : nat),
    StronglySorted R (t :: rest) ->
    exists u : Q,
      let k := value2index_scan val rest i (Qabs (t - val)) index in
      ((k = index /\ u = t) \/ (exists j : nat, k = (i + j)%nat /\ rest !! j = Some u)) /\
      (tick_distance val u <= tick_distance val t)%Q /\
      (forall w : Q, w ∈ rest -> (tick_distance val u <= tick_distance val w)%Q).
Proof.
  induction rest as [|t' rest' IH]; intros t i index Hs.
  - exists t. cbn [value2index_scan]. split; [by left|]. split; [lra|].
    intros w Hw. by apply elem_of_nil in Hw.
  - apply StronglySorted_inv in Hs as [Hs' Hall].
    cbn [value2index_scan].
    destruct (Qlt_le_dec (Qabs (t' - val)) (Qabs (t - val))) as [Hlt|Hge].
    + destruct (IH t' (S i) i Hs') as (u & Hk & Hu & Hmin).
      cbv zeta in Hk. exists u. cbv zeta. split; [|split].
      * right. destruct Hk as [[Hk ->]|(j & Hk & Hj)]; rewrite Hk.
        -- exists 0%nat. split; [lia|done].
        -- exists (S j). split; [lia|done].
      * unfold tick_distance in *. lra.
      * intros w Hw. apply elem_of_cons in Hw as [->|Hw]; [exact Hu|by apply Hmin].
    + exists t. cbv zeta. split; [by left|]. split; [lra|].
      intros w Hw. apply elem_of_cons in Hw as [->|Hw]; [exact Hge|].
      apply StronglySorted_inv in Hs' as [_ Hall'].
      rewrite Forall_forall in Hall, Hall'.
      assert (R t t') by (apply Hall; left).
      assert (R t' w) by (by apply Hall').
      assert (tick_distance val t' <= tick_distance val w)%Q by eauto.
      unfold tick_distance in *. lra.
Qed.

End Scan.

Lemma ascending_turn (val t t' u : Q) :
(t < t')%Q -> (t' < u)%Q ->
(tick_distance val t <= tick_distance val t')%Q ->
(tick_distance val t' <= tick_distance val u)%Q.
Proof.
unfold tick_distance. intros H1 H2.
apply (Qabs_case (t - val)); apply (Qabs_case (t' - val));
  apply (Qabs_case (u - val)); intros; lra.
Qed.

Lemma descending_turn (val t t' u : Q) :
(t' < t)%Q -> (u < t')%Q ->
(tick_distance val t <= tick_distance val t')%Q ->
(tick_distance val t' <= tick_distance val u)%Q.
Proof.
unfold tick_distance. intros H1 H2.
apply (Qabs_case (t - val)); apply (Qabs_case (t' - val));
  apply (Qabs_case (u - val)); intros; lra.
Qed.

(** X28: on a non-empty tick list in strictly ascending or strictly
  descending order, [get_value2index] returns an index whose tick is
  at least as close to the target as every other tick. *)
Theorem get_value2index_nearest (tks : list Q) (val : Q) :
tks <> [] -> strictly_monotonic tks ->
exists (i : nat) (t : Q),
  get_value2index tks val = Some i /\ tks !! i = Some t /\
  forall (j : nat) (u : Q),
    tks !! j = Some u -> (tick_distance val t <= tick_distance val u)%Q.
Proof.
intros Hne Hmono. destruct tks as [|t0 rest]; [done|].
assert (Hscan : exists u : Q,
          let k := value2index_scan val rest 1 (Qabs (t0 - val)) 0 in
          ((k = 0%nat /\ u = t0) \/
           (exists j : nat, k = (1 + j)%nat /\ rest !! j = Some u)) /\
          (tick_distance val u <= tick_distance val t0)%Q /\
          (forall w : Q, w ∈ rest -> (tick_distance val u <= tick_distance val w)%Q)).
{ destruct Hmono as [Hs|Hs].
  - apply (value2index_scan_nearest Qlt val (ascending_turn val) rest t0 1 0 Hs).
  - apply (value2index_scan_nearest (fun a b => (b < a)%Q) val
             (descending_turn val) rest t0 1 0 Hs). }
destruct Hscan as (u & Hk & Hu & Hmin). cbv zeta in Hk.
exists (value2index_scan val rest 1 (Qabs (t0 - val)) 0), u.
split; [reflexivity|]. split.
- destruct Hk as [[Hk ->]|(j & Hk & Hj)]; rewrite Hk; done.
- intros [|j] w Hw; simpl in Hw.
  + by injection Hw as <-.
  + apply Hmin. by eapply list_elem_of_lookup_2.
Qed.

Lemma get_value2index_nearest_witness :
exists (i : nat) (t : Q),
  get_value2index [0; 64; 127]%Q 70 = Some i /\ [0; 64; 127]%Q !! i = Some t /\
  forall (j : nat) (u : Q),
    [0; 64; 127]%Q !! j = Some u -> (tick_distance 70 t <= tick_distance 70 u)%Q.
Proof.
apply (get_value2index_nearest [0; 64; 127]%Q 70).
- discriminate.
- left. repeat constructor.
Defined.

(** C4: the claim fails on the code on a monotonic list with a repeated
  tick.  On the ticks 0, 0, 1, which [_configure] generates for three
  labels on the integer range 0..1, and the target 1 the scan stops at
  the second 0, where the distance does not decrease, and returns
  index 0, at distance 1, although index 2 is at distance 0. *)
Lemma get_value2index_stops_at_repeated_tick :
let tks := [0; 0; 1]%Q in
generated_ticks 3 0 (1 - 0) true = tks /\
monotonic tks /\ tks <> [] /\
get_value2index tks 1 = Some 0%nat /\
tks !! 0%nat = Some 0%Q /\ tks !! 2%nat = Some 1%Q /\
(tick_distance 1 1 < tick_distance 1 0)%Q.
Proof.
cbv zeta. split; [vm_compute; reflexivity|]. split.
- left. repeat constructor; vm_compute; discriminate.
- repeat split; discriminate.
Qed.

(** * Controller screens *)

Section Odict.

Context {K V : Type} `{EqDecision K}.

Lemma odict_get_set (k k' : K) (v : V) (d : list (K * V)) :
  odict_get k' (odict_set k v d) =
    if decide (k = k') then Some v else odict_get k' d.
Proof.
  induction d as [|[k0 v0] d IH]; simpl.
  - repeat case_decide; congruence.
  - repeat (case_decide; simpl); try congruence.
Qed.

Lemma odict_get_None (k : K) (d : list (K * V)) :
  odict_get k d = None <-> k ∉ d.*1.
Proof.
  induction d as [|[k0 v0] d IH]; simpl.
  - split; [intros _; apply not_elem_of_nil | done].
  - rewrite not_elem_of_cons. case_decide; [|tauto].
    split; [done|]. intros [? _]. congruence.
Qed.

Lemma odict_set_fresh (k : K) (v : V) (d : list (K * V)) :
  k ∉ d.*1 -> odict_set k v d = d ++ [(k, v)].
Proof.
  induction d as [|[k0 v0] d IH]; simpl; [done|].
  rewrite not_elem_of_cons. intros [Hne Hni].
  case_decide; [congruence|]. by rewrite IH.
Qed.

Lemma odict_set_keys (k : K) (v : V) (d : list (K * V)) :
  k ∈ d.*1 -> (odict_set k v d).*1 = d.*1.
Proof.
  induction d as [|[k0 v0] d IH]; simpl.
  - intros H. by apply elem_of_nil in H.
  - intros H. case_decide; simpl; [done|].
    apply elem_of_cons in H as [?|H]; [congruence|]. f_equal. by apply IH.
Qed.

Lemma odict_set_NoDup (k : K) (v : V) (d : list (K * V)) :
  NoDup d.*1 -> NoDup (odict_set k v d).*1.
Proof.
  intros Hnd. destruct (decide (k ∈ d.*1)) as [Hin|Hni].
  - by rewrite odict_set_keys.
  - rewrite odict_set_fresh, fmap_app by done. simpl.
    apply NoDup_app. split; [done|]. split; [|apply NoDup_singleton].
    intros x Hx Hx'. apply list_elem_of_singleton in Hx'. by subst.
Qed.

Lemma odict_elem_of (k : K) (v : V) (d : list (K * V)) :
  NoDup d.*1 -> ((k, v) ∈ d <-> odict_get k d = Some v).
Proof.
  induction d as [|[k0 v0] d IH]; simpl; intros Hnd.
  - split; [intros H; by apply elem_of_nil in H | done].
  - apply NoDup_cons in Hnd as [Hni Hnd]. rewrite elem_of_cons.
    case_decide as Hk.
    + subst k0. split.
      * intros [[= ->]|Hin]; [done|].
        exfalso. apply Hni. apply list_elem_of_fmap. by exists (k, v).
      * intros [= ->]. by left.
    + rewrite <- (IH Hnd). split; [|tauto]. intros [[= ? ?]|?]; [congruence|done].
Qed.

End Odict.

(** ** Grouping *)

Lemma in_group_snoc (key : option string) (P : list (string * zynthian_controller))
  (sym : string) (z : zynthian_controller) :
in_group key (P ++ [(sym, z)]) =
  in_group key P ++ (if decide (group_symbol z = key) then [(sym, z)] else []).
Proof.
unfold in_group. rewrite filter_app. f_equal.
Qed.

Lemma in_group_keys (key : option string) (P : list (string * zynthian_controller))
  (sym : string) :
sym ∉ P.*1 -> sym ∉ (in_group key P).*1.
Proof.
intros Hni Hin. apply Hni.
apply list_elem_of_fmap in Hin as (it & -> & Hit).
apply list_elem_of_fmap. exists it. split; [done|].
unfold in_group in Hit. by apply list_elem_of_filter in Hit as [_ ?].
Qed.

Lemma group_add_groups_of (G : list (option string * gdata))
  (P : list (string * zynthian_controller)) (sym : string)
  (z : zynthian_controller) :
groups_of G P -> sym ∉ P.*1 ->
groups_of (group_add G (sym, z)) (P ++ [(sym, z)]).
Proof.
intros [Hnd Hget] Hfresh. unfold group_add.
set (G1 := match odict_get (group_symbol z) G with
           | Some _ => G
           | None => odict_set (group_symbol z) (new_group_name z, []) G
           end).
assert (H1 : NoDup G1.*1 /\
             (forall key, key <> group_symbol z -> odict_get key G1 = odict_get key G) /\
             exists gname, odict_get (group_symbol z) G1 =
                             Some (gname, in_group (group_symbol z) P)).
{ subst G1. pose proof (Hget (group_symbol z)) as Hk.
  destruct (odict_get (group_symbol z) G) as [[gname members]|] eqn:E.
  - simpl in Hk. subst members. split; [done|]. split; [done|]. eauto.
  - split; [by apply odict_set_NoDup|]. split.
    + intros key Hne. rewrite odict_get_set. by case_decide.
    + exists (new_group_name z). rewrite odict_get_set, Hk. by case_decide. }
destruct H1 as (Hnd1 & Hother & gname & Hmine). rewrite Hmine.
split; [by apply odict_set_NoDup|].
intros key. rewrite odict_get_set, in_group_snoc.
case_decide as Hk.
- subst key. destruct (decide (group_symbol z = group_symbol z)); [|done].
  cbn [snd]. by rewrite odict_set_fresh by by apply in_group_keys.
- rewrite (Hother key) by done. specialize (Hget key).
  destruct (decide (group_symbol z = key)); [congruence|].
  rewrite app_nil_r. exact Hget.
Qed.

Lemma fold_group_add_groups_of (d : list (string * zynthian_controller)) :
NoDup d.*1 -> groups_of (fold_left group_add d []) d.
Proof.
induction d as [|[sym z] d IH] using rev_ind; intros Hnd.
- split; [constructor|]. intros key. reflexivity.
- rewrite fmap_app in Hnd. apply NoDup_app in Hnd as (Hnd & Hfresh & _).
  rewrite fold_left_app. simpl. apply group_add_groups_of; [by apply IH|].
  intros Hin. apply (Hfresh sym Hin). simpl. left.
Qed.

Lemma zctrl_groups_groups_of (d : list (string * zynthian_controller)) :
NoDup d.*1 -> groups_of (zctrl_groups d) d.
Proof.
intros Hnd. destruct (fold_group_add_groups_of d Hnd) as [Hk Hget].
unfold zctrl_groups.
destruct (odict_get None (fold_left group_add d [])) as [[gname members]|] eqn:E;
  [|by split].
split; [by apply odict_set_NoDup|].
intros key. rewrite odict_get_set. case_decide as Hkey; [|apply Hget].
subst key. specialize (Hget None). rewrite E in Hget. exact Hget.
Qed.

(** ** Pages of one group *)

Lemma shown_symbols_cons (ignore : bool) (sym : string) (z : zynthian_controller)
  (members : list (string * zynthian_controller)) :
shown_symbols ignore ((sym, z) :: members) =
  if negb ignore && not_on_gui z then shown_symbols ignore members
  else sym :: shown_symbols ignore members.
Proof.
unfold shown_symbols. rewrite filter_cons. unfold shown. cbn [snd].
destruct (negb ignore && not_on_gui z); reflexivity.
Qed.

Lemma shown_symbols_ignore (members : list (string * zynthian_controller)) :
shown_symbols true members = members.*1.
Proof.
induction members as [|[sym z] members IH]; [done|].
rewrite shown_symbols_cons, IH. reflexivity.
Qed.

Lemma screen_fold (ignore : bool) (gname : string)
  (members : list (string * zynthian_controller)) :
forall (cs : list string) (c : nat),
  (length cs < 4)%nat ->
  exists (pages : list (string * list string)) (cs' : list string),
    (forall scr : list (string * list string),
       fold_left (screen_step ignore gname) members (cs, c, scr)
         = (cs', (c + length pages)%nat, scr ++ pages)) /\
    (length cs' < 4)%nat /\
    concat pages.*2 ++ cs' = cs ++ shown_symbols ignore members /\
    Forall (fun p => length p.2 = 4%nat) pages /\
    (forall (k : nat) (p : string * list string),
       pages !! k = Some p -> p.1 = get_ctrl_screen_name gname (c + k)).
Proof.
induction members as [|[sym z] members IH]; intros cs c Hcs.
- exists [], cs. simpl. rewrite !app_nil_r.
  split; [intros scr; by rewrite Nat.add_0_r, app_nil_r|].
  split; [done|]. split; [done|]. split; [constructor|].
  intros k p Hk. by rewrite lookup_nil in Hk.
- cbn [fold_left screen_step]. rewrite shown_symbols_cons.
  destruct (negb ignore && not_on_gui z).
  { by apply IH. }
  destruct (4 <=? length (cs ++ [sym]))%nat eqn:Hfull.
  + apply Nat.leb_le in Hfull.
    assert (Hlen : length (cs ++ [sym]) = 4%nat)
      by (rewrite length_app in *; simpl in *; lia).
    destruct (IH [] (S c)) as (pages & cs' & Hfold & Hcs' & Hcat & Hall & Hnames);
      [simpl; lia|].
    exists ((get_ctrl_screen_name gname c, cs ++ [sym]) :: pages), cs'.
    split; [|split; [done|split; [|split]]].
    * intros scr. rewrite Hfold. f_equal; [f_equal; simpl; lia|].
      by rewrite <- app_assoc.
    * rewrite fmap_cons, concat_cons. cbn [snd].
      rewrite <- (app_assoc (cs ++ [sym])), Hcat. by rewrite <- app_assoc.
    * by constructor.
    * intros [|k] p Hk; simpl in Hk.
      -- injection Hk as <-. simpl. by rewrite Nat.add_0_r.
      -- rewrite (Hnames k p Hk). f_equal. lia.
  + apply Nat.leb_gt in Hfull.
    destruct (IH (cs ++ [sym]) c Hfull)
      as (pages & cs' & Hfold & Hcs' & Hcat & Hall & Hnames).
    exists pages, cs'. split; [done|]. split; [done|].
    split; [|done]. by rewrite Hcat, <- app_assoc.
Qed.

Lemma length_concat_full (pages : list (string * list string)) :
Forall (fun p => length p.2 = 4%nat) pages ->
length (concat pages.*2) = (4 * length pages)%nat.
Proof.
induction 1 as [|p pages Hp _ IH]; [done|].
rewrite fmap_cons, concat_cons, length_app, IH, Hp. simpl. lia.
Qed.

Lemma shown_symbols_length (ignore : bool)
  (members : list (string * zynthian_controller)) :
(length (shown_symbols ignore members) <= length members)%nat.
Proof.
unfold shown_symbols. rewrite length_fmap. apply length_filter.
Qed.

(** What the loop body of lines 648-670 adds for one group. *)
Lemma group_screens_pages (ignore : bool) (gname : string)
  (members : list (string * zynthian_controller)) :
let pages := group_pages ignore (gname, members) in
(forall scr, group_screens ignore scr (gname, members) = scr ++ pages) /\
concat pages.*2 = shown_symbols ignore members /\
Forall (fun p => (1 <= length p.2 <= 4)%nat) pages /\
((length members <= 4)%nat -> (length pages <= 1)%nat) /\
(forall (k : nat) (p : string * list string),
   pages !! k = Some p ->
   p.1 = get_ctrl_screen_name gname
           ((if (length members <=? 4)%nat then 0 else 1) + k)).
Proof.
set (c0 := if (length members <=? 4)%nat then 0%nat else 1%nat).
destruct (screen_fold ignore gname members [] c0)
  as (full & cs' & Hfold & Hcs' & Hcat & Hall & Hnames); [simpl; lia|].
simpl in Hcat.
set (last_page := if (1 <=? length cs')%nat
                  then [(get_ctrl_screen_name gname (c0 + length full), cs')]
                  else []).
assert (Hscr : forall scr,
          group_screens ignore scr (gname, members) = scr ++ (full ++ last_page)).
{ intros scr. unfold group_screens. fold c0. rewrite Hfold. subst last_page.
  destruct (1 <=? length cs')%nat; [by rewrite app_assoc | by rewrite app_nil_r]. }
assert (Hpages : group_pages ignore (gname, members) = full ++ last_page).
{ unfold group_pages. by rewrite Hscr. }
cbv zeta. rewrite Hpages. split; [exact Hscr|].
assert (Hlast : concat last_page.*2 = cs').
{ subst last_page. destruct (1 <=? length cs')%nat eqn:E; simpl.
  - by rewrite app_nil_r.
  - apply Nat.leb_gt in E. by destruct cs'; simpl in *; [|lia]. }
split; [|split; [|split]].
- by rewrite fmap_app, concat_app, Hlast.
- apply Forall_app. split.
  + eapply Forall_impl; [exact Hall|]. simpl. intros p Hp. lia.
  + subst last_page. destruct (1 <=? length cs')%nat eqn:E; [|constructor].
    apply Nat.leb_le in E. constructor; [cbn [snd]; lia | constructor].
- intros Hsmall.
  pose proof (length_concat_full _ Hall) as Lf.
  pose proof (shown_symbols_length ignore members) as Ls.
  apply (f_equal length) in Hcat. rewrite length_app in Hcat.
  rewrite length_app. subst last_page.
  destruct (1 <=? length cs')%nat eqn:E; simpl;
    [apply Nat.leb_le in E | apply Nat.leb_gt in E]; lia.
- intros k p Hk. apply lookup_app_Some in Hk as [Hk|[Hge Hk]].
  + by apply Hnames.
  + subst last_page. destruct (1 <=? length cs')%nat; [|by rewrite lookup_nil in Hk].
    destruct (k - length full)%nat eqn:Ek; simpl in Hk; [|by rewrite lookup_nil in Hk].
    injection Hk as <-. simpl. f_equal. lia.
Qed.

(** ** The whole screen list *)

Lemma fold_group_screens (ignore : bool) (groups : list (option string * gdata)) :
forall scr : list (string * list string),
  fold_left (fun screens kg => group_screens ignore screens kg.2) groups scr
    = scr ++ concat ((fun kg => group_pages ignore kg.2) <$> groups).
Proof.
induction groups as [|[key [gname members]] groups IH]; intros scr.
- simpl. by rewrite app_nil_r.
- destruct (group_screens_pages ignore gname members) as [Hscr _].
  rewrite fmap_cons, concat_cons. cbn [fold_left snd].
  rewrite IH, Hscr. by rewrite <- app_assoc.
Qed.

Lemma generate_ctrl_screens_pages (e : zynthian_engine)
  (d : list (string * zynthian_controller)) :
_ctrl_screens (generate_ctrl_screens e d) =
  _ctrl_screens e ++
  concat ((fun kg => group_pages (ignore_not_on_gui e) kg.2) <$> zctrl_groups d).
Proof. unfold generate_ctrl_screens. simpl. apply fold_group_screens. Qed.

(** C3 (as amended): the screen list grows by the pages of each group in
  turn.  A group of at most four controllers gives at most one page,
  named exactly by the group name; in a group of more than four
  controllers the page at position [k] (from 0) is named
  [group_name#<k+1>], so its first page is [group_name#1]. *)
Theorem screen_names_by_group_size (e : zynthian_engine)
  (d : list (string * zynthian_controller)) :
let ignore := ignore_not_on_gui e in
_ctrl_screens (generate_ctrl_screens e d) =
  _ctrl_screens e ++ concat ((fun kg => group_pages ignore kg.2) <$> zctrl_groups d) /\
forall (gname : string) (members : list (string * zynthian_controller))
       (k : nat) (name : string) (syms : list string),
  group_pages ignore (gname, members) !! k = Some (name, syms) ->
  if (length members <=? 4)%nat then k = 0%nat /\ name = gname
  else name = (gname ++ "#" ++ Py.str_nat (S k))%string.
Proof.
split; [apply generate_ctrl_screens_pages|].
intros gname members k name syms Hk.
destruct (group_screens_pages (ignore_not_on_gui e) gname members)
  as (_ & _ & _ & Hsmall & Hnames).
specialize (Hnames k (name, syms) Hk). simpl in Hnames.
destruct (length members <=? 4)%nat eqn:E.
- apply Nat.leb_le in E. specialize (Hsmall E).
  apply lookup_lt_Some in Hk.
  assert (k = 0%nat) as -> by lia. by split.
- exact Hnames.
Qed.

Lemma screen_names_by_group_size_witness :
"G#2"%string = ("G" ++ "#" ++ Py.str_nat 2)%string.
Proof.
exact (proj2 (screen_names_by_group_size (fresh_engine [] false) five_in_G)
         "G"%string five_in_G 1%nat "G#2"%string ["g5"%string] eq_refl).
Defined.

(** C3 (as stated) fails: five controllers in one group G give the pages
  G#1 and G#2, so the first page of the group is not named G. *)
Lemma screen_names_counterexample :
_ctrl_screens (generate_ctrl_screens (fresh_engine [] false) five_in_G) =
  [("G#1", ["g1"; "g2"; "g3"; "g4"]); ("G#2", ["g5"])]%string /\
exists (gname : string) (members : list (string * zynthian_controller))
       (name : string) (syms : list string),
  zctrl_groups five_in_G = [(Some "G"%string, (gname, members))] /\
  gname = "G"%string /\
  group_pages false (gname, members) !! 0%nat = Some (name, syms) /\
  name <> gname.
Proof.
split; [reflexivity|].
exists "G"%string, five_in_G, "G#1"%string, ["g1"; "g2"; "g3"; "g4"]%string.
repeat split; discriminate.
Qed.

(** C6: for a dictionary (distinct symbols), the screen list grows by the
  pages of each group in turn, every controller belongs to one of the
  groups, every page holds between 1 and 4 symbols, and the pages of a
  group, concatenated, are the symbols of that group's controllers in
  input order without those filtered as [not_on_gui] (none is filtered
  when [ignore_not_on_gui] is set).  Three controllers in group A and
  seven in group B give three pages of sizes 3, 4 and 3. *)
Theorem screens_partition_groups (e : zynthian_engine)
  (d : list (string * zynthian_controller)) :
NoDup d.*1 ->
let ignore := ignore_not_on_gui e in
_ctrl_screens (generate_ctrl_screens e d) =
  _ctrl_screens e ++ concat ((fun kg => group_pages ignore kg.2) <$> zctrl_groups d) /\
NoDup (zctrl_groups d).*1 /\
(forall (sym : string) (z : zynthian_controller),
   (sym, z) ∈ d -> exists g : gdata, (group_symbol z, g) ∈ zctrl_groups d) /\
(forall (key : option string) (g : gdata),
   (key, g) ∈ zctrl_groups d ->
   Forall (fun p => (1 <= length p.2 <= 4)%nat) (group_pages ignore g) /\
   concat (group_pages ignore g).*2 = shown_symbols ignore (in_group key d) /\
   (ignore = true -> concat (group_pages ignore g).*2 = (in_group key d).*1)) /\
(length ∘ snd) <$>
  _ctrl_screens (generate_ctrl_screens (fresh_engine [] false) three_and_seven)
  = [3; 4; 3]%nat.
Proof.
intros Hnd ignore. destruct (zctrl_groups_groups_of d Hnd) as [Hkeys Hget].
split; [apply generate_ctrl_screens_pages|]. split; [exact Hkeys|].
split; [|split; [|reflexivity]].
- intros sym z Hin. specialize (Hget (group_symbol z)).
  destruct (odict_get (group_symbol z) (zctrl_groups d)) as [g|] eqn:E.
  + exists g. by apply odict_elem_of.
  + exfalso. assert (Hmem : (sym, z) ∈ in_group (group_symbol z) d).
    { unfold in_group. apply list_elem_of_filter. by split. }
    rewrite Hget in Hmem. by apply elem_of_nil in Hmem.
- intros key [gname members] Hin.
  apply odict_elem_of in Hin; [|done]. specialize (Hget key).
  rewrite Hin in Hget. simpl in Hget. subst members.
  destruct (group_screens_pages ignore gname (in_group key d))
    as (_ & Hcat & Hsize & _).
  split; [exact Hsize|]. split; [exact Hcat|].
  intros Hi. rewrite Hcat, Hi. apply shown_symbols_ignore.
Qed.

Lemma screens_partition_groups_witness :
  Forall (fun p => (1 <= length p.2 <= 4)%nat)
    (group_pages false ("B"%string, in_group (Some "B"%string) three_and_seven)) /\
  concat (group_pages false
            ("B"%string, in_group (Some "B"%string) three_and_seven)).*2
    = shown_symbols false (in_group (Some "B"%string) three_and_seven) /\
  (false = true ->
   concat (group_pages false
             ("B"%string, in_group (Some "B"%string) three_and_seven)).*2
     = (in_group (Some "B"%string) three_and_seven).*1).
Proof.
  refine (proj1 (proj2 (proj2 (proj2
            (screens_partition_groups (fresh_engine [] false) three_and_seven _))))
            (Some "B"%string)
            ("B"%string, in_group (Some "B"%string) three_and_seven) _).
  - apply (bool_decide_unpack _). vm_compute. reflexivity.
  - vm_compute. right. left.
Defined.

(** * The MIDI-learn table *)

(** ** Subscripts and cells *)

Lemma index_length {A B} (l : list A) (l' : list B) (i : Z) :
length l = length l' -> Py.index l i = Py.index l' i.
Proof. unfold Py.index. by intros ->. Qed.

Lemma index_lt {A} (l : list A) (i : Z) (n : nat) :
Py.index l i = Some n -> (n < length l)%nat.
Proof.
unfold Py.index. intros H.
destruct (0 <=? i)%Z eqn:E1, (i <? Z.of_nat (length l))%Z eqn:E2; simpl in H;
  try (injection H as <-; lia);
  destruct (- Z.of_nat (length l) <=? i)%Z eqn:E3, (i <? 0)%Z eqn:E4;
  simpl in H; try discriminate; injection H as <-; lia.
Qed.

Lemma index_nonneg {A} (l : list A) (i : Z) (n : nat) :
(0 <= i)%Z -> Py.index l i = Some n -> n = Z.to_nat i.
Proof.
unfold Py.index. intros Hi H.
destruct (0 <=? i)%Z eqn:E1; [|lia].
destruct (i <? Z.of_nat (length l))%Z; simpl in H; [by injection H|].
destruct (i <? 0)%Z eqn:E4; [lia|]. by rewrite andb_false_r in H.
Qed.

Lemma coords_lt (chan cc : Z) (i j : nat) :
coords chan cc = Some (i, j) -> (i < 16)%nat /\ (j < 128)%nat.
Proof.
unfold coords. intros H.
destruct (Py.index (replicate 16 ()) chan) as [i'|] eqn:E1; [|done].
destruct (Py.index (replicate 128 ()) cc) as [j'|] eqn:E2; [|done].
injection H as <- <-. apply index_lt in E1, E2.
rewrite length_replicate in E1, E2. done.
Qed.

Lemma coords_nonneg (chan cc : Z) (i j : nat) :
(0 <= chan)%Z -> (0 <= cc)%Z -> coords chan cc = Some (i, j) ->
i = Z.to_nat chan /\ j = Z.to_nat cc.
Proof.
unfold coords. intros H1 H2 H.
destruct (Py.index (replicate 16 ()) chan) as [i'|] eqn:E1; [|done].
destruct (Py.index (replicate 128 ()) cc) as [j'|] eqn:E2; [|done].
injection H as <- <-. split; by eapply index_nonneg.
Qed.

Section Grid.

Variable g : list (list (option nat)).
Hypothesis Hshape : grid_shape g.

Lemma row_length (i : nat) (row : list (option nat)) :
  g !! i = Some row -> length row = 128%nat.
Proof.
  intros H. destruct Hshape as [_ Hall].
  rewrite Forall_forall in Hall. apply Hall. by eapply list_elem_of_lookup_2.
Qed.

Lemma cell_in_range (i j : nat) :
  (i < 16)%nat -> (j < 128)%nat -> exists o, cell g i j = Some o.
Proof.
  intros Hi Hj. unfold cell. destruct Hshape as [Hlen _].
  destruct (lookup_lt_is_Some_2 g i) as [row Hrow]; [lia|]. rewrite Hrow.
  apply lookup_lt_is_Some_2. by rewrite (row_length i row).
Qed.

Lemma grid_get_coords (chan cc : Z) :
  grid_get g chan cc =
    match coords chan cc with
    | Some (i, j) => cell g i j
    | None => None
    end.
Proof.
  unfold grid_get, coords, cell. destruct Hshape as [Hlen _].
  rewrite (index_length g (replicate 16 ()) chan)
    by by rewrite length_replicate.
  destruct (Py.index (replicate 16 ()) chan) as [i|] eqn:Ei; [|done].
  destruct (g !! i) as [row|] eqn:Hrow.
  - rewrite (index_length row (replicate 128 ()) cc)
      by by rewrite length_replicate, (row_length i row).
    destruct (Py.index (replicate 128 ()) cc); [by rewrite Hrow|done].
  - apply index_lt in Ei. rewrite length_replicate in Ei.
    apply lookup_ge_None in Hrow. lia.
Qed.

Lemma grid_set_coords (chan cc : Z) (v : option nat) :
  grid_set g chan cc v =
    match coords chan cc with
    | Some (i, j) => Some (cell_set g i j v)
    | None => None
    end.
Proof.
  unfold grid_set, coords, cell_set. destruct Hshape as [Hlen _].
  rewrite (index_length g (replicate 16 ()) chan)
    by by rewrite length_replicate.
  destruct (Py.index (replicate 16 ()) chan) as [i|] eqn:Ei; [|done].
  destruct (g !! i) as [row|] eqn:Hrow.
  - rewrite (index_length row (replicate 128 ()) cc)
      by by rewrite length_replicate, (row_length i row).
    destruct (Py.index (replicate 128 ()) cc); [by rewrite Hrow|done].
  - apply index_lt in Ei. rewrite length_replicate in Ei.
    apply lookup_ge_None in Hrow. lia.
Qed.

Lemma cell_set_shape (i j : nat) (v : option nat) :
  grid_shape (cell_set g i j v).
Proof.
  unfold cell_set. destruct (g !! i) as [row|] eqn:Hrow; [|done].
  destruct Hshape as [Hlen Hall]. split; [by rewrite length_insert|].
  apply Forall_insert; [done|]. rewrite length_insert. by apply (row_length i).
Qed.

Lemma cell_set_eq (i j : nat) (v : option nat) :
  (i < 16)%nat -> (j < 128)%nat -> cell (cell_set g i j v) i j = Some v.
Proof.
  intros Hi Hj. unfold cell, cell_set. destruct Hshape as [Hlen _].
  destruct (lookup_lt_is_Some_2 g i) as [row Hrow]; [lia|]. rewrite Hrow.
  rewrite list_lookup_insert_eq by lia.
  apply list_lookup_insert_eq. by rewrite (row_length i row).
Qed.

Lemma cell_set_ne (i j i' j' : nat) (v : option nat) :
  (i, j) <> (i', j') -> cell (cell_set g i j v) i' j' = cell g i' j'.
Proof.
  intros Hne. unfold cell, cell_set.
  destruct (g !! i) as [row|] eqn:Hrow; [|done].
  destruct (decide (i = i')) as [<-|Hi].
  - rewrite list_lookup_insert_eq by by eapply lookup_lt_Some.
    rewrite Hrow. apply list_lookup_insert_ne. congruence.
  - by rewrite list_lookup_insert_ne.
Qed.

Lemma cell_set_cleared (i j : nat) :
  grid_cleared g (cell_set g i j None).
Proof.
  intros i' j'. destruct (decide ((i, j) = (i', j'))) as [[= <- <-]|Hne].
  - unfold cell, cell_set. destruct (g !! i) as [row|] eqn:Hrow.
    + rewrite list_lookup_insert_eq by by eapply lookup_lt_Some.
      destruct (decide (j < length row)%nat).
      * right. by apply list_lookup_insert_eq.
      * left. rewrite list_insert_ge by lia. done.
    + left. by rewrite Hrow.
  - left. by apply cell_set_ne.
Qed.

End Grid.

Lemma grid_cleared_refl (g : list (list (option nat))) : grid_cleared g g.
Proof. intros i j. by left. Qed.

Lemma grid_cleared_trans (g1 g2 g3 : list (list (option nat))) :
grid_cleared g1 g2 -> grid_cleared g2 g3 -> grid_cleared g1 g3.
Proof.
intros H12 H23 i j. destruct (H23 i j) as [E|E]; [|by right].
rewrite E. apply H12.
Qed.

Lemma same_static_refl (e : zynthian_engine) : same_static e e.
Proof. by split. Qed.

Lemma same_static_trans (e1 e2 e3 : zynthian_engine) :
same_static e1 e2 -> same_static e2 e3 -> same_static e1 e3.
Proof. intros [? ?] [? ?]. split; congruence. Qed.

Lemma same_static_lookup (e e' : zynthian_engine) (z : nat) (c : zynthian_controller) :
same_static e e' -> zctrls e !! z = Some c ->
exists c', zctrls e' !! z = Some c' /\ get_path c' = get_path c /\ engine c' = engine c.
Proof.
intros [Hp He] Hz.
apply (f_equal (fun l => l !! z)) in Hp, He.
rewrite !list_lookup_fmap, Hz in Hp. rewrite !list_lookup_fmap, Hz in He.
destruct (zctrls e' !! z) as [c'|]; [|done]. simpl in *.
exists c'. split; [done|]. split; congruence.
Qed.

Lemma paths_injective (e : zynthian_engine) (z z' : nat) (c c' : zynthian_controller) :
NoDup (get_path <$> zctrls e) ->
zctrls e !! z = Some c -> zctrls e !! z' = Some c' ->
get_path c = get_path c' -> z = z'.
Proof.
intros Hnd Hz Hz' Hp.
eapply NoDup_lookup; [exact Hnd| |].
- rewrite list_lookup_fmap, Hz. reflexivity.
- rewrite list_lookup_fmap, Hz'. simpl. by rewrite Hp.
Qed.

Lemma insert_same_static {A} (f : zynthian_controller -> A)
  (zs : list zynthian_controller) (z : nat) (c c' : zynthian_controller) :
zs !! z = Some c -> f c' = f c -> f <$> <[z := c']> zs = f <$> zs.
Proof.
intros Hz Hf. rewrite list_fmap_insert, Hf.
apply list_insert_id. by rewrite list_lookup_fmap, Hz.
Qed.

(** ** The invariant is kept by every call *)

Lemma no_binding_no_cell (e : zynthian_engine) (z : nat) (c : zynthian_controller) :
learn_inv e -> zctrls e !! z = Some c -> unlearned c ->
forall i j : nat, cell (learned_cc e) i j <> Some (Some z).
Proof.
intros Hinv Hz [Hu _] i j Hcell.
destruct (inv_cell e Hinv i j z Hcell) as (c' & chan & cc & Hz' & _ & _ & Hchan & _).
congruence.
Qed.

Lemma binding_cell (e : zynthian_engine) (z : nat) (c : zynthian_controller)
  (chan cc : Z) :
learn_inv e -> zctrls e !! z = Some c ->
midi_learn_chan c = Some chan -> midi_learn_cc c = Some cc ->
exists i j : nat,
  coords chan cc = Some (i, j) /\ cell (learned_cc e) i j = Some (Some z).
Proof.
intros Hinv Hz Hchan Hcc.
destruct (inv_ctrl e Hinv z c Hz) as [[Hu _]|(chan' & cc' & i & j & H1 & H2 & H3 & H4)];
  [congruence|].
exists i, j. split; [congruence|done].
Qed.

(** The state change of a successful unlearn. *)
Lemma unlearn_state_inv (e : zynthian_engine) (z : nat) (c : zynthian_controller)
  (chan cc : Z) (i j : nat) :
learn_inv e -> zctrls e !! z = Some c ->
midi_learn_chan c = Some chan -> midi_learn_cc c = Some cc ->
coords chan cc = Some (i, j) ->
learn_inv (with_learn e (<[z := _unset_midi_learn c]> (zctrls e))
             (cell_set (learned_cc e) i j None)
             (delete (get_path c) (learned_zctrls e))).
Proof.
intros Hinv Hz Hchan Hcc Hco.
destruct (binding_cell e z c chan cc Hinv Hz Hchan Hcc) as (i0 & j0 & Hco0 & Hcell).
assert (i0 = i /\ j0 = j) as [-> ->] by (split; congruence).
destruct (coords_lt _ _ _ _ Hco) as [Hi Hj].
pose proof (inv_shape e Hinv) as Hshape.
split; simpl.
- by apply cell_set_shape.
- rewrite (insert_same_static get_path _ z c); [apply (inv_paths e Hinv)|done|done].
- intros i' j' z' Hc'.
  destruct (decide ((i, j) = (i', j'))) as [[= <- <-]|Hne].
  { rewrite cell_set_eq in Hc' by done. discriminate. }
  rewrite cell_set_ne in Hc' by done.
  destruct (inv_cell e Hinv i' j' z' Hc')
    as (c' & chan' & cc' & Hz' & He' & Hd' & Hchan' & Hcc' & Hn1 & Hn2 & Hco').
  assert (Hzz : z <> z').
  { intros <-. apply Hne. congruence. }
  exists c', chan', cc'. rewrite list_lookup_insert_ne by done.
  split; [done|]. split; [done|]. split; [|done].
  rewrite lookup_delete_ne; [done|].
  intros Hp. apply Hzz. eapply paths_injective; eauto. apply (inv_paths e Hinv).
- intros z' c' Hz'. destruct (decide (z = z')) as [<-|Hzz].
  + rewrite list_lookup_insert_eq in Hz' by by eapply lookup_lt_Some.
    injection Hz' as <-. by left.
  + rewrite list_lookup_insert_ne in Hz' by done.
    destruct (inv_ctrl e Hinv z' c' Hz')
      as [Hu|(chan' & cc' & i' & j' & H1 & H2 & H3 & H4)]; [by left|].
    right. exists chan', cc', i', j'. split; [done|]. split; [done|].
    split; [done|]. rewrite cell_set_ne; [done|].
    intros [= <- <-]. congruence.
Qed.

Lemma midi_unlearn_inv (e : zynthian_engine) (z : nat) :
learn_inv e ->
let e' := (midi_unlearn e z).1 in
learn_inv e' /\ grid_cleared (learned_cc e) (learned_cc e') /\
same_static e e' /\
forall c' : zynthian_controller, zctrls e' !! z = Some c' -> unlearned c'.
Proof.
intros Hinv. unfold midi_unlearn.
destruct (zctrls e !! z) as [c|] eqn:Hz; simpl.
2: { split; [done|]. split; [apply grid_cleared_refl|].
     split; [apply same_static_refl|]. intros c'. by rewrite Hz. }
assert (Hsame : unlearned c ->
          learn_inv e /\ grid_cleared (learned_cc e) (learned_cc e) /\
          same_static e e /\
          forall c', zctrls e !! z = Some c' -> unlearned c').
{ intros Hu. split; [done|]. split; [apply grid_cleared_refl|].
  split; [apply same_static_refl|]. intros c' Hz'. congruence. }
destruct (learned_zctrls e !! get_path c) as [z0|] eqn:Hd; simpl.
2: { apply Hsame.
     destruct (inv_ctrl e Hinv z c Hz) as [Hu|(chan & cc & i & j & _ & _ & _ & Hcell)];
       [done|].
     destruct (inv_cell e Hinv i j z Hcell) as (c' & _ & _ & Hz' & _ & Hd' & _).
     congruence. }
destruct (midi_learn_chan c) as [chan|] eqn:Hchan.
2: { apply Hsame.
     destruct (inv_ctrl e Hinv z c Hz) as [Hu|(chan & cc & i & j & H1 & _)];
       [done|congruence]. }
destruct (midi_learn_cc c) as [cc|] eqn:Hcc.
2: { apply Hsame.
     destruct (inv_ctrl e Hinv z c Hz) as [Hu|(chan' & cc & i & j & _ & H2 & _)];
       [done|congruence]. }
rewrite (grid_set_coords _ (inv_shape e Hinv)).
destruct (binding_cell e z c chan cc Hinv Hz Hchan Hcc) as (i & j & Hco & Hcell).
rewrite Hco. simpl.
split; [by eapply unlearn_state_inv|]. split; [apply cell_set_cleared|].
split.
- split; simpl; by apply (insert_same_static _ _ z c).
- intros c'. rewrite list_lookup_insert_eq by by eapply lookup_lt_Some.
  intros [= <-]. by split.
Qed.

Lemma zctrl_midi_unlearn_inv (e : zynthian_engine) (z : nat) :
learn_inv e ->
let e' := (zctrl_midi_unlearn e z).1 in
learn_inv e' /\ grid_cleared (learned_cc e) (learned_cc e') /\
same_static e e' /\
forall i j : nat,
  cell (learned_cc e) i j = Some (Some z) -> cell (learned_cc e') i j = Some None.
Proof.
intros Hinv. unfold zctrl_midi_unlearn.
destruct (zctrls e !! z) as [c|] eqn:Hz; simpl.
2: { split; [done|]. split; [apply grid_cleared_refl|].
     split; [apply same_static_refl|]. intros i j Hcell.
     destruct (inv_cell e Hinv i j z Hcell) as (c' & _ & _ & Hz' & _). congruence. }
destruct (engine c && bool_decide (is_Some (midi_learn_chan c))
          && bool_decide (is_Some (midi_learn_cc c))) eqn:Hcond.
- destruct (midi_unlearn_inv e z Hinv) as (Hinv' & Hcl & Hst & Hun).
  destruct (midi_unlearn e z) as [e1 u]. simpl in *.
  assert (Hfst : (if Py.truthy_ret u then (e1, Some true) else (e1, Some false)).1 = e1)
    by by destruct (Py.truthy_ret u).
  rewrite Hfst. split; [done|]. split; [done|]. split; [done|].
  intros i j Hcell. destruct (Hcl i j) as [E|E]; [|done].
  rewrite Hcell in E.
  destruct (inv_cell e1 Hinv' i j z E) as (c1 & chan & cc & Hz1 & _ & _ & Hchan & _).
  destruct (Hun c1 Hz1) as [Hu _]. congruence.
- simpl. split; [done|]. split; [apply grid_cleared_refl|].
  split; [apply same_static_refl|]. intros i j Hcell.
  destruct (inv_cell e Hinv i j z Hcell)
    as (c' & chan & cc & Hz' & He & _ & Hchan & Hcc & _).
  assert (c' = c) as -> by congruence.
  rewrite He, Hchan, Hcc in Hcond. done.
Qed.

Lemma set_midi_learn_inv (e : zynthian_engine) (z : nat) (c : zynthian_controller)
  (chan cc : Z) :
learn_inv e -> zctrls e !! z = Some c -> engine c = true ->
(0 <= chan)%Z -> (0 <= cc)%Z ->
learn_inv (set_midi_learn e z chan cc).1.
Proof.
intros Hinv Hz He Hn1 Hn2. unfold set_midi_learn.
set (e1 := match grid_get (learned_cc e) chan cc with
           | Some (Some z') => (zctrl_midi_unlearn e z').1
           | _ => e
           end).
assert (H1 : learn_inv e1 /\ grid_cleared (learned_cc e) (learned_cc e1) /\
             same_static e e1 /\
             forall i j, coords chan cc = Some (i, j) ->
                         cell (learned_cc e1) i j = Some None).
{ subst e1. rewrite (grid_get_coords _ (inv_shape e Hinv)).
  destruct (coords chan cc) as [[i j]|] eqn:Hco.
  2: { split; [done|]. split; [apply grid_cleared_refl|].
       split; [apply same_static_refl|]. done. }
  destruct (coords_lt _ _ _ _ Hco) as [Hi Hj].
  destruct (cell_in_range _ (inv_shape e Hinv) i j Hi Hj) as [o Ho].
  rewrite Ho. destruct o as [z'|].
  - destruct (zctrl_midi_unlearn_inv e z' Hinv) as (? & ? & ? & Hclr).
    split; [done|]. split; [done|]. split; [done|].
    intros i0 j0 [= <- <-]. by apply Hclr.
  - split; [done|]. split; [apply grid_cleared_refl|].
    split; [apply same_static_refl|]. by intros i0 j0 [= <- <-]. }
destruct H1 as (Hinv1 & Hcl1 & Hst1 & Htarget1).
destruct (midi_unlearn_inv e1 z Hinv1) as (Hinv2 & Hcl2 & Hst2 & Hun2).
set (e2 := (midi_unlearn e1 z).1) in *.
destruct (same_static_lookup e e2 z c (same_static_trans _ _ _ Hst1 Hst2) Hz)
  as (c2 & Hz2 & Hp2 & He2).
rewrite Hz2. rewrite (grid_set_coords _ (inv_shape e2 Hinv2)).
pose proof (Hun2 c2 Hz2) as Hu2.
pose proof (no_binding_no_cell e2 z c2 Hinv2 Hz2 Hu2) as Hnocell.
pose proof (inv_shape e2 Hinv2) as Hshape2.
destruct (coords chan cc) as [[i j]|] eqn:Hco; simpl.
- destruct (coords_lt _ _ _ _ Hco) as [Hi Hj].
  assert (Htarget : cell (learned_cc e2) i j = Some None).
  { destruct (Hcl2 i j) as [E|E]; [|done]. rewrite E. by apply Htarget1. }
  split; simpl.
  + by apply cell_set_shape.
  + rewrite (insert_same_static get_path _ z c2);
      [apply (inv_paths e2 Hinv2)|done|done].
  + intros i' j' z' Hc'.
    destruct (decide ((i, j) = (i', j'))) as [[= <- <-]|Hne].
    * rewrite cell_set_eq in Hc' by done. injection Hc' as <-.
      exists (_set_midi_learn c2 chan cc), chan, cc.
      rewrite list_lookup_insert_eq by by eapply lookup_lt_Some.
      split; [done|]. split; [by rewrite <- He, <- He2|].
      split; [apply lookup_insert_eq|]. done.
    * rewrite cell_set_ne in Hc' by done.
      destruct (inv_cell e2 Hinv2 i' j' z' Hc')
        as (c' & chan' & cc' & Hz' & He' & Hd' & Hrest).
      assert (Hzz : z <> z') by (intros <-; by apply (Hnocell i' j')).
      exists c', chan', cc'. rewrite list_lookup_insert_ne by done.
      split; [done|]. split; [done|]. split; [|done].
      rewrite lookup_insert_ne; [done|].
      intros Hp. apply Hzz. eapply paths_injective; eauto.
      apply (inv_paths e2 Hinv2).
  + intros z' c' Hz'. destruct (decide (z = z')) as [<-|Hzz].
    * rewrite list_lookup_insert_eq in Hz' by by eapply lookup_lt_Some.
      injection Hz' as <-. right. exists chan, cc, i, j.
      split; [done|]. split; [done|]. split; [done|]. by apply cell_set_eq.
    * rewrite list_lookup_insert_ne in Hz' by done.
      destruct (inv_ctrl e2 Hinv2 z' c' Hz')
        as [Hu|(chan' & cc' & i' & j' & H1 & H2 & H3 & H4)]; [by left|].
      right. exists chan', cc', i', j'. split; [done|]. split; [done|].
      split; [done|]. rewrite cell_set_ne; [done|].
      intros [= <- <-]. congruence.
- split; simpl.
  + done.
  + apply (inv_paths e2 Hinv2).
  + intros i' j' z' Hc'.
    destruct (inv_cell e2 Hinv2 i' j' z' Hc')
      as (c' & chan' & cc' & Hz' & He' & Hd' & Hrest).
    exists c', chan', cc'. split; [done|]. split; [done|]. split; [|done].
    destruct (decide (get_path c2 = get_path c')) as [Hp|Hp].
    * assert (z = z') as <-
        by (eapply paths_injective; eauto; apply (inv_paths e2 Hinv2)).
      rewrite <- Hp. apply lookup_insert_eq.
    * by rewrite lookup_insert_ne.
  + apply (inv_ctrl e2 Hinv2).
Qed.

Lemma learn_step_inv (e : zynthian_engine) (o : learn_op) :
learn_inv e -> learn_op_nonneg o -> learn_inv (learn_step e o).
Proof.
intros Hinv Hn. destruct o as [z chan cc|z|z]; simpl.
- unfold zctrl_set_midi_learn. destruct (zctrls e !! z) as [c|] eqn:Hz; [|done].
  destruct (engine c) eqn:He; [|done].
  destruct Hn as [Hn1 Hn2]. by eapply set_midi_learn_inv.
- by destruct (zctrl_midi_unlearn_inv e z Hinv) as [? _].
- by destruct (midi_unlearn_inv e z Hinv) as [? _].
Qed.

Lemma learn_run_inv (ops : list learn_op) :
forall e : zynthian_engine,
  learn_inv e -> Forall learn_op_nonneg ops -> learn_inv (learn_run e ops).
Proof.
induction ops as [|o ops IH]; intros e Hinv Hall; [done|].
apply Forall_cons in Hall as [Ho Hall]. simpl.
apply IH; [by apply learn_step_inv|done].
Qed.

Lemma cell_empty (i j : nat) (o : option nat) :
cell empty_learned_cc i j = Some o -> o = None.
Proof.
unfold cell, empty_learned_cc. intros H.
destruct (replicate 16 (replicate 128 None) !! i) as [row|] eqn:Hrow; [|done].
apply lookup_replicate in Hrow as [-> _].
by apply lookup_replicate in H as [-> _].
Qed.

Lemma empty_table_inv (e : zynthian_engine) :
learned_cc e = empty_learned_cc ->
Forall unlearned (zctrls e) ->
NoDup (get_path <$> zctrls e) ->
learn_inv e.
Proof.
intros Hg Hun Hnd. split.
- rewrite Hg. split; [reflexivity|]. unfold empty_learned_cc.
  apply Forall_replicate. apply length_replicate.
- done.
- intros i j z Hcell. rewrite Hg in Hcell. by apply cell_empty in Hcell.
- intros z c Hz. left. rewrite Forall_forall in Hun. apply Hun.
  by eapply list_elem_of_lookup_2.
Qed.

Lemma lookup_cell (e : zynthian_engine) (chan cc : Z) (z : nat) :
learn_inv e ->
(lookup e chan cc = Some z <->
 exists i j : nat,
   coords chan cc = Some (i, j) /\ cell (learned_cc e) i j = Some (Some z)).
Proof.
intros Hinv. unfold lookup. rewrite (grid_get_coords _ (inv_shape e Hinv)).
destruct (coords chan cc) as [[i j]|].
- split.
  + intros H. exists i, j. split; [done|].
    destruct (cell (learned_cc e) i j) as [o|]; [by subst|done].
  + intros (i' & j' & [= <- <-] & ->). done.
- split; [done|]. by intros (i & j & ? & _).
Qed.

(** X27: start from an empty grid with no controller learned, let the
  controllers have pairwise distinct [get_path()], and run any
  sequence of [set_midi_learn] calls (with non-negative channel and CC
  numbers) and [midi_unlearn] calls.  Afterwards no two cells reference
  the same controller, and a controller's learn fields are [(chan,
  cc)] exactly when cell [(chan, cc)] references it.  After learning
  (1, 7) for A and then (1, 7) for B, the cell holds B and A has no
  binding. *)
Theorem learn_table_exclusive (e0 : zynthian_engine) (ops : list learn_op) :
learned_cc e0 = empty_learned_cc ->
Forall unlearned (zctrls e0) ->
NoDup (get_path <$> zctrls e0) ->
Forall learn_op_nonneg ops ->
let e := learn_run e0 ops in
(forall (chan cc chan' cc' : Z) (z : nat),
   (0 <= chan)%Z -> (0 <= cc)%Z -> (0 <= chan')%Z -> (0 <= cc')%Z ->
   lookup e chan cc = Some z -> lookup e chan' cc' = Some z ->
   chan = chan' /\ cc = cc') /\
(forall (z : nat) (chan cc : Z),
   (0 <= chan)%Z -> (0 <= cc)%Z ->
   (learn_binding e z = Some (chan, cc) <-> lookup e chan cc = Some z)) /\
(let e2 := learn_run two_path_engine [Learn 0 1 7; Learn 1 1 7] in
 lookup e2 1 7 = Some 1%nat /\ learn_binding e2 0 = None).
Proof.
intros Hg Hun Hnd Hops e.
assert (Hinv : learn_inv e).
{ apply learn_run_inv; [by apply empty_table_inv|done]. }
assert (Hcoord : forall chan cc chan' cc' i j,
          (0 <= chan)%Z -> (0 <= cc)%Z -> (0 <= chan')%Z -> (0 <= cc')%Z ->
          coords chan cc = Some (i, j) -> coords chan' cc' = Some (i, j) ->
          chan = chan' /\ cc = cc').
{ intros chan cc chan' cc' i j H1 H2 H3 H4 Hc Hc'.
  destruct (coords_nonneg _ _ _ _ H1 H2 Hc) as [Ei Ej].
  destruct (coords_nonneg _ _ _ _ H3 H4 Hc') as [Ei' Ej']. lia. }
split; [|split].
- intros chan cc chan' cc' z H1 H2 H3 H4 Hl Hl'.
  apply (lookup_cell e _ _ _ Hinv) in Hl as (i & j & Hco & Hcell).
  apply (lookup_cell e _ _ _ Hinv) in Hl' as (i' & j' & Hco' & Hcell').
  destruct (inv_cell e Hinv i j z Hcell)
    as (c & ch0 & cc0 & Hz & _ & _ & Hf1 & Hf2 & _ & _ & Hc0).
  destruct (inv_cell e Hinv i' j' z Hcell')
    as (c' & ch0' & cc0' & Hz' & _ & _ & Hf1' & Hf2' & _ & _ & Hc0').
  assert (Some (i, j) = Some (i', j')) as [= <- <-] by congruence.
  by eapply Hcoord.
- intros z chan cc H1 H2. rewrite (lookup_cell e _ _ _ Hinv).
  unfold learn_binding. split.
  + destruct (zctrls e !! z) as [c|] eqn:Hz; [|done].
    destruct (midi_learn_chan c) as [ch0|] eqn:Hf1; [|done].
    destruct (midi_learn_cc c) as [cc0|] eqn:Hf2; [|done].
    intros [= -> ->]. by eapply binding_cell.
  + intros (i & j & Hco & Hcell).
    destruct (inv_cell e Hinv i j z Hcell)
      as (c & ch0 & cc0 & Hz & _ & _ & Hf1 & Hf2 & Hn1 & Hn2 & Hc0).
    rewrite Hz, Hf1, Hf2.
    destruct (Hcoord ch0 cc0 chan cc i j Hn1 Hn2 H1 H2 Hc0 Hco) as [-> ->]. done.
- vm_compute. done.
Qed.

Lemma learn_table_exclusive_witness :
  learn_binding
    (learn_run two_path_engine [Learn 0 1 7; Learn 1 2 8; Unlearn 0; Learn 1 1 7]) 1
    = Some (1, 7)%Z <->
  lookup
    (learn_run two_path_engine [Learn 0 1 7; Learn 1 2 8; Unlearn 0; Learn 1 1 7]) 1 7
    = Some 1%nat.
Proof.
  refine (proj1 (proj2 (learn_table_exclusive two_path_engine
            [Learn 0 1 7; Learn 1 2 8; Unlearn 0; Learn 1 1 7] eq_refl _ _ _))
            1%nat 1%Z 7%Z _ _).
  - repeat constructor.
  - apply (bool_decide_unpack _). vm_compute. reflexivity.
  - repeat constructor; lia.
  - lia.
  - lia.
Defined.

(** C1: the claim fails on the code when two controllers share their
  [get_path()] (here both have no routing, so the path is [None]).
  From an empty table, learning (1, 7) for A, (2, 8) for B and then
  (1, 7) for B leaves the cells (1, 7) and (2, 8) both referencing B,
  whose learn fields are (1, 7): the unlearn that [set_midi_learn]
  runs first finds no entry under the shared path and leaves B's old
  cell.  The same calls on controllers with distinct paths free the
  cell (2, 8). *)
Lemma set_midi_learn_leaves_stale_cell :
let ops := [Learn 0 1 7; Learn 1 2 8; Learn 1 1 7] in
let e := learn_run same_path_engine ops in
learned_cc same_path_engine = empty_learned_cc /\
learned_zctrls same_path_engine = ∅ /\
Forall unlearned (zctrls same_path_engine) /\
lookup e 1 7 = Some 1%nat /\ lookup e 2 8 = Some 1%nat /\
learn_binding e 1 = Some (1, 7)%Z /\
lookup (learn_run two_path_engine ops) 1 7 = Some 1%nat /\
lookup (learn_run two_path_engine ops) 2 8 = None.
Proof.
split; [reflexivity|]. split; [reflexivity|]. split; [repeat constructor|].
vm_compute. done.
Qed.

(** * More on the MIDI-learn table *)

Lemma with_midi_learn_same (c : zynthian_controller) :
  with_midi_learn c (midi_learn_chan c) (midi_learn_cc c) = c.
Proof. by destruct c. Qed.

Lemma with_learn_same (e : zynthian_engine) :
  with_learn e (zctrls e) (learned_cc e) (learned_zctrls e) = e.
Proof. by destruct e. Qed.

Lemma coords_valid (chan cc : Z) :
  (0 <= chan < 16)%Z -> (0 <= cc < 128)%Z ->
  coords chan cc = Some (Z.to_nat chan, Z.to_nat cc).
Proof.
  intros H1 H2. unfold coords, Py.index. rewrite !length_replicate.
  assert ((0 <=? chan)%Z && (chan <? Z.of_nat 16)%Z = true) as ->
    by (apply andb_true_intro; split; [apply Z.leb_le|apply Z.ltb_lt]; lia).
  assert ((0 <=? cc)%Z && (cc <? Z.of_nat 128)%Z = true) as ->
    by (apply andb_true_intro; split; [apply Z.leb_le|apply Z.ltb_lt]; lia).
  reflexivity.
Qed.

Lemma cell_set_set (g : list (list (option nat))) (i j : nat) (v w : option nat) :
  cell_set (cell_set g i j v) i j w = cell_set g i j w.
Proof.
  unfold cell_set. destruct (g !! i) as [row|] eqn:Hrow; [|by rewrite Hrow].
  rewrite list_lookup_insert_eq by by eapply lookup_lt_Some.
  by rewrite list_insert_insert_eq, list_insert_insert_eq.
Qed.

Lemma cell_set_id (g : list (list (option nat))) (i j : nat) (v : option nat) :
  cell g i j = Some v -> cell_set g i j v = g.
Proof.
  unfold cell, cell_set. destruct (g !! i) as [row|] eqn:Hrow; [|done].
  intros Hj. rewrite (list_insert_id row j v Hj). by apply list_insert_id.
Qed.

(** What the two unlearn methods keep whatever the state is. *)
Lemma midi_unlearn_shape (e : zynthian_engine) (z : nat) :
  grid_shape (learned_cc e) ->
  grid_shape (learned_cc (midi_unlearn e z).1) /\
  same_static e (midi_unlearn e z).1 /\
  grid_cleared (learned_cc e) (learned_cc (midi_unlearn e z).1).
Proof.
  intros Hs. unfold midi_unlearn.
  destruct (zctrls e !! z) as [c|] eqn:Hz;
    [|split; [done|split; [apply same_static_refl|apply grid_cleared_refl]]].
  destruct (learned_zctrls e !! get_path c);
    [|split; [done|split; [apply same_static_refl|apply grid_cleared_refl]]].
  destruct (midi_learn_chan c) as [chan|];
    [|split; [done|split; [apply same_static_refl|apply grid_cleared_refl]]].
  destruct (midi_learn_cc c) as [cc|];
    [|split; [done|split; [apply same_static_refl|apply grid_cleared_refl]]].
  rewrite (grid_set_coords _ Hs).
  destruct (coords chan cc) as [[i j]|];
    [|split; [done|split; [apply same_static_refl|apply grid_cleared_refl]]].
  simpl. split; [by apply cell_set_shape|]. split; [|apply cell_set_cleared].
  split; simpl; by apply (insert_same_static _ _ z c).
Qed.

Lemma zctrl_midi_unlearn_shape (e : zynthian_engine) (z : nat) :
  grid_shape (learned_cc e) ->
  grid_shape (learned_cc (zctrl_midi_unlearn e z).1) /\
  same_static e (zctrl_midi_unlearn e z).1 /\
  grid_cleared (learned_cc e) (learned_cc (zctrl_midi_unlearn e z).1).
Proof.
  intros Hs. unfold zctrl_midi_unlearn.
  destruct (zctrls e !! z) as [c|] eqn:Hz;
    [|split; [done|split; [apply same_static_refl|apply grid_cleared_refl]]].
  destruct (engine c && bool_decide (is_Some (midi_learn_chan c))
            && bool_decide (is_Some (midi_learn_cc c)));
    [|split; [done|split; [apply same_static_refl|apply grid_cleared_refl]]].
  pose proof (midi_unlearn_shape e z Hs) as H.
  destruct (midi_unlearn e z) as [e1 u]. by destruct u as [[]|].
Qed.

(** X1: unlearning is idempotent, for the engine method and for the
    controller method: a second call in a row changes nothing. *)
Theorem midi_unlearn_idempotent (e : zynthian_engine) (z : nat) :
  (midi_unlearn (midi_unlearn e z).1 z).1 = (midi_unlearn e z).1 /\
  (zctrl_midi_unlearn (zctrl_midi_unlearn e z).1 z).1 = (zctrl_midi_unlearn e z).1.
Proof.
  assert (H1 : (midi_unlearn (midi_unlearn e z).1 z).1 = (midi_unlearn e z).1).
  { assert (Hfail : forall e0 c,
              zctrls e0 !! z = Some c ->
              (learned_zctrls e0 !! get_path c = None \/ midi_learn_chan c = None \/
               midi_learn_cc c = None \/
               exists chan cc, midi_learn_chan c = Some chan /\ midi_learn_cc c = Some cc /\
                               grid_set (learned_cc e0) chan cc None = None) ->
              (midi_unlearn e0 z).1 = e0).
    { intros e0 c Hz H. unfold midi_unlearn. rewrite Hz.
      destruct (learned_zctrls e0 !! get_path c); [|done].
      destruct (midi_learn_chan c) as [chan|] eqn:Hchan; [|done].
      destruct (midi_learn_cc c) as [cc|] eqn:Hcc; [|done].
      destruct H as [?|[?|[?|(chan' & cc' & [= <-] & [= <-] & ->)]]]; done. }
    unfold midi_unlearn at 2 3.
    destruct (zctrls e !! z) as [c|] eqn:Hz; simpl;
      [|unfold midi_unlearn; by rewrite Hz].
    destruct (learned_zctrls e !! get_path c) as [z0|] eqn:Hd; simpl;
      [|apply (Hfail e c Hz); by left].
    destruct (midi_learn_chan c) as [chan|] eqn:Hchan;
      [|apply (Hfail e c Hz); right; by left].
    destruct (midi_learn_cc c) as [cc|] eqn:Hcc;
      [|apply (Hfail e c Hz); right; right; by left].
    destruct (grid_set (learned_cc e) chan cc None) as [g|] eqn:Hg; simpl;
      [|apply (Hfail e c Hz); right; right; right; eauto].
    apply (Hfail _ (_unset_midi_learn c)).
    - simpl. apply list_lookup_insert_eq. by eapply lookup_lt_Some.
    - left. simpl. change (get_path (_unset_midi_learn c)) with (get_path c).
      apply lookup_delete_eq. }
  split; [exact H1|].
  unfold zctrl_midi_unlearn at 2 3.
  destruct (zctrls e !! z) as [c|] eqn:Hz; simpl;
    [|unfold zctrl_midi_unlearn; by rewrite Hz].
  destruct (engine c && bool_decide (is_Some (midi_learn_chan c))
            && bool_decide (is_Some (midi_learn_cc c))) eqn:Hcond; simpl;
    [|unfold zctrl_midi_unlearn; rewrite Hz; simpl; by rewrite Hcond].
  assert (Hfst : forall e0, (zctrl_midi_unlearn e0 z).1 = e0 \/
                            (zctrl_midi_unlearn e0 z).1 = (midi_unlearn e0 z).1).
  { intros e0. unfold zctrl_midi_unlearn.
    destruct (zctrls e0 !! z) as [c0|]; [|by left].
    destruct (engine c0 && bool_decide (is_Some (midi_learn_chan c0))
              && bool_decide (is_Some (midi_learn_cc c0))); [|by left].
    right.
    destruct (midi_unlearn e0 z) as [e1 u]. by destruct u as [[]|]. }
  assert (Hmine : (let '(e', unlearned) := midi_unlearn e z in
                   if Py.truthy_ret unlearned then (e', Some true)
                   else (e', Some false)).1 = (midi_unlearn e z).1).
  { destruct (midi_unlearn e z) as [e1 u]. by destruct u as [[]|]. }
  rewrite Hmine. destruct (Hfst (midi_unlearn e z).1) as [->| ->]; [done|exact H1].
Qed.

(** X2: learning then looking up.  On a 16 x 128 grid, for a controller
    with an engine and a channel and CC inside the grid,
    [zctrl.set_midi_learn(chan, cc)] returns [True]; afterwards the cell
    holds the controller and its learn fields are [(chan, cc)], whatever
    the table held before. *)
Theorem learn_then_lookup (e : zynthian_engine) (z : nat)
    (c : zynthian_controller) (chan cc : Z) :
  grid_shape (learned_cc e) ->
  zctrls e !! z = Some c -> engine c = true ->
  (0 <= chan < 16)%Z -> (0 <= cc < 128)%Z ->
  (zctrl_set_midi_learn e z chan cc).2 = Some true /\
  lookup (zctrl_set_midi_learn e z chan cc).1 chan cc = Some z /\
  learn_binding (zctrl_set_midi_learn e z chan cc).1 z = Some (chan, cc).
Proof.
  intros Hs Hz He Hchan Hcc. unfold zctrl_set_midi_learn. rewrite Hz, He.
  unfold set_midi_learn.
  set (e1 := match grid_get (learned_cc e) chan cc with
             | Some (Some z') => (zctrl_midi_unlearn e z').1
             | _ => e
             end).
  assert (H1 : grid_shape (learned_cc e1) /\ same_static e e1).
  { subst e1. destruct (grid_get (learned_cc e) chan cc) as [[z'|]|];
      [|split; [done|apply same_static_refl]..].
    destruct (zctrl_midi_unlearn_shape e z' Hs) as (? & ? & _). done. }
  destruct H1 as [Hs1 Hst1].
  destruct (midi_unlearn_shape e1 z Hs1) as (Hs2 & Hst2 & _).
  set (e2 := (midi_unlearn e1 z).1) in *.
  destruct (same_static_lookup e e2 z c (same_static_trans _ _ _ Hst1 Hst2) Hz)
    as (c2 & Hz2 & _ & _).
  rewrite Hz2, (grid_set_coords _ Hs2), (coords_valid chan cc Hchan Hcc). simpl.
  split; [done|].
  assert (Hi : (Z.to_nat chan < 16)%nat) by lia.
  assert (Hj : (Z.to_nat cc < 128)%nat) by lia.
  split.
  - unfold lookup. simpl.
    rewrite (grid_get_coords _ (cell_set_shape _ Hs2 _ _ _)),
            (coords_valid chan cc Hchan Hcc).
    by rewrite (cell_set_eq _ Hs2).
  - unfold learn_binding. simpl.
    by rewrite list_lookup_insert_eq by by eapply lookup_lt_Some.
Qed.

Lemma learn_then_lookup_witness :
  (zctrl_set_midi_learn two_path_engine 0 3 64).2 = Some true /\
  lookup (zctrl_set_midi_learn two_path_engine 0 3 64).1 3 64 = Some 0%nat /\
  learn_binding (zctrl_set_midi_learn two_path_engine 0 3 64).1 0 = Some (3, 64)%Z.
Proof.
  apply (learn_then_lookup two_path_engine 0
           (osc_controller "A" "/a") 3 64).
  - split; [reflexivity|]. apply Forall_replicate. apply length_replicate.
  - reflexivity.
  - reflexivity.
  - lia.
  - lia.
Defined.

(** X3: a learn call outside the grid fails but still unbinds.  In a
    consistent table, [engine.set_midi_learn] with a channel or CC that
    selects no cell returns [None], and the controller is left with no
    binding and no cell, even if it was learned before the call. *)
Theorem learn_outside_grid_unbinds (e : zynthian_engine) (z : nat)
    (c : zynthian_controller) (chan cc : Z) :
  learn_inv e -> zctrls e !! z = Some c -> coords chan cc = None ->
  (set_midi_learn e z chan cc).2 = None /\
  learn_binding (set_midi_learn e z chan cc).1 z = None /\
  forall ch' cc' : Z, lookup (set_midi_learn e z chan cc).1 ch' cc' <> Some z.
Proof.
  intros Hinv Hz Hco. unfold set_midi_learn.
  rewrite (grid_get_coords _ (inv_shape e Hinv)), Hco.
  destruct (midi_unlearn_inv e z Hinv) as (Hinv2 & _ & Hst2 & Hun2).
  set (e2 := (midi_unlearn e z).1) in *.
  destruct (same_static_lookup e e2 z c Hst2 Hz) as (c2 & Hz2 & _ & _).
  rewrite Hz2, (grid_set_coords _ (inv_shape e2 Hinv2)), Hco. simpl.
  split; [done|]. destruct (Hun2 c2 Hz2) as [Hu1 Hu2]. split.
  - unfold learn_binding. simpl. by rewrite Hz2, Hu1.
  - intros ch' cc' Hl. unfold lookup in Hl. simpl in Hl.
    rewrite (grid_get_coords _ (inv_shape e2 Hinv2)) in Hl.
    destruct (coords ch' cc') as [[i j]|]; [|done].
    destruct (cell (learned_cc e2) i j) as [o|] eqn:Hcell; [|done]. subst o.
    by apply (no_binding_no_cell e2 z c2 Hinv2 Hz2 (conj Hu1 Hu2) i j).
Qed.

Lemma learn_outside_grid_unbinds_witness :
  (set_midi_learn (zctrl_set_midi_learn two_path_engine 0 3 64).1 0 16 0).2 = None /\
  learn_binding
    (set_midi_learn (zctrl_set_midi_learn two_path_engine 0 3 64).1 0 16 0).1 0 = None.
Proof.
  assert (Hinv : learn_inv (zctrl_set_midi_learn two_path_engine 0 3 64).1).
  { apply (learn_step_inv two_path_engine (Learn 0 3 64)).
    - apply empty_table_inv; [reflexivity|repeat constructor|].
      apply (bool_decide_unpack _). vm_compute. reflexivity.
    - simpl. lia. }
  destruct (learn_outside_grid_unbinds
              (zctrl_set_midi_learn two_path_engine 0 3 64).1 0
              (_set_midi_learn (osc_controller "A" "/a") 3 64) 16 0 Hinv
              eq_refl eq_refl) as (H1 & H2 & _).
  exact (conj H1 H2).
Defined.

(** X4: learning again what is already learned changes nothing.  In a
    consistent table, [zctrl.set_midi_learn] with the controller's
    current channel and CC gives back the very same engine state. *)
Theorem relearn_same_binding (e : zynthian_engine) (z : nat)
    (c : zynthian_controller) (chan cc : Z) :
  learn_inv e -> zctrls e !! z = Some c -> engine c = true ->
  midi_learn_chan c = Some chan -> midi_learn_cc c = Some cc ->
  zctrl_set_midi_learn e z chan cc = (e, Some true).
Proof.
  intros Hinv Hz He Hchan Hcc.
  destruct (binding_cell e z c chan cc Hinv Hz Hchan Hcc) as (i & j & Hco & Hcell).
  destruct (inv_cell e Hinv i j z Hcell)
    as (c' & _ & _ & Hz' & _ & Hd & _).
  assert (c' = c) as -> by congruence.
  pose proof (inv_shape e Hinv) as Hs.
  destruct (coords_lt _ _ _ _ Hco) as [Hi Hj].
  assert (Hun : midi_unlearn e z =
            (with_learn e (<[z := _unset_midi_learn c]> (zctrls e))
               (cell_set (learned_cc e) i j None)
               (delete (get_path c) (learned_zctrls e)), Some true)).
  { unfold midi_unlearn. by rewrite Hz, Hd, Hchan, Hcc, (grid_set_coords _ Hs), Hco. }
  set (e1 := with_learn e (<[z := _unset_midi_learn c]> (zctrls e))
               (cell_set (learned_cc e) i j None)
               (delete (get_path c) (learned_zctrls e))) in *.
  assert (Hz1 : zctrls e1 !! z = Some (_unset_midi_learn c)).
  { subst e1. simpl. apply list_lookup_insert_eq. by eapply lookup_lt_Some. }
  assert (Hzun : (zctrl_midi_unlearn e z).1 = e1).
  { unfold zctrl_midi_unlearn. by rewrite Hz, He, Hchan, Hcc, Hun. }
  assert (Hun1 : (midi_unlearn e1 z).1 = e1).
  { unfold midi_unlearn. rewrite Hz1.
    change (get_path (_unset_midi_learn c)) with (get_path c).
    subst e1. simpl. by rewrite lookup_delete_eq. }
  assert (Hs1 : grid_shape (learned_cc e1)) by (subst e1; by apply cell_set_shape).
  unfold zctrl_set_midi_learn. rewrite Hz, He. unfold set_midi_learn.
  rewrite (grid_get_coords _ Hs), Hco, Hcell, Hzun, Hun1, Hz1.
  rewrite (grid_set_coords _ Hs1), Hco.
  f_equal. subst e1. simpl.
  rewrite cell_set_set, (cell_set_id _ _ _ _ Hcell).
  rewrite list_insert_insert_eq.
  change (get_path (_unset_midi_learn c)) with (get_path c).
  rewrite insert_delete_eq, (insert_id _ _ _ Hd).
  assert (Hc : _set_midi_learn (_unset_midi_learn c) chan cc = c).
  { unfold _set_midi_learn, _unset_midi_learn. destruct c. simpl in *. by subst. }
  rewrite Hc, (list_insert_id _ _ _ Hz). by destruct e.
Qed.

Lemma relearn_same_binding_witness :
  zctrl_set_midi_learn (zctrl_set_midi_learn two_path_engine 0 3 64).1 0 3 64
    = ((zctrl_set_midi_learn two_path_engine 0 3 64).1, Some true).
Proof.
  apply (relearn_same_binding _ 0 (_set_midi_learn (osc_controller "A" "/a") 3 64)).
  - apply (learn_step_inv two_path_engine (Learn 0 3 64)).
    + apply empty_table_inv; [reflexivity|repeat constructor|].
      apply (bool_decide_unpack _). vm_compute. reflexivity.
    + simpl. lia.
  - reflexivity.
  - reflexivity.
  - reflexivity.
  - reflexivity.
Defined.

(** X5: learning then unlearning is a round trip.  When the controller
    is not learned, its path is not registered and the target cell is
    free, [zctrl.set_midi_learn(chan, cc)] followed by
    [engine.midi_unlearn(zctrl)] gives back the very same engine state. *)
Theorem learn_unlearn_round_trip (e : zynthian_engine) (z : nat)
    (c : zynthian_controller) (chan cc : Z) :
  grid_shape (learned_cc e) ->
  zctrls e !! z = Some c -> engine c = true -> unlearned c ->
  learned_zctrls e !! get_path c = None ->
  (0 <= chan < 16)%Z -> (0 <= cc < 128)%Z ->
  lookup e chan cc = None ->
  midi_unlearn (zctrl_set_midi_learn e z chan cc).1 z = (e, Some true).
Proof.
  intros Hs Hz He [Hu1 Hu2] Hd Hchan Hcc Hfree.
  pose proof (coords_valid chan cc Hchan Hcc) as Hco.
  set (i := Z.to_nat chan) in *. set (j := Z.to_nat cc) in *.
  assert (Hi : (i < 16)%nat) by (subst i; lia).
  assert (Hj : (j < 128)%nat) by (subst j; lia).
  assert (Hcell : cell (learned_cc e) i j = Some None).
  { unfold lookup in Hfree. rewrite (grid_get_coords _ Hs), Hco in Hfree.
    destruct (cell_in_range _ Hs i j Hi Hj) as [o Ho]. rewrite Ho in Hfree.
    by subst o. }
  assert (Hun : (midi_unlearn e z).1 = e).
  { unfold midi_unlearn. by rewrite Hz, Hd. }
  assert (Hlearn : (zctrl_set_midi_learn e z chan cc).1 =
            with_learn e (<[z := _set_midi_learn c chan cc]> (zctrls e))
              (cell_set (learned_cc e) i j (Some z))
              (<[get_path c := z]> (learned_zctrls e))).
  { unfold zctrl_set_midi_learn. rewrite Hz, He. unfold set_midi_learn.
    rewrite (grid_get_coords _ Hs), Hco, Hcell, Hun, Hz.
    by rewrite (grid_set_coords _ Hs), Hco. }
  rewrite Hlearn. unfold midi_unlearn. simpl.
  rewrite list_lookup_insert_eq by by eapply lookup_lt_Some.
  change (get_path (_set_midi_learn c chan cc)) with (get_path c).
  rewrite lookup_insert_eq. simpl.
  rewrite (grid_set_coords _ (cell_set_shape _ Hs _ _ _)), Hco.
  f_equal.
  rewrite cell_set_set, (cell_set_id _ _ _ _ Hcell).
  rewrite list_insert_insert_eq, delete_insert_eq, (delete_id _ _ Hd).
  assert (Hc : _unset_midi_learn (_set_midi_learn c chan cc) = c).
  { unfold _set_midi_learn, _unset_midi_learn. destruct c. simpl in *. by subst. }
  rewrite Hc, (list_insert_id _ _ _ Hz). by destruct e.
Qed.

Lemma learn_unlearn_round_trip_witness :
  midi_unlearn (zctrl_set_midi_learn two_path_engine 1 9 10).1 1
    = (two_path_engine, Some true).
Proof.
  apply (learn_unlearn_round_trip two_path_engine 1 (osc_controller "B" "/b") 9 10).
  - split; [reflexivity|]. apply Forall_replicate. apply length_replicate.
  - reflexivity.
  - reflexivity.
  - split; reflexivity.
  - reflexivity.
  - lia.
  - lia.
  - reflexivity.
Defined.

(** X6: [keep_midi_learn] hands a binding over.  When the path of the
    new controller is registered for a controller learned on a cell of
    the grid, the call returns [True], the cell and the path now hold
    the new controller, the new controller has the old learn fields and
    every other cell is as before; the old controller keeps its learn
    fields.  When the path is not registered nothing changes. *)
Theorem keep_midi_learn_hands_over (e : zynthian_engine) (z old : nat)
    (c oc : zynthian_controller) (chan cc : Z) (i j : nat) :
  grid_shape (learned_cc e) ->
  zctrls e !! z = Some c ->
  (learned_zctrls e !! get_path c = None -> keep_midi_learn e z = (e, None)) /\
  (learned_zctrls e !! get_path c = Some old ->
   zctrls e !! old = Some oc ->
   midi_learn_chan oc = Some chan -> midi_learn_cc oc = Some cc ->
   coords chan cc = Some (i, j) ->
   (keep_midi_learn e z).2 = Some true /\
   lookup (keep_midi_learn e z).1 chan cc = Some z /\
   learn_binding (keep_midi_learn e z).1 z = Some (chan, cc) /\
   learned_zctrls (keep_midi_learn e z).1 !! get_path c = Some z /\
   (forall i' j' : nat, (i', j') <> (i, j) ->
      cell (learned_cc (keep_midi_learn e z).1) i' j' = cell (learned_cc e) i' j') /\
   (old <> z -> learn_binding (keep_midi_learn e z).1 old = Some (chan, cc))).
Proof.
  intros Hs Hz. split.
  - intros Hd. unfold keep_midi_learn. by rewrite Hz, Hd.
  - intros Hd Hold Hchan Hcc Hco.
    destruct (coords_lt _ _ _ _ Hco) as [Hi Hj].
    unfold keep_midi_learn.
    rewrite Hz, Hd, Hold, Hchan, Hcc, (grid_set_coords _ Hs), Hco. simpl.
    split; [done|]. split; [|split; [|split; [|split]]].
    + unfold lookup. simpl.
      rewrite (grid_get_coords _ (cell_set_shape _ Hs _ _ _)), Hco.
      by rewrite (cell_set_eq _ Hs).
    + unfold learn_binding. simpl.
      by rewrite list_lookup_insert_eq by by eapply lookup_lt_Some.
    + apply lookup_insert_eq.
    + intros i' j' Hne. apply cell_set_ne. congruence.
    + intros Hne. unfold learn_binding. simpl.
      rewrite list_lookup_insert_ne by done. by rewrite Hold, Hchan, Hcc.
Qed.

Lemma keep_midi_learn_hands_over_witness :
  (keep_midi_learn (zctrl_set_midi_learn same_path_engine 0 1 7).1 1).2 = Some true /\
  lookup (keep_midi_learn (zctrl_set_midi_learn same_path_engine 0 1 7).1 1).1 1 7
    = Some 1%nat.
Proof.
  assert (Hs : grid_shape (learned_cc (zctrl_set_midi_learn same_path_engine 0 1 7).1)).
  { unfold grid_shape. apply (bool_decide_unpack _). vm_compute. reflexivity. }
  destruct (proj2 (keep_midi_learn_hands_over
              (zctrl_set_midi_learn same_path_engine 0 1 7).1 1 0
              (plain_controller "B" 0 0 63 127 false true)
              (_set_midi_learn (plain_controller "A" 0 0 63 127 false true) 1 7)
              1 7 1 7 Hs eq_refl) eq_refl eq_refl eq_refl eq_refl eq_refl)
    as (H1 & H2 & _).
  exact (conj H1 H2).
Defined.

(** What [set_value] leaves behind, changed or not. *)
Lemma set_value_stores (log10 : Q -> Q) (send_raises : bool)
    (c : zynthian_controller) (v : Q) (send : bool) :
  exists (c' : zynthian_controller) (evs : list event),
    set_value log10 send_raises c v send = Py.Return (c', evs, None) /\
    value c' = value (_set_value c v) /\
    c' = with_is_dirty (with_value c (value c')) (is_dirty c').
Proof.
  assert (Hfr : forall d, with_is_dirty (_set_value c v) d =
                  with_is_dirty (with_value c (value (_set_value c v))) d)
    by (intros d; by rewrite <- _set_value_frame).
  unfold set_value.
  destruct (Qeq_bool (value c) (value (_set_value c v))).
  { eexists _, _. split; [reflexivity|]. split; [done|].
    rewrite <- Hfr. by destruct (_set_value c v). }
  destruct (engine (_set_value c v)).
  2: { eexists _, _. split; [reflexivity|]. split; [done|]. simpl. apply Hfr. }
  destruct (Py.truthy_int (midi_learn_cc (_set_value c v))
            || Py.truthy_int (midi_cc (_set_value c v))); simpl.
  - destruct (get_ctrl_midi_val_returns log10 (_set_value c v)) as [m ->]. simpl.
    eexists _, _. split; [reflexivity|]. split; [done|]. simpl. apply Hfr.
  - eexists _, _. split; [reflexivity|]. split; [done|]. simpl. apply Hfr.
Qed.

(** X7: inbound CC dispatch.  On a 16 x 128 grid,
    [engine.midi_control_change] raises [IndexError] when the channel or
    CC selects no cell, changes nothing and calls nothing on a free
    cell, and on a learned cell runs [midi_control_change] of the
    controller of that cell: this controller stores the normalised
    value and no other controller, cell or path entry changes. *)
Theorem midi_control_change_dispatch (log10 pow10 : Q -> Q) (send_raises : bool)
    (e : zynthian_engine) (chan ccnum : Z) (val : Q) :
  grid_shape (learned_cc e) ->
  (coords chan ccnum = None ->
   engine_midi_control_change log10 pow10 send_raises e chan ccnum val
     = Py.Raise Py.IndexError) /\
  (coords chan ccnum <> None -> lookup e chan ccnum = None ->
   engine_midi_control_change log10 pow10 send_raises e chan ccnum val
     = Py.Return (e, [])) /\
  (forall (z : nat) (c : zynthian_controller),
     lookup e chan ccnum = Some z -> zctrls e !! z = Some c ->
     exists (e' : zynthian_engine) (evs : list event),
       engine_midi_control_change log10 pow10 send_raises e chan ccnum val
         = Py.Return (e', evs) /\
       learned_cc e' = learned_cc e /\ learned_zctrls e' = learned_zctrls e /\
       (forall z', z' <> z -> zctrls e' !! z' = zctrls e !! z') /\
       exists c', zctrls e' !! z = Some c' /\
                  value c' = value (_set_value c (midi_control_change_value pow10 c val)) /\
                  c' = with_is_dirty (with_value c (value c')) (is_dirty c')).
Proof.
  intros Hs. unfold engine_midi_control_change, lookup.
  rewrite (grid_get_coords _ Hs).
  split; [by intros ->|]. split.
  - intros Hco Hl. destruct (coords chan ccnum) as [[i j]|] eqn:E; [|done].
    destruct (coords_lt _ _ _ _ E) as [Hi Hj].
    destruct (cell_in_range _ Hs i j Hi Hj) as [o Ho]. rewrite Ho in *. by subst o.
  - intros z c Hl Hz. destruct (coords chan ccnum) as [[i j]|]; [|done].
    destruct (cell (learned_cc e) i j) as [o|]; [|done]. subst o. rewrite Hz.
    unfold midi_control_change.
    destruct (set_value_stores log10 send_raises c
                (midi_control_change_value pow10 c val) true)
      as (c' & evs & -> & Hv & Hfr).
    simpl. eexists _, _. split; [reflexivity|]. simpl.
    split; [done|]. split; [done|]. split.
    + intros z' Hne. by rewrite list_lookup_insert_ne.
    + exists c'. split; [apply list_lookup_insert_eq; by eapply lookup_lt_Some|].
      by split.
Qed.

Lemma midi_control_change_dispatch_witness :
  engine_midi_control_change (fun x => x) (fun x => x) true two_path_engine 16 0 5
    = Py.Raise Py.IndexError.
Proof.
  refine (proj1 (midi_control_change_dispatch (fun x => x) (fun x => x) true
                   two_path_engine 16 0 5 _) eq_refl).
  unfold grid_shape. apply (bool_decide_unpack _). vm_compute. reflexivity.
Defined.

(** * Removing double spacing *)

Section DoubleSpacingFacts.

Variable blank : string -> bool.

Lemma insert_reverse_smallest (n : nat) (l : list nat) :
  Forall (fun m => (n < m)%nat) l -> insert_reverse n l = l ++ [n].
Proof.
  induction 1 as [|m l Hm _ IH]; simpl; [done|].
  destruct (m <=? n)%nat eqn:E; [apply Nat.leb_le in E; lia|]. by rewrite IH.
Qed.

Lemma sort_reverse_ascending (l : list nat) :
  StronglySorted lt l -> sort_reverse l = rev l.
Proof.
  induction 1 as [|n l _ IH Hn]; simpl; [done|].
  rewrite IH. apply insert_reverse_smallest. by apply Forall_rev.
Qed.

Lemma double_line_scan_bounds (lines rest : list string) (index : nat) :
  Forall (fun i => (index <= i)%nat) (double_line_scan blank lines index rest).
Proof.
  revert index. induction rest as [|line rest IH]; intros index; simpl; [constructor|].
  assert (H : Forall (fun i => (index <= i)%nat)
                (double_line_scan blank lines (S index) rest)).
  { eapply Forall_impl; [apply IH|]. simpl. intros. lia. }
  destruct (_ && _); [constructor|]; done.
Qed.

Lemma double_line_scan_sorted (lines rest : list string) (index : nat) :
  StronglySorted lt (double_line_scan blank lines index rest).
Proof.
  revert index. induction rest as [|line rest IH]; intros index; simpl; [constructor|].
  destruct (_ && _); [|apply IH]. constructor; [apply IH|].
  eapply Forall_impl; [apply (double_line_scan_bounds lines rest (S index))|].
  simpl. intros. lia.
Qed.

Lemma delete_middle {A} (pre : list A) (x : A) (post : list A) :
  delete (length pre) (pre ++ x :: post) = pre ++ post.
Proof. induction pre as [|y pre IH]; simpl; [done|]. by rewrite IH. Qed.

(** The deletions, taken from the last index to the first, realise
    [drop_double_blank]. *)
Lemma delete_scan (rest : list string) :
  forall pre : list string,
    foldr (fun i ls => delete i ls) (pre ++ rest)
      (double_line_scan blank (pre ++ rest) (length pre) rest)
    = pre ++ drop_double_blank blank
               (match last pre with Some p => blank p | None => false end) rest.
Proof.
  induction rest as [|line rest IH]; intros pre; [done|].
  cbn [double_line_scan drop_double_blank].
  assert (Hprev : (0 <? length pre)%nat &&
                  match (pre ++ line :: rest) !! (length pre - 1)%nat with
                  | Some prev => blank prev
                  | None => false
                  end
                  = match last pre with Some p => blank p | None => false end).
  { destruct pre as [|p pre _] using rev_ind; [done|].
    rewrite last_snoc, length_app. simpl.
    replace (length pre + 1 - 1)%nat with (length pre) by lia.
    rewrite <- app_assoc. simpl. rewrite list_lookup_middle by done.
    destruct (length pre + 1)%nat eqn:E; [lia|done]. }
  rewrite <- andb_assoc, Hprev.
  specialize (IH (pre ++ [line])).
  rewrite <- app_assoc, length_app, last_snoc in IH. simpl in IH.
  replace (length pre + 1)%nat with (S (length pre)) in IH by lia.
  destruct (blank line) eqn:Hb; simpl.
  - destruct (match last pre with Some p => blank p | None => false end); simpl.
    + rewrite IH, <- app_assoc. simpl. apply delete_middle.
    + by rewrite IH, <- app_assoc.
  - by rewrite IH, <- app_assoc.
Qed.

Lemma remove_double_spacing_drop (lines : list string) :
  remove_double_spacing blank lines = drop_double_blank blank false lines.
Proof.
  unfold remove_double_spacing.
  rewrite sort_reverse_ascending by apply double_line_scan_sorted.
  rewrite <- fold_left_rev_right, rev_involutive.
  apply (delete_scan lines []).
Qed.

Lemma drop_double_blank_adjacent (lines : list string) :
  forall (pb : bool) (k : nat) (a b : string),
    drop_double_blank blank pb lines !! k = Some a ->
    drop_double_blank blank pb lines !! S k = Some b ->
    blank a && blank b = false.
Proof.
  assert (Hhead : forall lines pb a,
            drop_double_blank blank pb lines !! 0%nat = Some a ->
            pb = true -> blank a = false).
  { induction lines0 as [|line rest IH]; intros pb a Ha Hpb; [done|].
    simpl in Ha. subst pb. rewrite andb_true_r in Ha.
    destruct (blank line) eqn:Hb; [by eapply IH|].
    simpl in Ha. by injection Ha as <-. }
  induction lines as [|line rest IH]; intros pb k a b Ha Hb; [done|].
  simpl in Ha, Hb. destruct (blank line && pb); [by eapply IH|].
  destruct k as [|k]; simpl in Ha, Hb; [|by eapply IH].
  injection Ha as <-. destruct (blank line) eqn:Hl; [|done]. simpl.
  by eapply Hhead.
Qed.

Lemma drop_double_blank_keeps (lines : list string) (pb : bool) :
  filter (fun l => blank l = false) (drop_double_blank blank pb lines)
  = filter (fun l => blank l = false) lines.
Proof.
  revert pb. induction lines as [|line rest IH]; intros pb; [done|]. simpl.
  destruct (blank line) eqn:Hb; simpl.
  - destruct pb; simpl.
    + rewrite IH, filter_cons. by rewrite decide_False by congruence.
    + rewrite !filter_cons, IH. by rewrite !decide_False by congruence.
  - rewrite !filter_cons, IH. by rewrite !decide_True by done.
Qed.

Lemma drop_double_blank_again (lines : list string) (pb : bool) :
  drop_double_blank blank pb (drop_double_blank blank pb lines)
  = drop_double_blank blank pb lines.
Proof.
  revert pb. induction lines as [|line rest IH]; intros pb; [done|]. simpl.
  destruct (blank line && pb) eqn:E.
  - apply andb_true_iff in E as [_ ->]. apply IH.
  - simpl. rewrite E. f_equal. apply IH.
Qed.

(** X8: after [remove_double_spacing] no blank line follows a blank
    line. *)
Theorem remove_double_spacing_no_double (lines : list string)
    (k : nat) (a b : string) :
  remove_double_spacing blank lines !! k = Some a ->
  remove_double_spacing blank lines !! S k = Some b ->
  blank a && blank b = false.
Proof. rewrite remove_double_spacing_drop. apply drop_double_blank_adjacent. Qed.

(** X9: [remove_double_spacing] keeps every line that is not blank, in
    order, keeps the first line, and removes only blank lines that come
    right after a blank line of the input. *)
Theorem remove_double_spacing_keeps_text (lines : list string) :
  filter (fun l => blank l = false) (remove_double_spacing blank lines)
    = filter (fun l => blank l = false) lines /\
  head (remove_double_spacing blank lines) = head lines /\
  remove_double_spacing blank lines = drop_double_blank blank false lines.
Proof.
  rewrite remove_double_spacing_drop. split; [apply drop_double_blank_keeps|].
  split; [|done]. destruct lines as [|line rest]; [done|]. simpl.
  by rewrite andb_false_r.
Qed.

(** X10: [remove_double_spacing] is idempotent. *)
Theorem remove_double_spacing_idempotent (lines : list string) :
  remove_double_spacing blank (remove_double_spacing blank lines)
    = remove_double_spacing blank lines.
Proof. rewrite !remove_double_spacing_drop. apply drop_double_blank_again. Qed.

End DoubleSpacingFacts.

Lemma remove_double_spacing_no_double_witness :
  empty_line "" && empty_line "b" = false.
Proof.
  exact (remove_double_spacing_no_double empty_line
           ["a"; ""; ""; ""; "b"; ""]%string 1 "" "b" eq_refl eq_refl).
Defined.

(** * Preset favourites *)

Section FavouritesFacts.

Context {V : Type}.
(** [my_data_dir] and the contents of the files under it. *)
Variable dir : string.
Variable disk : string -> option (gmap string V).

Lemma ensure_loaded_nickname (st : favs_state) :
  nickname st <> EmptyString ->
  exists d : gmap string V, preset_favs (ensure_loaded dir disk st) = Some d.
Proof.
  intros Hn. unfold ensure_loaded.
  destruct (preset_favs st) as [d|] eqn:E; [eauto|].
  unfold load_preset_favs. apply String.eqb_neq in Hn. rewrite Hn. simpl. eauto.
Qed.

Lemma ensure_loaded_again (st : favs_state) (d : gmap string V) :
  ensure_loaded dir disk (with_preset_favs st d) = with_preset_favs st d.
Proof. reflexivity. Qed.

Lemma ensure_loaded_idem (st : favs_state) :
  ensure_loaded dir disk (ensure_loaded dir disk st) = ensure_loaded dir disk st.
Proof.
  unfold ensure_loaded. destruct (preset_favs st) eqn:E.
  - by rewrite E.
  - unfold load_preset_favs. destruct (negb _) eqn:En; simpl.
    + reflexivity.
    + by rewrite E, En.
Qed.

(** X11: with a nickname, [toggle_preset_fav] returns the new status of
    the preset, which is the opposite of its status before;
    [is_preset_fav] afterwards gives that status, and the status of any
    other preset is as before. *)
Theorem toggle_preset_fav_flips (st : favs_state) (key : string) (v : V) :
  nickname st <> EmptyString ->
  exists (st' : favs_state) (b : bool) (dumped : list (gmap string V)),
    toggle_preset_fav dir disk st key v = Py.Return (st', b, dumped) /\
    fav_status (is_preset_fav dir disk st key) = Some (negb b) /\
    fav_status (is_preset_fav dir disk st' key) = Some b /\
    forall key' : string,
      key' <> key ->
      fav_status (is_preset_fav dir disk st' key')
        = fav_status (is_preset_fav dir disk st key').
Proof.
  intros Hn. destruct (ensure_loaded_nickname st Hn) as [d Hd].
  unfold toggle_preset_fav, is_preset_fav. rewrite Hd.
  destruct (d !! key) as [v0|] eqn:Hk.
  - eexists _, _, _. split; [reflexivity|].
    rewrite ensure_loaded_again. simpl. rewrite lookup_delete_eq.
    split; [done|]. split; [done|].
    intros key' Hne. by rewrite lookup_delete_ne.
  - eexists _, _, _. split; [reflexivity|].
    rewrite ensure_loaded_again. simpl. rewrite lookup_insert_eq.
    split; [done|]. split; [done|].
    intros key' Hne. by rewrite lookup_insert_ne.
Qed.

(** X12: with a nickname, toggling a preset twice gives every preset its
    former status; when the preset was not a favourite the dictionary is
    exactly as after loading. *)
Theorem toggle_preset_fav_twice (st : favs_state) (key : string) (v w : V) :
  nickname st <> EmptyString ->
  exists (st1 st2 : favs_state) (b : bool) (d1 d2 : list (gmap string V)),
    toggle_preset_fav dir disk st key v = Py.Return (st1, b, d1) /\
    toggle_preset_fav dir disk st1 key w = Py.Return (st2, negb b, d2) /\
    (forall key' : string,
       fav_status (is_preset_fav dir disk st2 key')
         = fav_status (is_preset_fav dir disk st key')) /\
    (b = true -> st2 = ensure_loaded dir disk st).
Proof.
  intros Hn. destruct (ensure_loaded_nickname st Hn) as [d Hd].
  unfold toggle_preset_fav at 1. rewrite Hd.
  destruct (d !! key) as [v0|] eqn:Hk.
  - eexists _, _, _, _, _. split; [reflexivity|].
    unfold toggle_preset_fav. rewrite ensure_loaded_again. simpl.
    rewrite lookup_delete_eq. split; [reflexivity|]. split; [|done].
    intros key'. unfold is_preset_fav. rewrite ensure_loaded_again, Hd. simpl.
    destruct (decide (key' = key)) as [->|Hne].
    + by rewrite lookup_insert_eq, Hk.
    + by rewrite lookup_insert_ne, lookup_delete_ne.
  - eexists _, _, _, _, _. split; [reflexivity|].
    unfold toggle_preset_fav. rewrite ensure_loaded_again. simpl.
    rewrite lookup_insert_eq. split; [reflexivity|]. split.
    + intros key'. unfold is_preset_fav. rewrite ensure_loaded_again, Hd. simpl.
      destruct (decide (key' = key)) as [->|Hne].
      * by rewrite lookup_delete_eq, Hk.
      * by rewrite lookup_delete_ne, lookup_insert_ne.
    + intros _. unfold with_preset_favs. simpl.
      rewrite delete_insert_eq, (delete_id _ _ Hk).
      destruct (ensure_loaded dir disk st). simpl in *. by subst.
Qed.

(** X13: without a nickname and with nothing loaded, [toggle_preset_fav]
    and [is_preset_fav] raise [TypeError], while [remove_preset_fav]
    returns, writes nothing and leaves the state as it was. *)
Theorem preset_favs_without_nickname (st : favs_state) (key : string) (v : V) :
  nickname st = EmptyString -> preset_favs st = None ->
  toggle_preset_fav dir disk st key v = Py.Raise Py.TypeError /\
  is_preset_fav dir disk st key = Py.Raise Py.TypeError /\
  remove_preset_fav dir disk st key = (st, []).
Proof.
  intros Hn Hd.
  assert (Hl : ensure_loaded dir disk st = st).
  { unfold ensure_loaded, load_preset_favs. by rewrite Hd, Hn. }
  unfold toggle_preset_fav, is_preset_fav, remove_preset_fav. by rewrite Hl, Hd.
Qed.

(** X14: with a nickname, after [remove_preset_fav] the preset is not a
    favourite, the other presets keep their status, and a second removal
    changes nothing and writes nothing. *)
Theorem remove_preset_fav_removes (st : favs_state) (key : string) :
  nickname st <> EmptyString ->
  fav_status (is_preset_fav dir disk (remove_preset_fav dir disk st key).1 key) = Some false /\
  (forall key' : string,
     key' <> key ->
     fav_status (is_preset_fav dir disk (remove_preset_fav dir disk st key).1 key')
       = fav_status (is_preset_fav dir disk st key')) /\
  remove_preset_fav dir disk (remove_preset_fav dir disk st key).1 key
    = ((remove_preset_fav dir disk st key).1, []).
Proof.
  intros Hn. destruct (ensure_loaded_nickname st Hn) as [d Hd].
  destruct (d !! key) as [v0|] eqn:Hk.
  - assert (Hr : remove_preset_fav dir disk st key
                 = (with_preset_favs (ensure_loaded dir disk st) (delete key d),
                    [delete key d])).
    { unfold remove_preset_fav. by rewrite Hd, Hk. }
    rewrite Hr. cbn [fst].
    unfold is_preset_fav, remove_preset_fav. rewrite ensure_loaded_again, Hd.
    cbn [with_preset_favs preset_favs fav_status].
    rewrite lookup_delete_eq. split; [|split].
    + reflexivity.
    + intros key' Hne. by rewrite lookup_delete_ne.
    + reflexivity.
  - assert (Hr : remove_preset_fav dir disk st key = (ensure_loaded dir disk st, [])).
    { unfold remove_preset_fav. by rewrite Hd, Hk. }
    rewrite Hr. cbn [fst].
    unfold is_preset_fav, remove_preset_fav. rewrite ensure_loaded_idem, Hd, Hk.
    cbn [fav_status]. split; [|done].
    reflexivity.
Qed.

End FavouritesFacts.

Lemma toggle_preset_fav_flips_witness :
  exists (st' : favs_state) (b : bool) (dumped : list (gmap string nat)),
    toggle_preset_fav "/data" (fun _ => None)
      {| nickname := "ZY/synth"; preset_favs := None; preset_favs_fpath := None |}
      "p1" 7%nat = Py.Return (st', b, dumped) /\
    b = true.
Proof.
  destruct (toggle_preset_fav_flips "/data" (fun _ : string => @None (gmap string nat))
              {| nickname := "ZY/synth"; preset_favs := None;
                 preset_favs_fpath := None |} "p1"%string 7%nat)
    as (st' & b & dumped & H1 & H2 & _); [discriminate|].
  exists st', b, dumped. split; [exact H1|].
  vm_compute in H2. destruct b; [reflexivity|discriminate].
Defined.

Lemma toggle_preset_fav_twice_witness :
  exists (st1 st2 : favs_state) (b : bool) (d1 d2 : list (gmap string nat)),
    toggle_preset_fav "/data" (fun _ => None)
      {| nickname := "ZY/synth"; preset_favs := None; preset_favs_fpath := None |}
      "p1" 7%nat = Py.Return (st1, b, d1) /\
    toggle_preset_fav "/data" (fun _ => None) st1 "p1" 8%nat
      = Py.Return (st2, negb b, d2).
Proof.
  destruct (toggle_preset_fav_twice "/data" (fun _ : string => @None (gmap string nat))
              {| nickname := "ZY/synth"; preset_favs := None;
                 preset_favs_fpath := None |} "p1"%string 7%nat 8%nat)
    as (st1 & st2 & b & d1 & d2 & H1 & H2 & _); [discriminate|].
  by exists st1, st2, b, d1, d2.
Defined.

Lemma preset_favs_without_nickname_witness :
  toggle_preset_fav "/data" (fun _ => None)
    {| nickname := ""; preset_favs := None; preset_favs_fpath := None |}
    "p1" 7%nat = Py.Raise Py.TypeError.
Proof.
  exact (proj1 (preset_favs_without_nickname "/data"
                  (fun _ : string => @None (gmap string nat))
                  {| nickname := ""; preset_favs := None; preset_favs_fpath := None |}
                  "p1"%string 7%nat eq_refl eq_refl)).
Defined.

Lemma remove_preset_fav_removes_witness :
  fav_status
    (is_preset_fav "/data" (fun _ => None)
       (remove_preset_fav "/data" (fun _ => None)
          {| nickname := "ZY"; preset_favs := Some {[ "p1"%string := 7%nat ]};
             preset_favs_fpath := None |} "p1").1 "p1") = Some false.
Proof.
  refine (proj1 (remove_preset_fav_removes "/data"
                   (fun _ : string => @None (gmap string nat))
                   {| nickname := "ZY"; preset_favs := Some {[ "p1"%string := 7%nat ]};
                      preset_favs_fpath := None |} "p1"%string _)).
  discriminate.
Defined.

(** * Layers *)

Lemma list_remove_middle (x : nat) (pre rest : list nat) :
  x ∉ pre -> list_remove x (pre ++ x :: rest) = Some (pre ++ rest).
Proof.
  induction pre as [|y pre IH]; intros Hx; simpl.
  - by rewrite decide_True.
  - apply not_elem_of_cons in Hx as [Hne Hx].
    rewrite decide_False by done. by rewrite IH.
Qed.

Lemma list_remove_absent (x : nat) (l : list nat) :
  x ∉ l -> list_remove x l = None.
Proof.
  induction l as [|y l IH]; intros Hx; simpl; [done|].
  apply not_elem_of_cons in Hx as [Hne Hx].
  rewrite decide_False by done. by rewrite IH.
Qed.

Lemma even_odd_items_length {A} (l : list A) :
  (length (even_items l) + length (odd_items l) = length l)%nat.
Proof.
  induction l as [l IH] using (induction_ltof1 _ (@length A)).
  destruct l as [|x [|y l']]; simpl; [done..|].
  specialize (IH l'). unfold ltof in IH. simpl in IH. lia.
Qed.

Lemma even_items_elem_of {A} (x : A) (l : list A) :
  x ∈ even_items l -> x ∈ l.
Proof.
  induction l as [l IH] using (induction_ltof1 _ (@length A)).
  destruct l as [|a [|b l']]; simpl; [done..|].
  intros [->|H]%elem_of_cons; [left|].
  do 2 right. apply IH; [unfold ltof; simpl; lia|done].
Qed.

Lemma odd_items_elem_of {A} (x : A) (l : list A) :
  x ∈ odd_items l -> x ∈ l.
Proof.
  induction l as [l IH] using (induction_ltof1 _ (@length A)).
  destruct l as [|a [|b l']]; simpl; [by intros ?%elem_of_nil..|].
  intros [->|H]%elem_of_cons; [right; left|].
  do 2 right. apply IH; [unfold ltof; simpl; lia|done].
Qed.

Lemma even_or_odd_items {A} (x : A) (l : list A) :
  x ∈ l -> x ∈ even_items l \/ x ∈ odd_items l.
Proof.
  induction l as [l IH] using (induction_ltof1 _ (@length A)).
  destruct l as [|a [|b l']]; simpl; [by intros ?%elem_of_nil|by left|].
  intros [->|[->|H]%elem_of_cons]%elem_of_cons.
  - left. left.
  - right. left.
  - destruct (IH l') as [H'|H']; [unfold ltof; simpl; lia|done| |].
    + left. by right.
    + right. by right.
Qed.

(** The loop of [del_all_layers] from position [length pre]: the layers
    before it stay, of the others every second one goes. *)
Lemma del_all_layers_loop_spec (rest : list nat) :
  forall (fuel : nat) (pre : list nat) (objs : list zynthian_layer) (e : engine_layers),
    (length rest <= fuel)%nat ->
    NoDup (pre ++ rest) ->
    exists objs' : list zynthian_layer,
      del_all_layers_loop fuel (length pre) (with_layers e (pre ++ rest) objs)
        = Py.Return (with_layers e (pre ++ odd_items rest) objs') /\
      (forall l : nat, l ∈ even_items rest ->
         layer_jackname <$> objs' !! l = (fun _ => None) <$> objs !! l) /\
      (forall l : nat, l ∉ even_items rest -> objs' !! l = objs !! l).
Proof.
  induction rest as [rest IH] using (induction_ltof1 _ (@length nat)).
  intros fuel pre objs e Hfuel Hnd.
  destruct rest as [|x rest'].
  - exists objs. cbn [odd_items]. rewrite !app_nil_r. split; [|split].
    + destruct fuel; cbn [del_all_layers_loop layers with_layers]; [done|].
      by rewrite lookup_ge_None_2 by lia.
    + by intros l ?%elem_of_nil.
    + done.
  - destruct fuel as [|fuel]; [simpl in Hfuel; lia|].
    assert (Hx : x ∉ pre).
    { apply NoDup_app in Hnd as (_ & Hdis & _). intros Hin.
      apply (Hdis x Hin). left. }
    assert (Hnd' : NoDup (pre ++ rest')).
    { apply NoDup_app in Hnd as (H1 & H2 & H3). apply NoDup_cons in H3 as [_ H3].
      apply NoDup_app. split; [done|]. split; [|done].
      intros y Hy Hy'. apply (H2 y Hy). by right. }
    cbn [del_all_layers_loop]. cbn [layers with_layers].
    rewrite lookup_app_r by lia. rewrite Nat.sub_diag.
    change ((x :: rest') !! 0%nat) with (Some x).
    unfold del_layer. cbn [layers with_layers layer_objs].
    rewrite (list_remove_middle x pre rest' Hx). cbn [Py.bind].
    set (objs1 := alter (fun o => with_jackname o None) x objs).
    destruct rest' as [|y rest''].
    + exists objs1. cbn [odd_items]. rewrite !app_nil_r. split; [|split].
      * change (with_layers (with_layers e (pre ++ [x]) objs) pre objs1)
          with (with_layers e pre objs1).
        destruct fuel; cbn [del_all_layers_loop layers with_layers]; [done|].
        by rewrite lookup_ge_None_2 by lia.
      * intros l Hl. cbn [even_items] in Hl. apply list_elem_of_singleton in Hl as ->.
        unfold objs1. rewrite list_lookup_alter_eq.
        by destruct (objs !! x).
      * intros l Hl. cbn [even_items] in Hl.
        unfold objs1. apply list_lookup_alter_ne.
        intros ->. apply Hl. left.
    + change (with_layers (with_layers e (pre ++ x :: y :: rest'') objs)
                (pre ++ y :: rest'') objs1)
        with (with_layers e (pre ++ y :: rest'') objs1).
      destruct (IH rest'') with (fuel := fuel) (pre := pre ++ [y]) (objs := objs1) (e := e)
        as (objs' & Hrun & Hgone & Hkept).
      { unfold ltof. simpl. lia. }
      { simpl in Hfuel. lia. }
      { by rewrite <- app_assoc. }
      rewrite <- !app_assoc in Hrun. cbn [app] in Hrun.
      rewrite length_app in Hrun. cbn [length] in Hrun.
      replace (length pre + 1)%nat with (S (length pre)) in Hrun by lia.
      exists objs'. split; [exact Hrun|]. split.
      * intros l Hl. cbn [even_items] in Hl.
        apply elem_of_cons in Hl as [->|Hl].
        -- rewrite Hkept.
           ++ unfold objs1. rewrite list_lookup_alter_eq. by destruct (objs !! x).
           ++ intros Hin. apply even_items_elem_of in Hin.
              apply NoDup_app in Hnd as (_ & _ & H3).
              apply NoDup_cons in H3 as [H3 _]. apply H3. by right.
        -- rewrite (Hgone l Hl). unfold objs1.
           destruct (decide (x = l)) as [->|Hne].
           ++ rewrite list_lookup_alter_eq. by destruct (objs !! l).
           ++ by rewrite list_lookup_alter_ne.
      * intros l Hl. cbn [even_items] in Hl.
        apply not_elem_of_cons in Hl as [Hne Hl].
        rewrite (Hkept l Hl). unfold objs1. by apply list_lookup_alter_ne.
Qed.

(** X15: on a list of distinct layers [del_all_layers] returns without
    an exception, but removes only the layers at positions 0, 2, 4, ...:
    those at positions 1, 3, 5, ... are still in [layers], in their
    order, and only the removed ones lose their jack name. *)
Theorem del_all_layers_leaves_every_other (e : engine_layers) :
  NoDup (layers e) ->
  exists e' : engine_layers,
    del_all_layers e = Py.Return e' /\
    layers e' = odd_items (layers e) /\
    (forall l : nat, l ∈ even_items (layers e) ->
       layer_jackname <$> layer_objs e' !! l = (fun _ => None) <$> layer_objs e !! l) /\
    (forall l : nat, l ∉ even_items (layers e) ->
       layer_objs e' !! l = layer_objs e !! l).
Proof.
  intros Hnd.
  destruct (del_all_layers_loop_spec (layers e) (length (layers e)) [] (layer_objs e) e)
    as (objs' & Hrun & Hgone & Hkept); [done|done|].
  exists (with_layers e (odd_items (layers e)) objs').
  split; [|done].
  unfold del_all_layers. cbn [app length] in Hrun. rewrite <- Hrun.
  by destruct e.
Qed.

Lemma del_all_layers_leaves_every_other_witness :
  exists e' : engine_layers,
    del_all_layers four_layers = Py.Return e' /\ layers e' = [1; 3]%nat.
Proof.
  destruct (del_all_layers_leaves_every_other four_layers) as (e' & H1 & H2 & _).
  - unfold four_layers. simpl. apply (bool_decide_unpack _). vm_compute. reflexivity.
  - by exists e'.
Defined.

(** X16: deleting a layer the engine does not hold raises [ValueError];
    adding a layer and deleting it again gives the former list of
    layers, and the layer ends without a jack name. *)
Theorem add_del_layer_round_trip (e : engine_layers) (l : nat) :
  l ∉ layers e ->
  del_layer e l = Py.Raise Py.ValueError /\
  exists e' : engine_layers,
    del_layer (add_layer e l) l = Py.Return e' /\
    layers e' = layers e /\
    layer_jackname <$> layer_objs e' !! l = (fun _ => None) <$> layer_objs e !! l /\
    forall l' : nat, l' <> l -> layer_objs e' !! l' = layer_objs e !! l'.
Proof.
  intros Hl. split.
  - unfold del_layer. by rewrite list_remove_absent.
  - unfold del_layer, add_layer. cbn [layers with_layers layer_objs].
    rewrite (list_remove_middle l (layers e) [] Hl), app_nil_r.
    eexists. split; [reflexivity|]. cbn [layers with_layers layer_objs].
    split; [done|]. split.
    + rewrite !list_lookup_alter_eq. by destruct (layer_objs e !! l).
    + intros l' Hne. by rewrite !list_lookup_alter_ne.
Qed.

Lemma add_del_layer_round_trip_witness :
  del_layer four_layers 7 = Py.Raise Py.ValueError.
Proof.
  refine (proj1 (add_del_layer_round_trip four_layers 7 _)).
  unfold four_layers. simpl. apply (bool_decide_unpack _). vm_compute. reflexivity.
Defined.

(** The loop of [get_active_midi_channels], from any list built so far. *)
Lemma active_midi_channels_loop_spec (ls : list zynthian_layer) :
  forall chans : list Z,
    (Exists (fun l => layer_midi_chan l = None) ls /\
     active_midi_channels_loop chans ls = None) \/
    (Forall (fun l => is_Some (layer_midi_chan l)) ls /\
     active_midi_channels_loop chans ls
       = Some (chans ++ filter (fun ch => 0 <= ch <= 15)%Z (omap layer_midi_chan ls))).
Proof.
  induction ls as [|l ls IH]; intros chans.
  - right. split; [constructor|]. simpl. by rewrite app_nil_r.
  - cbn [active_midi_channels_loop omap list_omap].
    destruct (layer_midi_chan l) as [ch|] eqn:Hch.
    + destruct ((0 <=? ch)%Z && (ch <=? 15)%Z) eqn:Hr.
      * destruct (IH (chans ++ [ch])) as [[H1 H2]|[H1 H2]].
        -- left. split; [by right|done].
        -- right. split; [constructor; [by rewrite Hch|done]|].
           rewrite H2, filter_cons_True by lia. by rewrite <- app_assoc.
      * destruct (IH chans) as [[H1 H2]|[H1 H2]].
        -- left. split; [by right|done].
        -- right. split; [constructor; [by rewrite Hch|done]|].
           rewrite H2, filter_cons_False by lia. done.
    + left. split; [by left|done].
Qed.

(** X17: [get_active_midi_channels] gives [None] exactly when some layer
    has no MIDI channel, wherever it stands in the list; otherwise it
    gives the channels of the layers, in their order, that lie within
    0..15. *)
Theorem get_active_midi_channels_spec (ls : list zynthian_layer) :
  (Exists (fun l => layer_midi_chan l = None) ls /\
   get_active_midi_channels ls = None) \/
  (Forall (fun l => is_Some (layer_midi_chan l)) ls /\
   get_active_midi_channels ls
     = Some (filter (fun ch => 0 <= ch <= 15)%Z (omap layer_midi_chan ls))).
Proof. apply (active_midi_channels_loop_spec ls []). Qed.

(** * The loading counter *)

Lemma start_loading_value (e : engine_layers) :
  loading (start_loading e).1 = (Z.max 0 (loading e) + 1)%Z.
Proof. unfold start_loading. simpl. destruct (_ <? _)%Z eqn:E; lia. Qed.

Lemma stop_loading_value (e : engine_layers) :
  loading (stop_loading e).1 = Z.max 0 (loading e - 1)%Z.
Proof. unfold stop_loading. simpl. destruct (_ <? _)%Z eqn:E; lia. Qed.

(** X18: whatever the loading methods are called in whatever order,
    from a counter that is not negative, the counter stays between 0 and
    its first value plus the number of calls to [start_loading]. *)
Theorem loading_counter_bounds (ops : list loading_op) (e : engine_layers) :
  (0 <= loading e)%Z ->
  (0 <= loading (fold_left loading_step ops e)
     <= loading e + Z.of_nat (count_starts ops))%Z.
Proof.
  revert e. induction ops as [|o ops IH]; intros e He; [simpl; lia|].
  cbn [fold_left].
  destruct o; cbn [count_starts loading_step].
  - pose proof (start_loading_value e) as Hs.
    specialize (IH (start_loading e).1). lia.
  - pose proof (stop_loading_value e) as Hs.
    specialize (IH (stop_loading e).1). lia.
  - specialize (IH (reset_loading e).1).
    change (loading (reset_loading e).1) with 0%Z in IH. lia.
Qed.

Lemma loading_counter_bounds_witness :
  (0 <= loading (fold_left loading_step
                   [Stop_loading; Start_loading; Start_loading; Stop_loading]
                   four_layers)
     <= 2)%Z.
Proof.
  apply (loading_counter_bounds
           [Stop_loading; Start_loading; Start_loading; Stop_loading] four_layers).
  simpl. lia.
Defined.

(** X19: from a counter that is not negative, [n] calls of
    [start_loading] followed by [m] calls of [stop_loading] leave the
    counter at its first value plus [n - m], or at 0 when that is
    negative: surplus calls of [stop_loading] are absorbed. *)
Theorem loading_start_stop_balance (n m : nat) (e : engine_layers) :
  (0 <= loading e)%Z ->
  loading (fold_left loading_step
             (replicate n Start_loading ++ replicate m Stop_loading) e)
    = Z.max 0 (loading e + Z.of_nat n - Z.of_nat m)%Z.
Proof.
  revert e. induction n as [|n IH]; intros e He.
  - cbn [replicate app]. revert e He. induction m as [|m IHm]; intros e He.
    + simpl. lia.
    + cbn [replicate fold_left loading_step]. rewrite IHm.
      * rewrite stop_loading_value. lia.
      * rewrite stop_loading_value. lia.
  - cbn [replicate app fold_left loading_step]. rewrite IH.
    + rewrite start_loading_value. lia.
    + rewrite start_loading_value. lia.
Qed.

Lemma loading_start_stop_balance_witness :
  loading (fold_left loading_step
             (replicate 2 Start_loading ++ replicate 3 Stop_loading) four_layers)
    = 0%Z.
Proof.
  apply (loading_start_stop_balance 2 3 four_layers). simpl. lia.
Defined.

(** * Configuration, labels and nudging *)

Lemma _set_value_scale (c : zynthian_controller) (raw : Q) :
  ticks (_set_value c raw) = ticks c /\
  value_min (_set_value c raw) = value_min c /\
  value_max (_set_value c raw) = value_max c /\
  value_range (_set_value c raw) = value_range c /\
  is_toggle (_set_value c raw) = is_toggle c.
Proof. rewrite (_set_value_frame c raw). done. Qed.

Lemma _set_value_flags (c : zynthian_controller) (raw : Q) :
  is_integer (_set_value c raw) = is_integer c /\
  is_logarithmic (_set_value c raw) = is_logarithmic c /\
  is_toggle (_set_value c raw) = is_toggle c.
Proof. rewrite (_set_value_frame c raw). done. Qed.

(** [_configure] spelled out for a numeric value. *)
Lemma _configure_numeric (s : selector) :
  _configure s =
    (let c := zctrl s in
     try! r := configure_selector s in
     let '(tks, vmin, vmax, rev, l2v) := r in
     let vmin := default 0%Q vmin in
     let vmax := default 127%Q vmax in
     let vrange := (vmax - vmin)%Q in
     let vmid :=
       match value_mid_attr s with
       | Some m => m
       | None =>
           if is_integer c then (vmin + inject_Z (Py.py_int (vrange / 2)))%Q
           else (vmin + vrange / 2)%Q
       end in
     let c := _set_value (with_scale c vmin vmid vmax vrange tks) (value c) in
     let vdef := default (value c) (value_default s) in
     let nf :=
       match nudge_factor s with
       | Some f => f
       | None =>
           if is_logarithmic c then (1 / 200)%Q
           else if negb (is_integer c) && negb (is_toggle c) then (vrange / 200)%Q
           else 1%Q
       end in
     Py.Return {| zctrl := c; labels := labels s; value_min_attr := Some vmin;
                  value_mid_attr := Some vmid; value_max_attr := Some vmax;
                  value_default := Some vdef; nudge_factor := Some nf;
                  label2value := l2v; range_reversed := rev |}).
Proof.
  unfold _configure, _configure_with_value, _set_value_any.
  destruct (configure_selector s) as [[[[[tks vmin] vmax] rev] l2v]|e]; [|done].
  cbn [Py.bind fst with_zctrl zctrl]. cbv zeta.
  match goal with
  | |- context [_set_value ?c ?v] =>
      destruct (_set_value_flags c v) as (E1 & E2 & E3)
  end.
  rewrite E1, E2, E3. cbn [with_scale is_integer is_logarithmic is_toggle].
  destruct (value_default s); reflexivity.
Qed.

Lemma sorted_lookup {A} (R : A -> A -> Prop) (l : list A) :
  StronglySorted R l ->
  forall (a b : nat) (x y : A),
    (a < b)%nat -> l !! a = Some x -> l !! b = Some y -> R x y.
Proof.
  induction 1 as [|z l Hs IH Hall]; intros a b x y Hab Ha Hb; [done|].
  destruct b as [|b]; [lia|]. simpl in Hb.
  destruct a as [|a]; simpl in Ha.
  - injection Ha as <-. rewrite Forall_forall in Hall. apply Hall.
    by eapply list_elem_of_lookup_2.
  - eapply (IH a b); [lia|done..].
Qed.

(** On strictly monotonic ticks the scan finds a tick that the target
    equals. *)
Lemma get_value2index_exact (tks : list Q) (i : nat) (t val : Q) :
  strictly_monotonic tks -> tks !! i = Some t -> (val == t)%Q ->
  get_value2index tks val = Some i.
Proof.
  intros Hmono Hi Hv. destruct tks as [|t0 rest]; [done|].
  assert (Hscan : exists u : Q,
            let k := value2index_scan val rest 1 (Qabs (t0 - val)) 0 in
            ((k = 0%nat /\ u = t0) \/
             (exists j : nat, k = (1 + j)%nat /\ rest !! j = Some u)) /\
            (tick_distance val u <= tick_distance val t0)%Q /\
            (forall w : Q, w ∈ rest -> (tick_distance val u <= tick_distance val w)%Q)).
  { destruct Hmono as [Hs|Hs].
    - apply (value2index_scan_nearest Qlt val (ascending_turn val) rest t0 1 0 Hs).
    - apply (value2index_scan_nearest (fun a b => (b < a)%Q) val
               (descending_turn val) rest t0 1 0 Hs). }
  destruct Hscan as (u & Hk & Hu & Hmin). cbv zeta in Hk.
  cbn [get_value2index].
  set (k := value2index_scan val rest 1 (Qabs (t0 - val)) 0) in *.
  assert (Hku : (t0 :: rest) !! k = Some u).
  { destruct Hk as [[-> ->]|(j & -> & Hj)]; done. }
  assert (Hd : (tick_distance val u <= tick_distance val t)%Q).
  { destruct i as [|i]; simpl in Hi.
    - injection Hi as <-. exact Hu.
    - apply Hmin. by eapply list_elem_of_lookup_2. }
  assert (Hut : (u == t)%Q).
  { unfold tick_distance in Hd. revert Hd.
    apply (Qabs_case (u - val)); apply (Qabs_case (t - val)); intros; lra. }
  f_equal. destruct (lt_eq_lt_dec k i) as [[Hlt|Heq]|Hgt]; [|done|].
  - destruct Hmono as [Hs|Hs].
    + pose proof (sorted_lookup _ _ Hs k i u t Hlt Hku Hi). lra.
    + pose proof (sorted_lookup _ _ Hs k i u t Hlt Hku Hi) as H. simpl in H. lra.
  - destruct Hmono as [Hs|Hs].
    + pose proof (sorted_lookup _ _ Hs i k t u Hgt Hi Hku). lra.
    + pose proof (sorted_lookup _ _ Hs i k t u Hgt Hi Hku) as H. simpl in H. lra.
Qed.

(** The loop that fills [label2value], after [k] turns. *)
Lemma build_label2value_prefix (ls : list string) (tks : list Q) (k : nat) :
  (k <= length ls)%nat ->
  ((k <= length tks)%nat ->
   exists m : gmap string Q,
     fold_left (label2value_step ls tks) (seq 0 k) (Py.Return ∅) = Py.Return m /\
     (NoDup ls ->
      forall (i : nat) (l : string),
        (i < k)%nat -> ls !! i = Some l -> m !! l = tks !! i)) /\
  ((length tks < k)%nat ->
   fold_left (label2value_step ls tks) (seq 0 k) (Py.Return ∅)
     = Py.Raise Py.IndexError).
Proof.
  induction k as [|k IH]; intros Hk.
  - split; [|lia]. intros _. exists ∅. split; [done|]. intros _ i l Hi. lia.
  - destruct IH as [IHret IHraise]; [lia|].
    rewrite seq_S, fold_left_app. cbn [fold_left Nat.add].
    destruct (lookup_lt_is_Some_2 ls k) as [l Hl]; [lia|].
    split.
    + intros Hlen. destruct IHret as (m & -> & Hm); [lia|].
      destruct (lookup_lt_is_Some_2 tks k) as [t Ht]; [lia|].
      unfold label2value_step. cbn [Py.bind]. rewrite Hl, Ht.
      eexists. split; [reflexivity|].
      intros Hnd i l' Hi Hl'.
      destruct (decide (i = k)) as [->|Hne].
      * rewrite Hl in Hl'. injection Hl' as <-. by rewrite lookup_insert_eq.
      * rewrite lookup_insert_ne.
        -- apply Hm; [done|lia|done].
        -- intros <-. apply Hne. by eapply NoDup_lookup.
    + intros Hlen. destruct (decide (length tks < k)%nat) as [Hlt|Hge].
      * by rewrite IHraise.
      * destruct IHret as (m & -> & _); [lia|].
        unfold label2value_step. cbn [Py.bind]. rewrite Hl.
        by rewrite (lookup_ge_None_2 tks k) by lia.
Qed.

Lemma build_label2value_returns (ls : list string) (tks : list Q) :
  (length ls <= length tks)%nat ->
  exists m : gmap string Q,
    build_label2value ls tks = Py.Return m /\
    (NoDup ls ->
     forall (i : nat) (l : string), ls !! i = Some l -> m !! l = tks !! i).
Proof.
  intros Hlen.
  destruct (build_label2value_prefix ls tks (length ls)) as [Hret _]; [done|].
  destruct (Hret Hlen) as (m & Hm & Hlook). exists m. split; [done|].
  intros Hnd i l Hl. apply Hlook; [done| |done]. by eapply lookup_lt_Some.
Qed.

Lemma build_label2value_raises (ls : list string) (tks : list Q) :
  (length tks < length ls)%nat ->
  build_label2value ls tks = Py.Raise Py.IndexError.
Proof.
  intros Hlen.
  destruct (build_label2value_prefix ls tks (length ls)) as [_ Hraise]; [done|].
  by apply Hraise.
Qed.

Lemma generated_ticks_length (n : nat) (vmin vrange : Q) (integer : bool) :
  length (generated_ticks n vmin vrange integer) = n.
Proof.
  unfold generated_ticks. destruct (decide (n = 1%nat)) as [->|_]; [done|].
  destruct integer; by rewrite length_fmap, length_seq.
Qed.

(** With the default bounds 0 and [n - 1], the [i]-th generated tick is
    [i]. *)
Lemma generated_ticks_default (n : nat) (integer : bool) (i : nat) (t : Q) :
  generated_ticks n 0 (inject_Z (Z.of_nat n - 1) - 0) integer !! i = Some t ->
  (t == inject_Z (Z.of_nat i))%Q.
Proof.
  unfold generated_ticks. destruct (decide (n = 1%nat)) as [->|Hn].
  { destruct i as [|i]; simpl; [|done]. by intros [= <-]. }
  assert (Hd : ~ (inject_Z (Z.of_nat n - 1) == 0)%Q).
  { unfold Qeq. simpl. lia. }
  intros Hi.
  assert (Hq : (inject_Z (Z.of_nat i) * (inject_Z (Z.of_nat n - 1) - 0)
                / inject_Z (Z.of_nat n - 1) == inject_Z (Z.of_nat i))%Q)
    by (field; exact Hd).
  destruct integer; rewrite list_lookup_fmap in Hi;
    destruct (seq 0 n !! i) as [j|] eqn:Hj; try discriminate;
    apply lookup_seq in Hj as [-> _]; simpl in Hi; injection Hi as <-.
  - rewrite (py_int_whole _ _ Hq). lra.
  - rewrite Hq. lra.
Qed.

(** X20: a selector configured from labels alone (no ticks, no bounds)
    gets one tick per label, the ticks 0, 1, ..., n-1, the bounds 0 and
    n-1 and no reversal; [get_label2value] then gives each of its
    distinct labels its position. *)
Theorem configure_labels_only (s : selector) (ls : list string) :
  labels s = Some ls -> ls <> [] -> ticks (zctrl s) = [] ->
  value_min_attr s = None -> value_max_attr s = None ->
  exists s' : selector,
    _configure s = Py.Return s' /\
    length (ticks (zctrl s')) = length ls /\
    (forall (i : nat) (t : Q),
       ticks (zctrl s') !! i = Some t -> (t == inject_Z (Z.of_nat i))%Q) /\
    (value_min (zctrl s') == 0)%Q /\
    (value_max (zctrl s') == inject_Z (Z.of_nat (length ls) - 1))%Q /\
    range_reversed s' = false /\
    (NoDup ls ->
     forall (i : nat) (l : string),
       ls !! i = Some l ->
       exists t : Q, get_label2value s' l = Some t /\ (t == inject_Z (Z.of_nat i))%Q).
Proof.
  intros Hls Hne Htk Hmin Hmax.
  assert (Hn : (0 < length ls)%nat) by (destruct ls; [done|simpl; lia]).
  assert (Htruthy : Py.truthy_list ls = true) by (by destruct ls).
  set (n := length ls) in *.
  set (tks := generated_ticks n 0 (inject_Z (Z.of_nat n - 1) - 0) (is_integer (zctrl s))).
  assert (Hlen : length tks = n) by apply generated_ticks_length.
  assert (Hval : forall i t, tks !! i = Some t -> (t == inject_Z (Z.of_nat i))%Q)
    by (intros i t; apply generated_ticks_default).
  destruct (lookup_lt_is_Some_2 tks 0) as [t0 Ht0]; [lia|].
  destruct (lookup_lt_is_Some_2 tks (pred n)) as [tl Htl]; [lia|].
  assert (Hhead : head tks = Some t0) by (by rewrite head_lookup).
  assert (Hlast : last tks = Some tl) by (by rewrite last_lookup, Hlen).
  pose proof (Hval _ _ Ht0) as Hv0. pose proof (Hval _ _ Htl) as Hvl.
  assert (Hord : (t0 <= tl)%Q).
  { rewrite Hv0, Hvl. rewrite <- Zle_Qle. lia. }
  destruct (build_label2value_returns ls tks) as (m & Hm & Hlook); [lia|].
  assert (Hsel : configure_selector s
                 = Py.Return (tks, Some 0%Q, Some (inject_Z (Z.of_nat n - 1)), false, Some m)).
  { unfold configure_selector. rewrite Hls, Htk, Hmin, Hmax. cbn [default from_option id].
    rewrite Htruthy. cbn [Py.truthy_list].
    fold n. fold tks. rewrite Hhead, Hlast.
    destruct (Qlt_le_dec tl t0) as [Hlt|_]; [lra|].
    cbn [default from_option id]. by rewrite Hm. }
  rewrite _configure_numeric, Hsel. cbn [Py.bind default from_option id].
  eexists. split; [reflexivity|]. cbn [zctrl range_reversed].
  match goal with
  | |- context [_set_value ?c ?v] =>
      destruct (_set_value_scale c v) as (E1 & E2 & E3 & _)
  end.
  rewrite E1, E2, E3. cbn [with_scale ticks value_min value_max].
  split; [done|]. split; [done|]. split; [reflexivity|]. split; [reflexivity|].
  split; [done|].
  intros Hnd i l Hl.
  destruct (lookup_lt_is_Some_2 tks i) as [t Ht].
  { rewrite Hlen. by eapply lookup_lt_Some. }
  exists t. split; [|by apply Hval].
  unfold get_label2value. cbn [zctrl label2value]. rewrite E1. cbn [with_scale ticks].
  destruct tks as [|? ?]; [done|]. cbn [Py.truthy_list].
  by rewrite (Hlook Hnd i l Hl).
Qed.

Lemma configure_labels_only_witness :
  exists s' : selector,
    _configure (fresh_selector ["sine"; "saw"; "square"] true) = Py.Return s' /\
    length (ticks (zctrl s')) = 3%nat.
Proof.
  destruct (configure_labels_only (fresh_selector ["sine"; "saw"; "square"] true)
              ["sine"; "saw"; "square"]%string)
    as (s' & H1 & H2 & _); [reflexivity|discriminate|reflexivity..|].
  by exists s'.
Defined.

Lemma head_last_nonempty {A} (l : list A) :
  l <> [] -> exists a b : A, head l = Some a /\ last l = Some b.
Proof.
  intros Hne. rewrite head_lookup, last_lookup.
  destruct (lookup_lt_is_Some_2 l 0) as [a Ha]; [destruct l; [done|simpl; lia]|].
  destruct (lookup_lt_is_Some_2 l (pred (length l))) as [b Hb];
    [destruct l; [done|simpl; lia]|].
  by exists a, b.
Qed.

Lemma truthy_list_nonempty {A} (l : list A) : l <> [] -> Py.truthy_list l = true.
Proof. by destruct l. Qed.

(** What [_configure] leaves on a controller with labels. *)
Lemma configure_with_labels (s s' : selector) (ls : list string) :
  labels s = Some ls -> ls <> [] -> _configure s = Py.Return s' ->
  exists l2v : gmap string Q,
    build_label2value ls (ticks (zctrl s')) = Py.Return l2v /\
    label2value s' = Some l2v /\ labels s' = Some ls /\ ticks (zctrl s') <> [].
Proof.
  intros Hls Hne. rewrite _configure_numeric. unfold configure_selector.
  rewrite Hls. cbn [default from_option id]. rewrite (truthy_list_nonempty ls Hne).
  destruct (if Py.truthy_list (ticks (zctrl s)) then _ else _) as [[tks vmin] vmax].
  destruct (head tks) as [t0|] eqn:Hh; [|discriminate].
  destruct (last tks) as [tl|]; [|discriminate].
  destruct (if Qlt_le_dec tl t0 then _ else _) as [[vmin' vmax'] rev].
  destruct (build_label2value ls tks) as [l2v|] eqn:Hb; [|discriminate].
  cbn [Py.bind]. intros [= <-]. cbn [zctrl label2value labels].
  match goal with
  | |- context [_set_value ?c ?v] =>
      destruct (_set_value_scale c v) as (E1 & _)
  end.
  rewrite E1. cbn [with_scale ticks].
  exists l2v. split; [done|]. split; [done|]. split; [done|].
  by destruct tks.
Qed.

(** X21: when a controller has labels and explicit ticks, [_configure]
    raises [IndexError] if there are fewer ticks than labels, and
    otherwise returns and keeps the ticks. *)
Theorem configure_needs_a_tick_per_label (s : selector) (ls : list string) :
  labels s = Some ls -> ticks (zctrl s) <> [] ->
  ((length (ticks (zctrl s)) < length ls)%nat ->
   _configure s = Py.Raise Py.IndexError) /\
  ((length ls <= length (ticks (zctrl s)))%nat ->
   exists s' : selector,
     _configure s = Py.Return s' /\ ticks (zctrl s') = ticks (zctrl s)).
Proof.
  intros Hls Htk.
  destruct (head_last_nonempty _ Htk) as (t0 & tl & Hh & Hl).
  rewrite _configure_numeric. unfold configure_selector.
  rewrite Hls. cbn [default from_option id]. rewrite (truthy_list_nonempty _ Htk).
  destruct ls as [|l0 ls'].
  { cbn [Py.truthy_list Py.bind]. split; [simpl; lia|]. intros _.
    eexists. split; [reflexivity|]. cbn [zctrl].
    match goal with
    | |- context [_set_value ?c ?v] =>
        destruct (_set_value_scale c v) as (E1 & _)
    end.
    by rewrite E1. }
  cbn [Py.truthy_list]. rewrite Hh, Hl.
  destruct (if Qlt_le_dec tl t0 then _ else _) as [[vmin' vmax'] rev].
  split.
  - intros Hlen. by rewrite (build_label2value_raises _ _ Hlen).
  - intros Hlen. destruct (build_label2value_returns _ _ Hlen) as (m & -> & _).
    cbn [Py.bind]. eexists. split; [reflexivity|]. cbn [zctrl].
    match goal with
    | |- context [_set_value ?c ?v] =>
        destruct (_set_value_scale c v) as (E1 & _)
    end.
    by rewrite E1.
Qed.

Lemma configure_needs_a_tick_per_label_witness :
  _configure (ticks_selector ["sine"; "saw"; "square"] [0; 1]%Q)
    = Py.Raise Py.IndexError.
Proof.
  refine (proj1 (configure_needs_a_tick_per_label
                   (ticks_selector ["sine"; "saw"; "square"] [0; 1]%Q)
                   ["sine"; "saw"; "square"]%string eq_refl _) _).
  - discriminate.
  - simpl. lia.
Defined.

(** The dictionary built by the loop holds ticks under labels. *)
Lemma build_label2value_prefix_range (ls : list string) (tks : list Q) (k : nat) :
  forall m : gmap string Q,
    fold_left (label2value_step ls tks) (seq 0 k) (Py.Return ∅) = Py.Return m ->
    forall (l : string) (t : Q),
      m !! l = Some t ->
      exists i : nat, (i < k)%nat /\ ls !! i = Some l /\ tks !! i = Some t.
Proof.
  induction k as [|k IH]; intros m Hm l t Hl.
  - simpl in Hm. injection Hm as <-. by rewrite lookup_empty in Hl.
  - rewrite seq_S, fold_left_app in Hm. cbn [fold_left Nat.add] in Hm.
    destruct (fold_left (label2value_step ls tks) (seq 0 k) (Py.Return ∅))
      as [m0|e]; [|discriminate].
    unfold label2value_step in Hm. cbn [Py.bind] in Hm.
    destruct (ls !! k) as [l0|] eqn:Hl0; [|discriminate].
    destruct (tks !! k) as [t0|] eqn:Ht0; [|discriminate].
    injection Hm as <-.
    apply lookup_insert_Some in Hl as [[-> ->]|[_ Hl]].
    + exists k. split; [lia|done].
    + destruct (IH m0 eq_refl l t Hl) as (i & Hi & H1 & H2).
      exists i. split; [lia|done].
Qed.

Lemma build_label2value_range (ls : list string) (tks : list Q)
    (m : gmap string Q) (l : string) (t : Q) :
  build_label2value ls tks = Py.Return m -> m !! l = Some t ->
  l ∈ ls /\ t ∈ tks.
Proof.
  intros Hm Hl.
  destruct (build_label2value_prefix_range ls tks (length ls) m Hm l t Hl)
    as (i & _ & H1 & H2).
  split; by eapply list_elem_of_lookup_2.
Qed.

(** The selector part of [_configure] on labels without given bounds. *)
Lemma configure_selector_labels (s : selector) (ls : list string)
    (tks : list Q) (vmin vmax : option Q) (rev : bool)
    (l2v : option (gmap string Q)) :
  labels s = Some ls -> ls <> [] ->
  value_min_attr s = None -> value_max_attr s = None ->
  configure_selector s = Py.Return (tks, vmin, vmax, rev, l2v) ->
  exists (lo hi : Q) (m : gmap string Q),
    vmin = Some lo /\ vmax = Some hi /\ (lo <= hi)%Q /\
    l2v = Some m /\ build_label2value ls tks = Py.Return m /\ tks <> [].
Proof.
  intros Hls Hne Hmin Hmax.
  assert (Hn : (0 < length ls)%nat) by (destruct ls; [done|simpl; lia]).
  unfold configure_selector.
  rewrite Hls, Hmin, Hmax. cbn [default from_option id].
  rewrite (truthy_list_nonempty ls Hne).
  destruct (Py.truthy_list (ticks (zctrl s))) eqn:Htk.
  - destruct (head (ticks (zctrl s))) as [t0|] eqn:Hh; [|discriminate].
    destruct (last (ticks (zctrl s))) as [tl|]; [|discriminate].
    destruct (Qlt_le_dec tl t0) as [Hlt|Hle];
      destruct (build_label2value ls (ticks (zctrl s))) as [m|] eqn:Hb;
      try discriminate; cbn [Py.bind default from_option id];
      intros [= <- <- <- <- <-]; eexists _, _, m;
      (split; [reflexivity|]); (split; [reflexivity|]); (split; [lra|]);
      (split; [reflexivity|]); (split; [exact Hb|]);
      intros E; by rewrite E in Hh.
  - destruct (head _) as [t0|] eqn:Hh; [|discriminate].
    destruct (last _) as [tl|]; [|discriminate].
    destruct (Qlt_le_dec tl t0) as [Hlt|Hle];
      destruct (build_label2value ls _) as [m|] eqn:Hb; try discriminate;
      cbn [Py.bind default from_option id];
      intros [= <- <- <- <- <-]; eexists _, _, m;
      (split; [reflexivity|]); (split; [reflexivity|]).
    + split; [lra|]. split; [reflexivity|]. split; [exact Hb|].
      intros E; by rewrite E in Hh.
    + split; [unfold Qle; simpl; lia|]. split; [reflexivity|]. split; [exact Hb|].
      intros E; by rewrite E in Hh.
Qed.

(** X22: when a controller with labels is configured without given
    bounds, [value_min <= value_max] afterwards, also for ticks in
    descending order, and the range is their difference.  A numeric
    value, outside toggles, ends between the bounds.  A label as value
    is replaced by the tick [get_label2value] gives for it, one of the
    ticks, stored without clamping, or by [None] when the label is not
    known. *)
Theorem configure_orders_bounds (s s' : selector) (ls : list string)
    (v v' : py_value) :
  labels s = Some ls -> ls <> [] ->
  value_min_attr s = None -> value_max_attr s = None ->
  _configure_with_value s v = Py.Return (s', v') ->
  (value_min (zctrl s') <= value_max (zctrl s'))%Q /\
  value_range (zctrl s') = (value_max (zctrl s') - value_min (zctrl s'))%Q /\
  (forall q : Q,
     v = Num q -> is_toggle (zctrl s) = false ->
     v' = Num (value (zctrl s')) /\
     in_range (value_min (zctrl s')) (value_max (zctrl s')) (value (zctrl s'))) /\
  (forall l : string,
     v = Str l ->
     match get_label2value s' l with
     | Some t => v' = Num t /\ value (zctrl s') = t /\ t ∈ ticks (zctrl s')
     | None => v' = NoneVal
     end).
Proof.
  intros Hls Hne Hmin Hmax. unfold _configure_with_value.
  destruct (configure_selector s) as [[[[[tks vmin] vmax] rev] l2v]|e] eqn:Hsel;
    [|discriminate].
  destruct (configure_selector_labels s ls tks vmin vmax rev l2v Hls Hne Hmin Hmax Hsel)
    as (lo & hi & m & -> & -> & Hord & -> & Hb & Htk).
  cbn [Py.bind default from_option id].
  set (vmid := match value_mid_attr s with Some m0 => m0 | None => _ end).
  destruct v as [q|l|]; cbn [_set_value_any]; [| |discriminate].
  - cbn [Py.bind zctrl with_zctrl]. intros [= <- <-]. cbn [zctrl].
    match goal with
    | |- context [_set_value ?c ?x] =>
        destruct (_set_value_scale c x) as (_ & E2 & E3 & E4 & _);
        pose proof (_set_value_not_toggle c x) as Hnt
    end.
    rewrite E2, E3, E4. cbn [with_scale value_min value_max value_range].
    split; [done|]. split; [done|]. split; [|by intros l [=]].
    intros q' _ Htog. split; [done|].
    rewrite (Hnt Htog). cbn [with_scale value_min value_max].
    by apply clamp_in_range.
  - unfold get_label2value at 1. cbn [zctrl with_scale ticks label2value].
    rewrite (truthy_list_nonempty _ Htk).
    destruct (m !! l) as [t|] eqn:Hl; cbn [Py.bind]; intros [= <- <-];
      cbn [zctrl with_zctrl with_value with_scale value_min value_max value_range];
      (split; [done|]); (split; [done|]); (split; [by intros q [=]|]);
      intros l' [= <-]; unfold get_label2value;
      cbn [zctrl with_zctrl with_value with_scale ticks label2value value];
      rewrite (truthy_list_nonempty _ Htk), Hl.
    + split; [done|]. split; [done|].
      by destruct (build_label2value_range ls tks m l t Hb Hl).
    + done.
Qed.

Lemma configure_orders_bounds_witness :
  exists (s' : selector) (v' : py_value),
    _configure_with_value (ticks_selector ["hi"; "mid"; "lo"] [9; 5; 1]%Q) (Str "mid")
      = Py.Return (s', v') /\
    (value_min (zctrl s') <= value_max (zctrl s'))%Q.
Proof.
  destruct (_configure_with_value (ticks_selector ["hi"; "mid"; "lo"] [9; 5; 1]%Q)
              (Str "mid"))
    as [[s' v']|e] eqn:E; [|vm_compute in E; discriminate].
  exists s', v'. split; [reflexivity|].
  refine (proj1 (configure_orders_bounds
                   (ticks_selector ["hi"; "mid"; "lo"] [9; 5; 1]%Q) s'
                   ["hi"; "mid"; "lo"]%string (Str "mid") v'
                   eq_refl _ eq_refl eq_refl E)).
  discriminate.
Defined.

(** X23: on a configured controller with distinct labels and strictly
    monotonic ticks, a label and its tick convert into each other:
    [get_label2value] of the [i]-th label is the [i]-th tick and
    [get_value2label] of that tick is the label again. *)
Theorem label_value_round_trip (s s' : selector) (ls : list string)
    (i : nat) (l : string) :
  labels s = Some ls -> NoDup ls -> _configure s = Py.Return s' ->
  strictly_monotonic (ticks (zctrl s')) -> ls !! i = Some l ->
  exists t : Q,
    ticks (zctrl s') !! i = Some t /\
    get_label2value s' l = Some t /\
    get_value2label s' (Some t) = Py.Return (inr l).
Proof.
  intros Hls Hnd Hconf Hmono Hl.
  assert (Hne : ls <> []) by (intros ->; done).
  destruct (configure_with_labels s s' ls Hls Hne Hconf)
    as (l2v & Hbuild & Hl2v & Hls' & Htk).
  assert (Hlen : (length ls <= length (ticks (zctrl s')))%nat).
  { destruct (decide (length ls <= length (ticks (zctrl s')))%nat) as [|Hn]; [done|].
    rewrite build_label2value_raises in Hbuild by lia. discriminate. }
  destruct (build_label2value_returns _ _ Hlen) as (m & Hm & Hlook).
  rewrite Hbuild in Hm. injection Hm as <-.
  destruct (lookup_lt_is_Some_2 (ticks (zctrl s')) i) as [t Ht].
  { apply lookup_lt_Some in Hl. lia. }
  exists t. split; [done|]. split.
  - unfold get_label2value. rewrite (truthy_list_nonempty _ Htk), Hl2v.
    by rewrite (Hlook Hnd i l Hl).
  - unfold get_value2label. cbn [default from_option id].
    rewrite (get_value2index_exact _ i t t Hmono Ht) by reflexivity.
    by rewrite Hls', Hl.
Qed.

Lemma label_value_round_trip_witness :
  exists (s' : selector) (t : Q),
    _configure (ticks_selector ["hi"; "mid"; "lo"] [9; 5; 1]%Q) = Py.Return s' /\
    get_label2value s' "mid" = Some t /\
    get_value2label s' (Some t) = Py.Return (inr "mid"%string).
Proof.
  destruct (_configure (ticks_selector ["hi"; "mid"; "lo"] [9; 5; 1]%Q))
    as [s'|e] eqn:E; [|vm_compute in E; discriminate].
  destruct (label_value_round_trip
              (ticks_selector ["hi"; "mid"; "lo"] [9; 5; 1]%Q) s'
              ["hi"; "mid"; "lo"]%string 1 "mid"%string eq_refl)
    as (t & _ & H2 & H3).
  - apply (bool_decide_unpack _). vm_compute. reflexivity.
  - exact E.
  - vm_compute in E. injection E as <-. right. cbn [zctrl ticks].
    repeat constructor.
  - reflexivity.
  - by exists s', t.
Defined.

Section NudgeFacts.

Variable log10 : Q -> Q.
Variable pow10 : Q -> Q.
Variable send_raises : bool.

Lemma nudge_index_range (i : nat) (val : Z) (len : nat) :
  (i < len)%nat ->
  (0 <= nudge_index i val len < Z.of_nat len)%Z /\
  nudge_index i val len
    = Z.max 0 (Z.min (Z.of_nat i + val) (Z.of_nat len - 1)).
Proof.
  intros Hi. unfold nudge_index.
  destruct (Z.of_nat i + val <? 0)%Z eqn:E1;
    [destruct (Z.of_nat len <=? 0)%Z eqn:E2|
     destruct (Z.of_nat len <=? Z.of_nat i + val)%Z eqn:E2]; lia.
Qed.

(** X24: on a controller that is not a toggle, stands on its [i]-th
    tick and has strictly monotonic ticks within its bounds, [nudge] by
    [k] steps returns [True] and moves the value to the tick [k] places
    further, stopping at the first and at the last tick. *)
Theorem nudge_steps_along_ticks (s : selector) (i : nat) (v : Q) (k : Z)
    (send : bool) :
  nudge_factor s <> None ->
  is_toggle (zctrl s) = false ->
  strictly_monotonic (ticks (zctrl s)) ->
  Forall (in_range (value_min (zctrl s)) (value_max (zctrl s))) (ticks (zctrl s)) ->
  ticks (zctrl s) !! i = Some v -> (value (zctrl s) == v)%Q ->
  exists (s' : selector) (evs : list event),
    nudge log10 pow10 send_raises s k send = Py.Return (s', evs, true) /\
    ticks (zctrl s) !!
      Z.to_nat (Z.max 0 (Z.min (Z.of_nat i + k)
                           (Z.of_nat (length (ticks (zctrl s))) - 1)))
      = Some (value (zctrl s')) /\
    ticks (zctrl s') = ticks (zctrl s).
Proof.
  intros Hnf Htog Hmono Hin Hi Hv.
  assert (Hlt : (i < length (ticks (zctrl s)))%nat) by (by eapply lookup_lt_Some).
  destruct (nudge_index_range i k _ Hlt) as [Hr Hidx].
  unfold nudge. destruct (nudge_factor s) as [nf|]; [|done].
  rewrite truthy_list_nonempty by (intros E; rewrite E in Hi; done).
  rewrite (get_value2index_exact _ i v (value (zctrl s)) Hmono Hi Hv).
  unfold Py.index.
  replace ((0 <=? nudge_index i k (length (ticks (zctrl s))))%Z
           && (nudge_index i k (length (ticks (zctrl s)))
               <? Z.of_nat (length (ticks (zctrl s))))%Z) with true
    by (symmetry; apply andb_true_intro; split; [apply Z.leb_le|apply Z.ltb_lt]; lia).
  destruct (lookup_lt_is_Some_2 (ticks (zctrl s))
              (Z.to_nat (nudge_index i k (length (ticks (zctrl s))))))
    as [t Ht]; [lia|].
  rewrite Ht.
  destruct (set_value_stores log10 send_raises (zctrl s) t send)
    as (c' & evs & -> & Hval & Hc').
  cbn [Py.bind fst snd]. exists (with_zctrl s c'), evs.
  split; [reflexivity|]. cbn [with_zctrl zctrl].
  rewrite <- Hidx, Ht. split.
  - rewrite Hval, (_set_value_not_toggle _ _ Htog).
    rewrite truthy_list_nonempty by (intros E; rewrite E in Hi; done).
    rewrite Forall_forall in Hin.
    destruct (Hin t) as [H1 H2]; [by eapply list_elem_of_lookup_2|].
    unfold clamp.
    destruct (Qlt_le_dec (value_max (zctrl s)) t) as [H|_]; [lra|].
    destruct (Qlt_le_dec t (value_min (zctrl s))) as [H|_]; [lra|done].
  - rewrite Hc'. reflexivity.
Qed.

End NudgeFacts.

Lemma nudge_steps_along_ticks_witness :
  exists (s' : selector) (evs : list event),
    nudge (fun x => x) (fun x => x) false three_ticks 5 true
      = Py.Return (s', evs, true) /\
    value (zctrl s') = 2%Q.
Proof.
  destruct (nudge_steps_along_ticks (fun x => x) (fun x => x) false
              three_ticks 1 1%Q 5 true)
    as (s' & evs & H1 & H2 & _).
  - discriminate.
  - reflexivity.
  - left. repeat constructor.
  - repeat constructor; vm_compute; discriminate.
  - reflexivity.
  - reflexivity.
  - exists s', evs. split; [exact H1|].
    vm_compute in H2. by injection H2.
Defined.

(** * Inbound changes and controller set-up *)

Section ZctrlChange.

Variable log10 : Q -> Q.
Variable pow10 : Q -> Q.
Variable send_raises : bool.

(** X25: [midi_zctrl_change] never raises.  A value equal to the 7-bit
    value the controller already has is dropped: the controller is left
    as it is and nothing is sent.  Any other value is stored through
    [_set_value] after scaling. *)
Theorem midi_zctrl_change_drops_echo (c : zynthian_controller) (val : Z) :
  exists (c' : zynthian_controller) (evs : list event),
    midi_zctrl_change log10 pow10 send_raises c val = Py.Return (c', evs) /\
    (get_ctrl_midi_val log10 c = Py.Return val -> c' = c /\ evs = []) /\
    (get_ctrl_midi_val log10 c <> Py.Return val ->
     value c' = value (_set_value c (midi_control_change_value pow10 c (inject_Z val)))).
Proof.
  unfold midi_zctrl_change.
  destruct (get_ctrl_midi_val_returns log10 c) as [m Hm]. rewrite Hm. cbn [Py.bind].
  destruct (Z.eqb_spec val m) as [->|Hne].
  - eexists _, _. split; [reflexivity|]. split; [done|]. by intros [].
  - unfold midi_control_change.
    destruct (set_value_stores log10 send_raises c
                (midi_control_change_value pow10 c (inject_Z val)) true)
      as (c' & evs & -> & Hval & _).
    cbn [Py.bind Py.try_except fst snd].
    exists c', evs. split; [reflexivity|]. split; [|done].
    intros [= ->]. done.
Qed.

End ZctrlChange.

Lemma split_bar_no_bar (s : string) : has_bar s = false -> split_bar s = [s].
Proof.
  induction s as [|a s IH]; [done|]. cbn [has_bar split_bar].
  intros [Ha Hs]%orb_false_elim. rewrite Ha, (IH Hs). done.
Qed.

Lemma split_bar_two (a b : string) :
  has_bar a = false -> has_bar b = false ->
  split_bar (a ++ String (Ascii.ascii_of_nat 124) b) = [a; b].
Proof.
  intros Ha Hb. induction a as [|x a IH].
  - change (split_bar (String (Ascii.ascii_of_nat 124) b) = [EmptyString; b]).
    cbn [split_bar]. rewrite Ascii.eqb_refl. by rewrite split_bar_no_bar.
  - cbn [has_bar] in Ha. apply orb_false_elim in Ha as [Hx Ha].
    change (split_bar (String x (a +:+ String (Ascii.ascii_of_nat 124) b))
            = [String x a; b]).
    cbn [split_bar]. rewrite Hx, (IH Ha). done.
Qed.

(** X26: a controller set up with two labels, on no ticks and no bounds
    of its own, is a toggle between 0 and 127: the ticks are 0 and 127,
    the middle is 63, and the two labels, when distinct, stand for 0 and
    127.  A numeric value is replaced by 0 or by 127; the first label as
    value is stored as 0, the second as 127, and any other label as
    [None]. *)
Theorem setup_two_labels_is_toggle (s : selector) (val : py_value)
    (maxval : maxval_arg) (a b : string) :
  names_two_labels maxval a b ->
  ticks (zctrl s) = [] -> value_min_attr s = None -> value_mid_attr s = None ->
  val <> NoneVal ->
  exists (s' : selector) (v' : py_value),
    setup_scale s val maxval = Py.Return (s', v') /\
    is_toggle (zctrl s') = true /\
    ticks (zctrl s') = [0; 127]%Q /\
    value_min (zctrl s') = 0%Q /\ value_mid (zctrl s') = 63%Q /\
    value_max (zctrl s') = 127%Q /\
    (a <> b ->
     get_label2value s' a = Some 0%Q /\ get_label2value s' b = Some 127%Q) /\
    (forall q : Q,
       val = Num q ->
       v' = Num (value (zctrl s')) /\
       ((value (zctrl s') == 0)%Q \/ (value (zctrl s') == 127)%Q)) /\
    (a <> b -> val = Str a -> v' = Num 0%Q) /\
    (a <> b -> val = Str b -> v' = Num 127%Q) /\
    (forall l : string, val = Str l -> l <> a -> l <> b -> v' = NoneVal).
Proof.
  intros Hmax Htk Hmin Hmid Hval.
  assert (Hgen : generated_ticks 2 0 (127 - 0) true = [0; 127]%Q)
    by (vm_compute; reflexivity).
  destruct (build_label2value_returns [a; b] [0; 127]%Q) as (m & Hm & Hlook);
    [simpl; lia|].
  assert (Hnd : a <> b -> NoDup [a; b]).
  { intros Hab. apply NoDup_cons. split; [by intros ?%list_elem_of_singleton|].
    apply NoDup_singleton. }
  assert (Hdom : forall l : string, l <> a -> l <> b -> m !! l = None).
  { intros l Ha Hb. destruct (m !! l) as [t|] eqn:Hl; [|done].
    destruct (build_label2value_range _ _ _ _ _ Hm Hl) as [Hin _].
    apply elem_of_cons in Hin as [->|Hin]; [done|].
    apply list_elem_of_singleton in Hin as ->. done. }
  set (s1 := {| zctrl := with_setup (zctrl s) val true true [];
                labels := Some [a; b]; value_min_attr := None;
                value_mid_attr := None; value_max_attr := Some 127%Q;
                value_default := value_default s; nudge_factor := nudge_factor s;
                label2value := label2value s; range_reversed := range_reversed s |}).
  assert (Hsetup : setup_scale s val maxval = _configure_with_value s1 val).
  { unfold setup_scale. rewrite Htk, Hmin, Hmid.
    destruct Hmax as [->|(-> & Ha & Hb)]; [done|].
    cbn [Py.bind]. by rewrite (split_bar_two a b Ha Hb). }
  assert (Hsel : configure_selector s1
                 = Py.Return ([0; 127]%Q, Some 0%Q, Some 127%Q, false, Some m)).
  { unfold configure_selector.
    cbn [s1 zctrl labels ticks with_setup value_min_attr value_max_attr
         default from_option id Py.truthy_list length is_integer].
    rewrite Hgen. cbn [head last].
    destruct (Qlt_le_dec 127 0) as [H|_]; [by vm_compute in H|].
    by rewrite Hm. }
  rewrite Hsetup. unfold _configure_with_value. rewrite Hsel.
  cbn [Py.bind default from_option id s1 value_mid_attr zctrl with_setup is_integer].
  change (127 - 0)%Q with 127%Q.
  change (0 + inject_Z (Py.py_int (127 / 2)))%Q with 63%Q.
  fold s1.
  destruct val as [q|l|]; [| |done]; cbn [_set_value_any zctrl].
  - cbn [Py.bind with_zctrl zctrl]. eexists _, _. split; [reflexivity|]. cbn [zctrl].
    match goal with
    | |- context [_set_value ?c ?x] =>
        destruct (_set_value_scale c x) as (E1 & E2 & E3 & _ & E5);
        pose proof (_set_value_frame c x) as Hfr;
        destruct (_set_value_toggle_cases c x eq_refl)
          as [[H1 H2]|[(_ & _ & H2)|(_ & _ & H2)]]
    end.
    all: rewrite E1, E5, E2, E3, Hfr, H2.
    all: cbn [with_scale with_value is_toggle ticks value_min value_max value_mid].
    all: split; [done|]; split; [done|]; split; [done|]; split; [done|];
         split; [done|].
    all: split;
      [intros Hab; unfold get_label2value;
       cbn [zctrl label2value with_value with_scale ticks Py.truthy_list];
       split; [apply (Hlook (Hnd Hab) 0%nat a eq_refl)
              |apply (Hlook (Hnd Hab) 1%nat b eq_refl)]|].
    all: split; [|split; [by intros _ [=]|split; [by intros _ [=]|by intros l [=]]]].
    all: intros q' _; split; [reflexivity|].
    + cbn [with_scale is_integer with_setup value_min value_max value] in *.
      destruct H1 as [H1|H1]; [left|right];
        rewrite (py_int_whole _ _ H1); reflexivity.
    + by left.
    + by right.
  - unfold get_label2value at 1. cbn [zctrl with_scale ticks label2value Py.truthy_list].
    assert (Hfin : forall (c : zynthian_controller) (v' : py_value),
              ticks c = [0; 127]%Q -> is_toggle c = true ->
              value_min c = 0%Q -> value_mid c = 63%Q -> value_max c = 127%Q ->
              v' = match m !! l with Some t => Num t | None => NoneVal end ->
              is_toggle c = true /\ ticks c = [0; 127]%Q /\
              value_min c = 0%Q /\ value_mid c = 63%Q /\ value_max c = 127%Q /\
              (a <> b ->
               get_label2value
                 {| zctrl := c; labels := Some [a; b]; value_min_attr := Some 0%Q;
                    value_mid_attr := Some 63%Q; value_max_attr := Some 127%Q;
                    value_default :=
                      match value_default s, v' with
                      | Some d, _ => Some d
                      | None, Num q => Some q
                      | None, _ => None
                      end;
                    nudge_factor :=
                      Some match nudge_factor s with
                           | Some f => f
                           | None => 1%Q
                           end;
                    label2value := Some m; range_reversed := false |} a = Some 0%Q /\
               get_label2value
                 {| zctrl := c; labels := Some [a; b]; value_min_attr := Some 0%Q;
                    value_mid_attr := Some 63%Q; value_max_attr := Some 127%Q;
                    value_default :=
                      match value_default s, v' with
                      | Some d, _ => Some d
                      | None, Num q => Some q
                      | None, _ => None
                      end;
                    nudge_factor :=
                      Some match nudge_factor s with
                           | Some f => f
                           | None => 1%Q
                           end;
                    label2value := Some m; range_reversed := false |} b = Some 127%Q) /\
              (forall q : Q, Str l = Num q ->
                 v' = Num (value c) /\ ((value c == 0)%Q \/ (value c == 127)%Q)) /\
              (a <> b -> Str l = Str a -> v' = Num 0%Q) /\
              (a <> b -> Str l = Str b -> v' = Num 127%Q) /\
              (forall l0 : string, Str l = Str l0 -> l0 <> a -> l0 <> b -> v' = NoneVal)).
    { intros c v' Et Eg E1 E2 E3 Ev.
      split; [done|]. split; [done|]. split; [done|]. split; [done|]. split; [done|].
      split.
      { intros Hab. unfold get_label2value. cbn [zctrl label2value]. rewrite Et.
        cbn [Py.truthy_list].
        split; [apply (Hlook (Hnd Hab) 0%nat a eq_refl)
               |apply (Hlook (Hnd Hab) 1%nat b eq_refl)]. }
      split; [by intros q [=]|].
      split; [|split].
      - intros Hab [= ->]. rewrite Ev.
        by rewrite (Hlook (Hnd Hab) 0%nat a eq_refl).
      - intros Hab [= ->]. rewrite Ev.
        by rewrite (Hlook (Hnd Hab) 1%nat b eq_refl).
      - intros l0 [= <-] Ha Hb. rewrite Ev. by rewrite (Hdom l Ha Hb). }
    destruct (m !! l) as [t|] eqn:Hl; cbn [Py.bind with_zctrl zctrl];
      eexists _, _; (split; [reflexivity|]); cbn [zctrl].
    + apply Hfin; reflexivity.
    + apply Hfin; reflexivity.
Qed.

Lemma setup_two_labels_is_toggle_witness :
  exists (s' : selector) (v' : py_value),
    setup_scale (new_selector true "mute") (Str "on") (Max_str "off|on")
      = Py.Return (s', v') /\
    v' = Num 127%Q.
Proof.
  destruct (setup_two_labels_is_toggle (new_selector true "mute") (Str "on")
              (Max_str "off|on") "off" "on")
    as (s' & v' & H1 & _ & _ & _ & _ & _ & _ & _ & _ & H10 & _).
  - right. repeat split.
  - reflexivity.
  - reflexivity.
  - reflexivity.
  - discriminate.
  - exists s', v'. split; [exact H1|]. apply H10; [discriminate|reflexivity].
Defined.
